(** * RADICAL-Pilot: agent pipeline, launch method, session and raptor

    A shallow embedding of the parts of [radical.pilot] that the
    specification speaks about:

    - [agent/staging_input/default.py]  (module [StagingInput])
    - [agent/agent_0.py]                (module [Agent0])
    - [agent/launch_method/mpiexec.py]  (module [MPIExec])
    - [session.py], constructor         (module [Session])
    - [raptor_tasks.py]                 (module [Raptor])

    Python values are modelled by the Rocq types closest to them: a [str]
    is the [string] of its code points, which are taken below 256 (the
    characters up to U+00FF), [int] is [Z], [dict] is a [gmap] (or an
    association list where the iteration order is observable), [None]-able
    values are [option]s.
    Calls into collaborators that are not part of these files (filesystem,
    document store, pub/sub, profiler) are recorded, in program order, as
    events of a trace; exceptions are values of type [exn]. *)

From Stdlib Require Import ZArith String Ascii List Bool Lia.
From stdpp Require Import base tactics option list strings gmap pretty.

Local Set Warnings "-register-all".
Local Open Scope string_scope.
Local Open Scope Z_scope.
Local Open Scope list_scope.

(* ===================================================================== *)
(** ** Python primitives used by the embedded code                        *)
(* ===================================================================== *)

Module Py.

(** The exception classes raised or caught by the embedded code.  All of
    them derive from [Exception]. *)
Inductive exn : Type :=
| OSError (errno : Z) (msg : string)
| AssertionError (msg : string)
| NotImplementedError (msg : string)
| ValueError (msg : string)
| KeyError (key : string)
| TypeError (msg : string)
| IndexError (msg : string)
| RuntimeError (msg : string)
| UnboundLocalError (name : string).

(** Outcome of a call that may raise. *)
Inductive result (A : Type) : Type :=
| Ok (a : A)
| Raise (e : exn).
Arguments Ok {A} a.
Arguments Raise {A} e.

Definition is_ok {A} (r : result A) : bool :=
  match r with Ok _ => true | Raise _ => false end.

(** [errno.ENOTDIR] *)
Definition ENOTDIR : Z := 20.

(** The double quote and the newline, as one-character strings. *)
Definition dq : string := String "034"%char EmptyString.
Definition nl : string := String "010"%char EmptyString.

(** Truthiness of a [str] and of an optional [str]. *)
Definition truthy (s : string) : bool :=
  match s with EmptyString => false | String _ _ => true end.

Definition truthy_opt (o : option string) : bool :=
  match o with None => false | Some s => truthy s end.

(** [a or b] on strings where [a] may be [None]. *)
Definition or_else (o : option string) (d : string) : string :=
  match o with
  | Some s => if truthy s then s else d
  | None => d
  end.

(** White space as [str.strip] and [str.isspace] see it: of the
    characters up to U+00FF these are U+0009 to U+000D, U+001C to U+0020,
    U+0085 and U+00A0. *)
Definition is_space (c : ascii) : bool :=
  let n := nat_of_ascii c in
  ((9 <=? n) && (n <=? 13) || (28 <=? n) && (n <=? 32)
   || (n =? 133) || (n =? 160))%nat.

Fixpoint lstrip (s : string) : string :=
  match s with
  | EmptyString => EmptyString
  | String c s' => if is_space c then lstrip s' else s
  end.

Fixpoint rstrip (s : string) : string :=
  match s with
  | EmptyString => EmptyString
  | String c s' =>
      match rstrip s' with
      | EmptyString => if is_space c then EmptyString else String c EmptyString
      | r => String c r
      end
  end.

(** [s.strip()] *)
Definition strip (s : string) : string := rstrip (lstrip s).

(** [s.lower()]: of the characters up to U+00FF the upper-case letters
    are [A] to [Z] and U+00C0 to U+00DE without the sign U+00D7, and each
    has its lower-case letter 32 places on. *)
Definition lower_char (c : ascii) : ascii :=
  let n := nat_of_ascii c in
  if ((65 <=? n) && (n <=? 90)
      || (192 <=? n) && (n <=? 222) && negb (n =? 215))%nat
  then ascii_of_nat (n + 32) else c.

Fixpoint lower (s : string) : string :=
  match s with
  | EmptyString => EmptyString
  | String c s' => String (lower_char c) (lower s')
  end.

(** [needle in hay] on strings. *)
Fixpoint starts_with (p s : string) : bool :=
  match p, s with
  | EmptyString, _ => true
  | String a p', String b s' => if Ascii.eqb a b then starts_with p' s' else false
  | String _ _, EmptyString => false
  end.

Fixpoint contains (needle hay : string) : bool :=
  starts_with needle hay ||
  match hay with
  | EmptyString => false
  | String _ hay' => contains needle hay'
  end.

(** The first character of [m] is not white space. *)
Definition starts_solid (m : string) : bool :=
  match m with
  | EmptyString => false
  | String c _ => negb (is_space c)
  end.

(** The last character of [m] is not white space. *)
Fixpoint ends_solid (m : string) : bool :=
  match m with
  | EmptyString => false
  | String c EmptyString => negb (is_space c)
  | String _ m' => ends_solid m'
  end.

(** [sep.join(l)] *)
Fixpoint join (sep : string) (l : list string) : string :=
  match l with
  | [] => ""
  | [x] => x
  | x :: l' => x +:+ sep +:+ join sep l'
  end.

(** ['%d' % n] and [str(n)] for an [int]. *)
Definition str_int (n : Z) : string := pretty n.

(** [os.path] (posixpath). *)
Definition has_slash (p : string) : bool := contains "/" p.

Fixpoint basename (p : string) : string :=
  match p with
  | EmptyString => EmptyString
  | String c p' =>
      if has_slash p' then basename p'
      else if Ascii.eqb c "/" then p' else p
  end.

(** [p[:p.rfind('/') + 1]] *)
Fixpoint head_slash (p : string) : string :=
  match p with
  | EmptyString => EmptyString
  | String c p' =>
      if has_slash p' then String c (head_slash p')
      else if Ascii.eqb c "/" then "/" else EmptyString
  end.

Fixpoint all_slashes (p : string) : bool :=
  match p with
  | EmptyString => true
  | String c p' => Ascii.eqb c "/" && all_slashes p'
  end.

Fixpoint rstrip_slash (p : string) : string :=
  match p with
  | EmptyString => EmptyString
  | String c p' =>
      match rstrip_slash p' with
      | EmptyString => if Ascii.eqb c "/" then EmptyString else String c EmptyString
      | r => String c r
      end
  end.

Definition dirname (p : string) : string :=
  let head := head_slash p in
  if truthy head && negb (all_slashes head) then rstrip_slash head else head.

Fixpoint ends_with_slash (p : string) : bool :=
  match p with
  | EmptyString => false
  | String c EmptyString => Ascii.eqb c "/"
  | String _ p' => ends_with_slash p'
  end.

(** [os.path.join(a, b)] *)
Definition path_join (a b : string) : string :=
  if starts_with "/" b then b
  else if negb (truthy a) || ends_with_slash a then a +:+ b
  else a +:+ "/" +:+ b.

End Py.
Import Py.

(* ===================================================================== *)
(** ** States ([radical.pilot.states]) and pub/sub channels               *)
(* ===================================================================== *)

Module States.

(** Task and pilot states share one name space in [rps]. *)
Inductive state : Type :=
| TMGR_STAGING_INPUT_PENDING
| AGENT_STAGING_INPUT_PENDING
| AGENT_STAGING_INPUT
| AGENT_SCHEDULING_PENDING
| AGENT_SCHEDULING
| AGENT_EXECUTING_PENDING
| AGENT_EXECUTING
| AGENT_STAGING_OUTPUT_PENDING
| AGENT_STAGING_OUTPUT
| TMGR_STAGING_OUTPUT_PENDING
| PMGR_LAUNCHING
| PMGR_ACTIVE
| DONE
| FAILED
| CANCELED.

Global Instance state_eq_dec : EqDecision state.
Proof. solve_decision. Defined.

Inductive channel : Type := CONTROL_PUBSUB | STATE_PUBSUB.

End States.
Import States.

(* ===================================================================== *)
(** ** agent/agent_0.py                                                   *)
(* ===================================================================== *)

Module Agent0.

(** Values carried as command arguments. *)
Inductive pyval : Type :=
| PNone
| PStr (s : string)
| PList (l : list pyval)
| PDict (d : list (string * pyval)).

Fixpoint assoc (k : string) (d : list (string * pyval)) : option pyval :=
  match d with
  | [] => None
  | (k', v) :: d' => if String.eqb k' k then Some v else assoc k d'
  end.

(** [v[k]] for a string key [k]. *)
Definition getitem (v : pyval) (k : string) : result pyval :=
  match v with
  | PDict d =>
      match assoc k d with
      | Some x => Ok x
      | None => Raise (KeyError k)
      end
  | PNone => Raise (TypeError "'NoneType' object is not subscriptable")
  | PStr _ => Raise (TypeError "string indices must be integers")
  | PList _ => Raise (TypeError "list indices must be integers or slices, not str")
  end.

(** [v == s] for a [str] [s]. *)
Definition eq_str (v : pyval) (s : string) : bool :=
  match v with
  | PStr s' => String.eqb s' s
  | _ => false
  end.

(** The attributes of [Agent_0] that the embedded methods read or write. *)
Record agent : Type := mk_agent {
  _pid : string;
  _pmgr : string;
  _final_cause : option string;
  _lrms : bool;                                      (* [self._lrms] is set *)
  unit_environment : option (list (string * string)) (* [cfg['unit_environment']] *)
}.

Definition set_final_cause (c : string) (self : agent) : agent :=
  mk_agent (_pid self) (_pmgr self) (Some c) (_lrms self) (unit_environment self).

(** One command of the pilot document: [{'cmd': ..., 'arg': ...}]. *)
Record cmd_spec : Type := mk_cmd { cmd : string; arg : pyval }.

(** A pilot document of the mailbox, as far as [_check_commands] reads it. *)
Record pilot_doc : Type := mk_pilot_doc {
  doc_uid : string;
  doc_cmd : option (list cmd_spec)
}.

(** A unit document of the mailbox. *)
Record unit_doc : Type := mk_unit {
  u_type : string;
  u_uid : string;
  u_pilot : string;
  u_control : string;
  u_states : list state;
  u_state : option state;
  u_environment : option (list (string * string))
}.

(** Calls on collaborators, in program order.  Logger and profiler calls
    change neither the agent nor the mailbox nor the buses and are left
    out. *)
Inductive event : Type :=
| Publish (ch : channel) (verb : string) (a : pyval)
| HbBeat (uid : string)
| Stop
| StageOutput
| HbStop
| CmgrClose
| LrmsStop
| UpdateDb (s : state) (msg : option string)
| DbSetTails (pid : string)
| DbFind (pid : string)
| DbUpdateMulti (uids : list string)
| Advance (units : list unit_doc) (publish push : bool).

(** *** [finalize] *)

(** Lines 246-249: the final pilot state chosen from [self._final_cause]. *)
Definition final_state (final_cause : option string) : state :=
  if decide (final_cause = Some "timeout") then DONE
  else if decide (final_cause = Some "cancel") then CANCELED
  else if decide (final_cause = Some "sys.exit") then CANCELED
  else FAILED.

(** [finalize].  Line 261 binds [out] (twice) and [err] but not [log], and
    the three reads of lines 263-268 swallow their exceptions: when
    [./agent.0.log] cannot be opened and read ([log_readable] is [false]),
    [log] is still unbound where line 274 evaluates [rpu.tail(log)], and
    [finalize] raises there, before the update of the tails is issued. *)
Definition finalize (self : agent) (log_readable : bool)
  : list event * result unit :=
  ([StageOutput; HbStop; CmgrClose]
   ++ (if _lrms self then [LrmsStop] else [])
   ++ [UpdateDb (final_state (_final_cause self)) (_final_cause self)]
   ++ (if log_readable then [DbSetTails (_pid self)] else []),
   if log_readable then Ok tt else Raise (UnboundLocalError "log")).

(** *** [_check_commands] *)

(** [find_and_modify(query={'uid': pid}, update={'$set': {'cmd': []}})]:
    the first matching document is returned as it was, and its command
    list is wiped. *)
Fixpoint find_and_modify (pid : string) (c : list pilot_doc)
  : option pilot_doc * list pilot_doc :=
  match c with
  | [] => (None, [])
  | d :: c' =>
      if String.eqb (doc_uid d) pid
      then (Some d, mk_pilot_doc (doc_uid d) (Some []) :: c')
      else let '(r, c'') := find_and_modify pid c' in (r, d :: c'')
  end.

(** What the body of the command loop decides about the loop. *)
Inductive flow : Type := Continue | Return (b : bool).

(** The branches after the [heartbeat] test. *)
Definition dispatch_other (self : agent) (spec : cmd_spec)
  : agent * list event * flow :=
  if String.eqb (cmd spec) "cancel_pilot" then
    (set_final_cause "cancel" self,
     [Publish CONTROL_PUBSUB "terminate" PNone; Stop],
     Return false)
  else if String.eqb (cmd spec) "cancel_units" then
    (self, [Publish CONTROL_PUBSUB "cancel_units" (arg spec)], Continue)
  else
    (self, [], Continue).

(** The body of [for spec in retdoc.get('cmd', [])].  [arg['pmgr']] is
    only evaluated when the verb is [heartbeat]. *)
Definition handle_command (self : agent) (spec : cmd_spec)
  : result (agent * list event * flow) :=
  if String.eqb (cmd spec) "heartbeat" then
    match getitem (arg spec) "pmgr" with
    | Raise e => Raise e
    | Ok v =>
        if eq_str v (_pmgr self)
        then Ok (self, [HbBeat (_pmgr self)], Continue)
        else Ok (dispatch_other self spec)
    end
  else Ok (dispatch_other self spec).

Fixpoint run_commands (self : agent) (specs : list cmd_spec)
  : agent * list event * result bool :=
  match specs with
  | [] => (self, [], Ok true)
  | spec :: specs' =>
      match handle_command self spec with
      | Raise e => (self, [], Raise e)
      | Ok (self', evs, Return b) => (self', evs, Ok b)
      | Ok (self', evs, Continue) =>
          let '(self'', evs', r) := run_commands self' specs' in
          (self'', evs ++ evs', r)
      end
  end.

Definition _check_commands (self : agent) (c : list pilot_doc)
  : list pilot_doc * (agent * list event * result bool) :=
  match find_and_modify (_pid self) c with
  | (None, c') => (c', (self, [], Ok true))
  | (Some retdoc, c') => (c', run_commands self (default [] (doc_cmd retdoc)))
  end.

(** *** [_check_units_cb] *)

Section CheckUnits.

(** [rps._unit_state_collapse] is defined in [states.py]. *)
Variable _unit_state_collapse : list state -> state.

Definition is_pending (pid : string) (u : unit_doc) : bool :=
  String.eqb (u_type u) "unit" && String.eqb (u_pilot u) pid
  && String.eqb (u_control u) "agent_pending".

(** [find({'type': 'unit', 'pilot': pid, 'control': 'agent_pending'})] *)
Definition find (pid : string) (db : list unit_doc) : list unit_doc :=
  List.filter (is_pending pid) db.

Definition set_control (c : string) (u : unit_doc) : unit_doc :=
  mk_unit (u_type u) (u_uid u) (u_pilot u) c (u_states u) (u_state u)
          (u_environment u).

Definition in_uids (uids : list string) (u : unit_doc) : bool :=
  String.eqb (u_type u) "unit" && existsb (String.eqb (u_uid u)) uids.

(** [update({'type': 'unit', 'uid': {'$in': uids}},
            {'$set': {'control': 'agent'}}, multi=True)] *)
Definition update (uids : list string) (db : list unit_doc) : list unit_doc :=
  List.map (fun u => if in_uids uids u then set_control "agent" u else u) db.

(** [for k, v in env.items(): d[k] = v] on insertion-ordered dicts. *)
Fixpoint dict_set (k v : string) (d : list (string * string))
  : list (string * string) :=
  match d with
  | [] => [(k, v)]
  | (k', v') :: d' =>
      if String.eqb k' k then (k, v) :: d' else (k', v') :: dict_set k v d'
  end.

Definition dict_update (env d : list (string * string))
  : list (string * string) :=
  fold_left (fun acc kv => dict_set (fst kv) (snd kv) acc) env d.

Definition unit_env (self : agent) (u : unit_doc)
  : option (list (string * string)) :=
  match unit_environment self with
  | None => u_environment u
  | Some env =>
      let d := match u_environment u with
               | Some (x :: d') => x :: d'
               | _ => []
               end in
      Some (dict_update env d)
  end.

(** The body of [for unit in unit_list]. *)
Definition prepare_unit (self : agent) (u : unit_doc) : unit_doc :=
  mk_unit (u_type u) (u_uid u) (u_pilot u) "agent" (u_states u)
          (Some (_unit_state_collapse (u_states u))) (unit_env self u).

Definition _check_units_cb (self : agent) (db : list unit_doc)
  : list unit_doc * list event * bool :=
  let unit_cursor := find (_pid self) db in
  if Nat.eqb (length unit_cursor) 0 then
    (db, [DbFind (_pid self)], true)
  else
    let unit_list := unit_cursor in
    let unit_uids := List.map u_uid unit_list in
    let db' := update unit_uids db in
    (db',
     [DbFind (_pid self); DbUpdateMulti unit_uids;
      Advance (List.map (prepare_unit self) unit_list) false true],
     true).



End CheckUnits.

(** *** [_check_state] and [_agent_command_cb] *)

(** [runtime_set] is the truth value of [self._cfg.runtime]; [expired] is
    the value of
    [time.time() >= self._starttime + (int(self._cfg.runtime) * 60)],
    which is only looked at when the runtime is set. *)
Definition _check_state (self : agent) (runtime_set expired : bool)
  : agent * list event * bool :=
  if runtime_set then
    if expired then (set_final_cause "timeout" self, [Stop], false)
    else (self, [], true)
  else (self, [], true).

(** [if not self._check_commands(): return False;
     if not self._check_state(): return False; return True] *)
Definition _agent_command_cb (self : agent) (c : list pilot_doc)
           (runtime_set expired : bool)
  : list pilot_doc * (agent * list event * result bool) :=
  match _check_commands self c with
  | (c', (self', evs, Ok true)) =>
      let '(self'', evs', b) := _check_state self' runtime_set expired in
      (c', (self'', evs ++ evs', Ok b))
  | (c', (self', evs, Ok false)) => (c', (self', evs, Ok false))
  | (c', (self', evs, Raise e)) => (c', (self', evs, Raise e))
  end.

(** Events that shut the agent down: [self.stop()] and a published
    ['terminate']. *)
Definition is_shutdown (e : event) : bool :=
  match e with
  | Stop => true
  | Publish _ verb _ => String.eqb verb "terminate"
  | _ => false
  end.

Definition is_publish (e : event) : bool :=
  match e with
  | Publish _ _ _ => true
  | _ => false
  end.

(** [d.get(k)] on an insertion-ordered [dict] of strings. *)
Fixpoint env_get (k : string) (d : list (string * string)) : option string :=
  match d with
  | [] => None
  | (k', v) :: d' => if String.eqb k' k then Some v else env_get k d'
  end.

(** What a drain that ends with [r] has done to the agent [self]: after
    [False], the cancellation and nothing else that shuts down; after
    [True] or an exception, nothing that shuts down. *)
Definition drain_spec (self : agent) (r : agent * list event * result bool)
  : Prop :=
  match snd r with
  | Ok false =>
      fst (fst r) = set_final_cause "cancel" self
      /\ exists evs0,
          snd (fst r) = evs0 ++ [Publish CONTROL_PUBSUB "terminate" PNone; Stop]
          /\ List.filter is_shutdown evs0 = []
  | Ok true | Raise _ =>
      fst (fst r) = self /\ List.filter is_shutdown (snd (fst r)) = []
  end.

(** The pilot document after its command list was wiped. *)
Definition wiped (pid : string) : pilot_doc := mk_pilot_doc pid (Some []).

End Agent0.

(* ===================================================================== *)
(** ** agent/staging_input/default.py                                     *)
(* ===================================================================== *)

Module StagingInput.

(** Staging actions ([rpc.LINK], ...). *)
Inductive action : Type := LINK | COPY | MOVE | TARBALL | TRANSFER.

Global Instance action_eq_dec : EqDecision action.
Proof. solve_decision. Defined.

(** A staging directive: [sd['action']], [sd['uid']], [sd['source']],
    [sd['target']] (which may be [None]). *)
Record staging_directive : Type := mk_sd {
  sd_action : action;
  sd_uid : string;
  sd_source : string;
  sd_target : option string
}.

(** The task dictionary, as far as the component reads or writes it.
    [input_staging] is [None] when the description has no such key. *)
Record task : Type := mk_task {
  uid : string;
  input_staging : option (list staging_directive);
  task_sandbox : string;
  pilot_sandbox : string;
  session_sandbox : string;
  resource_sandbox : string;
  endpoint_fs : string;
  target_state : option state;
  exception : option string;
  exception_detail : option string
}.

(** [ru.Url]: the three components the component touches. *)
Record Url : Type := mk_url { schema : string; host : string; path : string }.

(** The sandbox context handed to [complete_url]. *)
Record context : Type := mk_ctx {
  ctx_pwd : string;
  ctx_task : string;
  ctx_pilot : string;
  ctx_session : string;
  ctx_resource : string;
  ctx_endpoint : string
}.

(** Filesystem calls: the ones that only look, and the ones that act. *)
Inductive fs_query : Type :=
| PathExists (p : string)
| IsDir (p : string)
| IsFile (p : string).

Inductive fs_cmd : Type :=
| RecMakedir (p : string)
| CopyTree (src tgt : string)
| Copy (src tgt : string)
| Symlink (src tgt : string)
| Move (src tgt : string)
| TarOpen (tarball : string)
| TarExtractAll (tarball : string) (into : string)
| TarClose (tarball : string).

(** What the component does to the outside, in program order.  Logger
    calls are left out. *)
Inductive event : Type :=
| FsQuery (q : fs_query) (answer : bool)
| FsCmd (c : fs_cmd)
| Prof (name : string) (uid : string) (msg : string)
| Advance (tasks : list task) (s : state) (publish push : bool).

Definition is_fs_event (e : event) : bool :=
  match e with
  | FsQuery _ _ | FsCmd _ => true
  | Prof _ _ _ | Advance _ _ _ _ => false
  end.

Definition fs_events (evs : list event) : list event :=
  List.filter is_fs_event evs.

(** The tasks handed to [advance] by a trace, each with the state it is
    advanced to. *)
Definition advanced (evs : list event) : list (task * state) :=
  flat_map (fun e => match e with
                     | Advance ts s _ _ => List.map (fun t => (t, s)) ts
                     | _ => []
                     end) evs.

Definition is_advance (e : event) : bool :=
  match e with
  | Advance _ _ _ _ => true
  | _ => false
  end.

Definition tar_cmd (c : fs_cmd) : bool :=
  match c with
  | TarOpen _ | TarExtractAll _ _ | TarClose _ => true
  | _ => false
  end.

Definition is_tar_event (e : event) : bool :=
  match e with
  | FsCmd c => tar_cmd c
  | _ => false
  end.

Section Component.

(** The filesystem: its state, how it answers a query and how it
    carries out a command (which may raise after changing it). *)
Context {W : Type}.
Variable fs_answer : fs_query -> W -> bool.
Variable fs_exec : fs_cmd -> W -> W * option exn.

(** [ru.Url(s)] and [str(url)]. *)
Variable Url_parse : string -> Url.
Variable Url_str : Url -> string.

(** [staging_directives.complete_url] *)
Variable complete_url : string -> context -> result Url.

(** [repr(e)] and [ru.get_exception_trace()]. *)
Variable repr : exn -> string.
Variable get_exception_trace : exn -> list string.

(** Computations of the component: they read and change the filesystem,
    emit events, and return or raise. *)
Definition M (A : Type) : Type := W -> result A * W * list event.

Definition ret {A} (a : A) : M A := fun w => (Ok a, w, []).

Definition bind {A B} (m : M A) (k : A -> M B) : M B := fun w =>
  match m w with
  | (Ok a, w', evs) =>
      let '(r, w'', evs') := k a w' in (r, w'', evs ++ evs')
  | (Raise e, w', evs) => (Raise e, w', evs)
  end.

Notation "'let*' x ':=' m 'in' k" := (bind m (fun x => k))
  (at level 10, x name, m at level 100, k at level 200).
Notation "m ';;;' k" := (bind m (fun _ => k))
  (at level 100, k at level 200, right associativity).

Definition raise {A} (e : exn) : M A := fun w => (Raise e, w, []).

Definition lift {A} (r : result A) : M A := fun w => (r, w, []).

(** [try: m  except Exception as e: h e] *)
Definition catch {A} (m : M A) (h : exn -> M A) : M A := fun w =>
  match m w with
  | (Ok a, w', evs) => (Ok a, w', evs)
  | (Raise e, w', evs) =>
      let '(r, w'', evs') := h e w' in (r, w'', evs ++ evs')
  end.

Definition emit (e : event) : M unit := fun w => (Ok tt, w, [e]).

Definition query (q : fs_query) : M bool := fun w =>
  let b := fs_answer q w in (Ok b, w, [FsQuery q b]).

Definition command (c : fs_cmd) : M unit := fun w =>
  match fs_exec c w with
  | (w', None) => (Ok tt, w', [FsCmd c])
  | (w', Some e) => (Raise e, w', [FsCmd c])
  end.

Definition prof (name uid msg : string) : M unit := emit (Prof name uid msg).

Definition advance (ts : list task) (s : state) : M unit :=
  emit (Advance ts s true true).

Definition assert (b : bool) (msg : string) : M unit :=
  if b then ret tt else raise (AssertionError msg).

Fixpoint for_each {A} (f : A -> M unit) (l : list A) : M unit :=
  match l with
  | [] => ret tt
  | x :: l' => f x ;;; for_each f l'
  end.

Definition local_action (a : action) : bool :=
  bool_decide (a = COPY) || bool_decide (a = LINK) || bool_decide (a = MOVE).

(** Lines 164-172: the target the directive is completed from. *)
Definition default_target (src : string) (tgt : option string) : M string :=
  let tgt := default "" tgt in
  if String.eqb (strip tgt) "" then
    ret ("task:///" +:+ basename src)
  else
    let* e := query (PathExists (strip tgt)) in
    if e then
      let* d := query (IsDir (strip tgt)) in
      if d then ret (path_join tgt (basename src)) else ret tgt
    else ret tgt.

(** Lines 191-241: the action itself. *)
Definition enact (uid did : string) (a : action) (src tgt : Url) : M unit :=
  match a with
  | COPY =>
      catch (command (CopyTree (path src) (path tgt)))
            (fun exc =>
               match exc with
               | OSError errno _ =>
                   if Z.eqb errno ENOTDIR
                   then command (Copy (path src) (path tgt))
                   else raise exc
               | _ => raise exc
               end)
  | LINK =>
      let* f := query (IsFile (path src)) in
      let* d := (if f then query (IsDir (path tgt)) else ret false) in
      if f && d
      then command (Symlink (path src)
                      (path tgt +:+ "/" +:+ basename (path src)))
      else command (Symlink (path src) (path tgt))
  | MOVE => command (Move (path src) (path tgt))
  | TRANSFER =>
      prof "staging_in_fail" uid did ;;;
      raise (NotImplementedError ("unsupported transfer " +:+ Url_str src))
  | TARBALL =>
      let tarball := dirname (path tgt) +:+ "/" +:+ uid +:+ ".tar" in
      command (TarOpen tarball) ;;;
      command (TarExtractAll tarball "/") ;;;
      command (TarClose tarball)
  end.

(** The body of [for sd in actionables] (lines 146-243). *)
Definition handle_sd (uid : string) (sandbox : Url)
           (src_context tgt_context : context)
           (sd : staging_directive) : M unit :=
  let a := sd_action sd in
  let did := sd_uid sd in
  prof "staging_in_start" uid did ;;;
  if negb (local_action a) then
    prof "staging_in_skip" uid did
  else
    let* tgt := default_target (sd_source sd) (sd_target sd) in
    let* src := lift (complete_url (sd_source sd) src_context) in
    let* tgt := lift (complete_url tgt tgt_context) in
    assert (String.eqb (schema tgt) "file") "staging tgt must be file://" ;;;
    (if local_action a
     then assert (String.eqb (schema src) "file")
                 "staging src expected as file://"
     else ret tt) ;;;
    (if negb (bool_decide (a = TRANSFER)) then
       let tgtdir := dirname (path tgt) in
       if negb (String.eqb tgtdir (path sandbox))
       then command (RecMakedir tgtdir)
       else ret tt
     else ret tt) ;;;
    enact uid did a src tgt ;;;
    prof "staging_in_stop" uid did.

(** [url.schema = 'file'; url.host = 'localhost'] *)
Definition localize (u : Url) : Url := mk_url "file" "localhost" (path u).

Definition _handle_task (t : task) (actionables : list staging_directive)
  : M unit :=
  let task_sandbox := localize (Url_parse (task_sandbox t)) in
  let pilot_sandbox := localize (Url_parse (pilot_sandbox t)) in
  let session_sandbox := localize (Url_parse (session_sandbox t)) in
  let resource_sandbox := localize (Url_parse (resource_sandbox t)) in
  let endpoint_fs := localize (Url_parse (endpoint_fs t)) in
  let ctx := mk_ctx (Url_str task_sandbox) (Url_str task_sandbox)
                    (Url_str pilot_sandbox) (Url_str session_sandbox)
                    (Url_str resource_sandbox) (Url_str endpoint_fs) in
  for_each (handle_sd (uid t) task_sandbox ctx ctx) actionables ;;;
  advance [t] AGENT_SCHEDULING_PENDING.

(** Line 70: the directives this component enacts. *)
Definition is_actionable (sd : staging_directive) : bool :=
  bool_decide (sd_action sd = LINK) || bool_decide (sd_action sd = COPY)
  || bool_decide (sd_action sd = MOVE) || bool_decide (sd_action sd = TARBALL).

Definition actionables_of (t : task) : list staging_directive :=
  List.filter is_actionable (default [] (input_staging t)).

Definition needs_staging (t : task) : bool :=
  match actionables_of t with [] => false | _ :: _ => true end.

(** Lines 60-76: the two lists the batch is split into. *)
Fixpoint split_tasks (tasks : list task)
  : list task * list (task * list staging_directive) :=
  match tasks with
  | [] => ([], [])
  | t :: tasks' =>
      let '(no_staging_tasks, staging_tasks) := split_tasks tasks' in
      match actionables_of t with
      | [] => (t :: no_staging_tasks, staging_tasks)
      | sd :: sds => (no_staging_tasks, (t, sd :: sds) :: staging_tasks)
      end
  end.

(** Lines 88-90: what the handler writes into the task. *)
Definition mark_failed (e : exn) (t : task) : task :=
  mk_task (uid t) (input_staging t) (task_sandbox t) (pilot_sandbox t)
          (session_sandbox t) (resource_sandbox t) (endpoint_fs t)
          (Some FAILED) (Some (repr e))
          (Some (join nl (get_exception_trace e))).

(** Lines 83-93: one task of the second loop. *)
Definition stage_one (ta : task * list staging_directive) : M unit :=
  catch (_handle_task (fst ta) (snd ta))
        (fun e => advance [mark_failed e (fst ta)] TMGR_STAGING_OUTPUT_PENDING).

Definition bulk_advance (no_staging_tasks : list task) : M unit :=
  match no_staging_tasks with
  | [] => ret tt
  | _ :: _ => advance no_staging_tasks AGENT_SCHEDULING_PENDING
  end.

Definition _work (tasks : list task) : M unit :=
  let '(no_staging_tasks, staging_tasks) := split_tasks tasks in
  bulk_advance no_staging_tasks ;;;
  for_each stage_one staging_tasks.

(** Observations of a run from the filesystem state [w]. *)
Definition result_of {A} (m : M A) (w : W) : result A := fst (fst (m w)).
Definition world_after {A} (m : M A) (w : W) : W := snd (fst (m w)).
Definition events_of {A} (m : M A) (w : W) : list event := snd (m w).

(** A computation none of whose events satisfies [P]. *)
Definition never {A} (P : event -> bool) (m : M A) : Prop :=
  forall w, List.filter P (events_of m w) = [].

(** Where a task with actionable directives ends up when handled from
    the filesystem state [w]. *)
Definition outcome (t : task) (acts : list staging_directive) (w : W)
  : task * state :=
  match result_of (_handle_task t acts) w with
  | Ok _ => (t, AGENT_SCHEDULING_PENDING)
  | Raise e => (mark_failed e t, TMGR_STAGING_OUTPUT_PENDING)
  end.

(** The event of the bulk advance. *)
Definition bulk_events (no_staging_tasks : list task) : list event :=
  match no_staging_tasks with
  | [] => []
  | _ :: _ => [Advance no_staging_tasks AGENT_SCHEDULING_PENDING true true]
  end.

(** The sandbox URL and the context that [_handle_task] computes for a
    task (lines 113-142). *)
Definition sandbox_url (t : task) : Url :=
  localize (Url_parse (task_sandbox t)).

Definition task_context (t : task) : context :=
  mk_ctx (Url_str (sandbox_url t)) (Url_str (sandbox_url t))
         (Url_str (localize (Url_parse (pilot_sandbox t))))
         (Url_str (localize (Url_parse (session_sandbox t))))
         (Url_str (localize (Url_parse (resource_sandbox t))))
         (Url_str (localize (Url_parse (endpoint_fs t)))).

End Component.

(** A command on the filesystem, whichever. *)
Definition is_fs_cmd (e : event) : bool :=
  match e with
  | FsCmd _ => true
  | _ => false
  end.

(** All the staging directives of a task are transfers. *)
Definition only_transfers (t : task) : bool :=
  forallb (fun sd => bool_decide (sd_action sd = TRANSFER))
          (default [] (input_staging t)).

End StagingInput.

(* ===================================================================== *)
(** ** agent/launch_method/mpiexec.py                                     *)
(* ===================================================================== *)

Module MPIExec.

(** One rank of a slot assignment: [rank['node_name']] and
    [rank['core_map']], a list of lists of core indices. *)
Record rank : Type := mk_rank {
  node_name : string;
  core_map : list (list Z)
}.

(** [task['uid']], [task['slots'].get('ranks')] and
    [task['task_sandbox_path']]. *)
Record task : Type := mk_task {
  uid : string;
  ranks : option (list rank);
  task_sandbox_path : string
}.

(** The dictionary built by [_init_from_scratch]. *)
Record lm_info : Type := mk_info {
  env : list (string * string);
  env_sh : string;
  command : string;
  mpt : bool;
  rsh : bool;
  ccmrun : string;
  dplace : string;
  omplace : string;
  mpi_version : option string;
  mpi_flavor : option string
}.

(** The attributes of an [MPIExec] instance. *)
Record mpiexec : Type := mk_lm {
  name : string;
  _mpt : bool;
  _rsh : bool;
  _ccmrun : string;
  _dplace : string;
  _omplace : string;
  _command : string;
  _env : list (string * string);
  _env_sh : string;
  _mpi_version : option string;
  _mpi_flavor : option string
}.

(** A file written through [ru.ru_open(name, 'w')]. *)
Inductive event : Type := WriteFile (fname : string) (content : string).

Definition bind {A B} (r : result A) (k : A -> result B) : result B :=
  match r with
  | Ok a => k a
  | Raise e => Raise e
  end.

Notation "'let*' x ':=' m 'in' k" := (bind m (fun x => k))
  (at level 10, x name, m at level 100, k at level 200).

Section Probes.

(** [ru.which], [ru.get_hostname()], [LaunchMethod._get_mpi_info] and
    the standard output of [ru.sh_callout(cmd, shell=True)]. *)
Variable which : list string -> option string.
Variable get_hostname : string.
Variable _get_mpi_info : string -> result (option string * option string).
Variable sh_callout : string -> string.

(** The order in which a [set] of strings is iterated. *)
Variable set_iter : list string -> list string.

Definition mpiexec_names : list string :=
  ["mpiexec"; "mpiexec.mpich"; "mpiexec.hydra"; "mpiexec.openmpi";
   "mpiexec-mpich-mp"; "mpiexec-openmpi-mp"; "mpiexec_mpt"].

(** [lm_info[key] = ru.which(exe); assert lm_info[key]] *)
Definition which_asserted (exe : string) : result string :=
  match which [exe] with
  | Some p => if truthy p then Ok p else Raise (AssertionError "")
  | None => Raise (AssertionError "")
  end.

Definition _init_from_scratch (self : mpiexec)
           (env : list (string * string)) (env_sh : string)
  : result lm_info :=
  let command := which mpiexec_names in
  if negb (truthy_opt command) then
    Raise (ValueError "mpiexec not found - cannot start MPI tasks")
  else
    let lname := lower (name self) in
    let mpt := contains "_mpt" lname in
    let rsh := contains "_rsh" lname in
    let* ccmrun := (if contains "_ccmrun" lname
                    then which_asserted "ccmrun" else Ok "") in
    let* dplace := (if contains "_dplace" lname
                    then which_asserted "dplace" else Ok "") in
    let cheyenne := contains "cheyenne" get_hostname in
    let omplace := if cheyenne then "omplace" else "" in
    let mpt := if cheyenne then true else mpt in
    let* info := _get_mpi_info (default "" command) in
    Ok (mk_info env env_sh (default "" command) mpt rsh ccmrun dplace
                omplace (fst info) (snd info)).

Definition _init_from_info (info : lm_info) (self : mpiexec)
  : result mpiexec :=
  if negb (truthy (command info)) then Raise (AssertionError "")
  else
    Ok (mk_lm (name self) (mpt info) (rsh info) (ccmrun info)
              (dplace info)
              (if negb (truthy (omplace info)) then "" else "omplace")
              (command info) (env info) (env_sh info)
              (mpi_version info) (mpi_flavor info)).

Definition can_launch (executable : string) : bool * string :=
  if negb (truthy executable) then (false, "no executable") else (true, "").

Definition get_launcher_env (self : mpiexec) : list string :=
  [". $RP_PILOT_SANDBOX/" +:+ _env_sh self]
  ++ (if _mpt self then ["export MPI_SHEPHERD=true"] else []).

(** One line of the rank file. *)
Definition rank_line (rank_id : nat) (node : string) (cores : list Z)
  : string :=
  "rank " +:+ str_int (Z.of_nat rank_id) +:+ "=" +:+ node
  +:+ " slots=" +:+ join "," (List.map str_int cores) +:+ nl.

(** The loop of [_get_rank_file]: [rf_str] grows by one line per rank;
    [rank['core_map'][0]] raises on an empty core map. *)
Fixpoint rank_file_loop (rank_id : nat) (rs : list rank) (rf_str : string)
  : result string :=
  match rs with
  | [] => Ok rf_str
  | r :: rs' =>
      match core_map r with
      | [] => Raise (IndexError "list index out of range")
      | cores :: _ =>
          rank_file_loop (S rank_id) rs'
            (rf_str +:+ rank_line rank_id (node_name r) cores)
      end
  end.

Definition _get_rank_file (rs : list rank) (uid sandbox : string)
  : result (string * list event) :=
  let* rf_str := rank_file_loop 0 rs "" in
  let rf_name := sandbox +:+ "/" +:+ uid +:+ ".rf" in
  Ok (rf_name, [WriteFile rf_name rf_str]).

(** [host_slots[k] += n] on a [defaultdict(int)], which keeps the keys
    in the order of their first use. *)
Fixpoint dict_add (k : string) (n : Z) (d : list (string * Z))
  : list (string * Z) :=
  match d with
  | [] => [(k, n)]
  | (k', v) :: d' =>
      if String.eqb k' k then (k', v + n) :: d' else (k', v) :: dict_add k n d'
  end.

Definition host_slots (rs : list rank) : list (string * Z) :=
  fold_left (fun d r => dict_add (node_name r)
                                 (Z.of_nat (length (core_map r))) d) rs [].

Definition _get_host_file (rs : list rank) (uid sandbox : string)
           (simple : bool) : string * list event :=
  let hs := host_slots rs in
  let hf_str :=
    if simple then join nl (List.map fst hs) +:+ nl
    else fold_left (fun s kv => s +:+ fst kv +:+ " slots="
                                  +:+ str_int (snd kv) +:+ nl) hs "" in
  let hf_name := sandbox +:+ "/" +:+ uid +:+ ".hf" in
  (hf_name, [WriteFile hf_name hf_str]).

(** The probe of line 200: does [--help] mention [-rf]? *)
Definition has_rf (self : mpiexec) : bool :=
  truthy (sh_callout (_command self +:+ " --help |& grep -- "
                       +:+ dq +:+ "-rf" +:+ dq)).

(** Lines 197-213: the options, and the files written for them. *)
Definition placement_options (self : mpiexec) (rs : list rank)
           (uid sbox : string) : result (string * list event) :=
  let cmd_options := "-np " +:+ str_int (Z.of_nat (length rs)) +:+ " " in
  if has_rf self then
    let hosts := set_iter (List.map node_name rs) in
    let* rf := _get_rank_file rs uid sbox in
    Ok (cmd_options +:+ "-H " +:+ join "," hosts +:+ " "
                    +:+ "-rf " +:+ fst rf, snd rf)
  else
    match rs with
    | [] => Raise (IndexError "list index out of range")
    | r0 :: _ =>
        match core_map r0 with
        | [] => Raise (IndexError "list index out of range")
        | cores :: _ =>
            let cores_per_rank := length cores in
            let hf := _get_host_file rs uid sbox true in
            Ok (cmd_options +:+ "--hostfile " +:+ fst hf +:+ " "
                  +:+ "--depth=" +:+ str_int (Z.of_nat cores_per_rank)
                  +:+ " --cpu-bind depth", snd hf)
        end
    end.

Definition with_omplace (self : mpiexec) (cmd_options : string) : string :=
  if truthy (_omplace self) then cmd_options +:+ " " +:+ _omplace self
  else cmd_options.

Definition get_launch_cmds (self : mpiexec) (t : task) (exec_path : string)
  : result (string * list event) :=
  match ranks t with
  | None | Some [] => Raise (AssertionError "task.slots.ranks not defined")
  | Some rs =>
      let* po := placement_options self rs (uid t) (task_sandbox_path t) in
      let cmd_options := with_omplace self (fst po) in
      Ok (strip (_command self +:+ " " +:+ cmd_options +:+ " " +:+ exec_path),
          snd po)
  end.

Definition rank_test (var : string) (pad : string) : string :=
  "test -z " +:+ dq +:+ "$" +:+ var +:+ dq +:+ pad
  +:+ " || export RP_RANK=$" +:+ var +:+ nl.

Definition get_rank_cmd (self : mpiexec) : string :=
  let ret := rank_test "MPI_RANK" " " +:+ rank_test "PMIX_RANK" ""
             +:+ rank_test "PMI_ID" "   " +:+ rank_test "PMI_RANK" " " in
  if _mpt self then ret +:+ rank_test "MPT_MPI_RANK" "" else ret.

(** A slot assignment as the scheduler produces it: at least one rank,
    and every rank with at least one core map entry. *)
Definition placed (t : task) : bool :=
  match ranks t with
  | None | Some [] => false
  | Some rs =>
      forallb (fun r => match core_map r with [] => false | _ => true end) rs
  end.

(** [needle] occurs in [s]. *)
Definition occurs_in (needle s : string) : Prop :=
  exists pre post, s = pre +:+ needle +:+ post.

(** The lines of a file, put together. *)
Definition concat_str (lines : list string) : string :=
  fold_right String.append "" lines.

(** [rank['core_map'][0]], where there is one. *)
Definition first_cores (r : rank) : list Z :=
  match core_map r with
  | [] => []
  | cores :: _ => cores
  end.

(** The claim's words for the rank file: per rank, the node name and the
    core indices of that rank, those of all its core map entries. *)
Definition all_cores (r : rank) : list Z := concat (core_map r).

Definition rank_file_of_claim (rs : list rank) : string :=
  concat_str (imap (fun i r => rank_line i (node_name r) (all_cores r)) rs).

(** What follows the placement options on the command line. *)
Definition cmd_tail (self : mpiexec) (exec_path : string) : string :=
  rstrip ((if truthy (_omplace self) then " " +:+ _omplace self else "")
          +:+ " " +:+ exec_path).

End Probes.

(** The first rank of the task has a core map entry. *)
Definition first_rank_has_cores (t : task) : bool :=
  match ranks t with
  | Some (r0 :: _) => match core_map r0 with [] => false | _ => true end
  | _ => false
  end.

(** [d.get(k)] on the host dictionary. *)
Fixpoint slots_get (k : string) (d : list (string * Z)) : option Z :=
  match d with
  | [] => None
  | (k', v) :: d' => if String.eqb k' k then Some v else slots_get k d'
  end.

(** The core map entries of the ranks placed on [host], counted. *)
Fixpoint slots_on (host : string) (rs : list rank) : Z :=
  match rs with
  | [] => 0
  | r :: rs' =>
      (if String.eqb (node_name r) host
       then Z.of_nat (length (core_map r)) else 0) + slots_on host rs'
  end.

(** Sample probes and a sample task. *)
Definition which0 (l : list string) : option string :=
  match l with
  | "mpiexec" :: _ => Some "/usr/bin/mpiexec"
  | _ => None
  end.

Definition mpi_info0 (c : string) : result (option string * option string) :=
  Ok (Some "4.1.5", Some "OMPI").

Definition sh_callout0 (c : string) : string := "  -rf <file>".

Definition sh_callout1 (c : string) : string := "".

(** Iteration in the order of first occurrence. *)
Fixpoint set_iter0 (l : list string) : list string :=
  match l with
  | [] => []
  | x :: l' =>
      x :: List.filter (fun y => negb (String.eqb x y)) (set_iter0 l')
  end.

Definition lm0 : mpiexec :=
  mk_lm "MPIEXEC" false false "" "" "" "/usr/bin/mpiexec" []
        "env/lm_mpiexec.sh" (Some "4.1.5") (Some "OMPI").

Definition fresh0 : mpiexec :=
  mk_lm "MPIEXEC" false false "" "" "" "" [] "" None None.

(** A host without MPI. *)
Definition which_none (l : list string) : option string := None.

(** A host with [mpiexec] but without [ccmrun]. *)
Definition lm_ccmrun : mpiexec :=
  mk_lm "MPIEXEC_CCMRUN" false false "" "" "" "" [] "" None None.

Definition task0 : task :=
  mk_task "task.000000"
          (Some [mk_rank "node1" [[0; 1]]; mk_rank "node2" [[4; 5]]])
          "/sbox/task.000000".

(** A task whose only rank has two core map entries. *)
Definition task_two_maps : task :=
  mk_task "task.000001" (Some [mk_rank "node1" [[0; 1]; [2; 3]]])
          "/sbox/task.000001".

End MPIExec.

(* ===================================================================== *)
(** ** session.py: the constructor                                        *)
(* ===================================================================== *)

Module Session.

Definition _PRIMARY : string := "primary".
Definition _AGENT_0 : string := "agent_0".
Definition _AGENT_N : string := "agent_n".
Definition _DEFAULT : string := "default".

Record session : Type := mk_session {
  _role : string;
  _uid : option string;
  _reg_addr : option string
}.

(** *** The registry service *)

(** Calls on the registry: the service started under a uid, and the client
    connected to a URL. *)
Inductive reg_event : Type :=
| RegistryStart (uid : string)
| RegistryClient (url : string).

(** ['%s' % x] for a string that may be [None]. *)
Definition str_opt (o : option string) : string := default "None" o.

(** [_start_registry]; [service_addr] is the address of the service once
    it is started. *)
Definition _start_registry (service_addr : option string) (s : session)
  : result session * list reg_event :=
  if truthy_opt (_reg_addr s) then
    (Raise (ValueError "cannot start registry when providing `reg_addr`"), [])
  else
    (Ok (mk_session (_role s) (_uid s) service_addr),
     [RegistryStart (str_opt (_uid s) +:+ ".reg")]).

(** [_init_registry] *)
Definition _init_registry (s : session) : result session * list reg_event :=
  if negb (truthy_opt (_reg_addr s)) then
    (Raise (ValueError "session needs a registry address"), [])
  else
    (Ok s, [RegistryClient (str_opt (_reg_addr s))]).

(** [self._start_registry(); self._init_registry()], as [_init_primary]
    and [_init_agent_0] call them. *)
Definition setup_registry (service_addr : option string) (s : session)
  : result session * list reg_event :=
  match _start_registry service_addr s with
  | (Ok s', evs) =>
      let '(r, evs') := _init_registry s' in (r, evs ++ evs')
  | (Raise e, evs) => (Raise e, evs)
  end.

(** *** The constructor *)

(** Methods of the class and calls on the base class that the constructor
    goes through and whose bodies lie outside of it.  Each of them may
    raise; none of them assigns [self._uid], [self._role] or
    [self._reg_addr]. *)
Inductive step : Type :=
| ReadCfg            (* [self._read_cfg()] *)
| RegPutSid          (* [self._reg.put('sid', self._uid)] *)
| InitProxy          (* [self._init_proxy()] *)
| InitCfg            (* [self._init_cfg()] *)
| SagaSessionInit    (* [rs.Session.__init__(self, uid=self._uid)] *)
| StartComponents.   (* [_init_components], after its test of the role *)

(** What the constructor does to the outside, in program order: the ids
    it has generated, the calls on the registry, and the steps above, each
    with [self._uid] as it is when the step is called. *)
Inductive event : Type :=
| GenerateId (id : string)
| Registry (e : reg_event)
| Call (st : step) (uid : option string).

Section Init.

(** The keyword arguments collected in [**close_options], and what
    [_CloseOptions(close_options)] / [verify()] make of them. *)
Context {CloseOptions : Type}.
Variable verify_close_options : CloseOptions -> option exn.

(** [ru.generate_id('rp.session', mode=ru.ID_PRIVATE)]: the id handed
    out by the [n]-th call. *)
Variable generate_id : nat -> string.

(** [self._reg_service.addr] of the registry service started under a
    uid. *)
Variable service_addr : string -> option string.

(** The exception a step raises, if any, on the session as it is. *)
Variable raises : step -> session -> option exn.

Definition call (st : step) (s : session) : result session * list event :=
  (match raises st s with Some e => Raise e | None => Ok s end,
   [Call st (_uid s)]).

(** One statement after the other: the second is not reached when the
    first raises. *)
Definition and_then (m : result session * list event)
           (k : session -> result session * list event)
  : result session * list event :=
  match m with
  | (Ok s, evs) => let '(r, evs') := k s in (r, evs ++ evs')
  | (Raise e, evs) => (Raise e, evs)
  end.

(** [self._start_registry(); self._init_registry()] *)
Definition registry (s : session) : result session * list event :=
  let '(r, evs) :=
    setup_registry (service_addr (str_opt (_uid s) +:+ ".reg")) s in
  (r, List.map Registry evs).

Definition _init_primary (s : session) : result session * list event :=
  and_then (call ReadCfg s) (fun s =>
  and_then (registry s) (fun s =>
  and_then (call RegPutSid s) (fun s =>
  call InitProxy s))).

Definition _init_agent_0 (s : session) : result session * list event :=
  and_then (registry s) (fun s => call InitCfg s).

Definition _init_secondary (s : session) : result session * list event :=
  (Ok s, []).

Definition _init_components (s : session) : result session * list event :=
  if String.eqb (_role s) _PRIMARY || String.eqb (_role s) _AGENT_0
     || String.eqb (_role s) _AGENT_N
  then call StartComponents s
  else (Ok s, []).

(** Lines 194-216.  [n] counts the ids generated so far. *)
Definition init_role (s : session) (n : nat)
  : result session * nat * list event :=
  if String.eqb (_role s) _PRIMARY then
    if negb (truthy_opt (_uid s)) then
      let id := generate_id n in
      let '(r, evs) :=
        _init_primary (mk_session (_role s) (Some id) (_reg_addr s)) in
      (r, S n, GenerateId id :: evs)
    else
      let '(r, evs) := _init_primary s in (r, n, evs)
  else if String.eqb (_role s) _AGENT_0 then
    if truthy_opt (_uid s)
    then (Raise (ValueError "non-primary sessions need a UID"), n, [])
    else let '(r, evs) := _init_agent_0 s in (r, n, evs)
  else if String.eqb (_role s) _AGENT_N || String.eqb (_role s) _DEFAULT then
    if truthy_opt (_uid s)
    then (Raise (ValueError "non-primary sessions need a UID"), n, [])
    else let '(r, evs) := _init_secondary s in (r, n, evs)
  else
    (Ok s, n, []).

(** [Session.__init__], lines 171-220: up to and with the start of the
    components, for a call that leaves [cfg], [proxy_url] and [proxy_host]
    at their defaults.  [Ok] says that these lines went through without
    an exception; the session it carries has the three attributes as the
    constructor's own assignments leave them. *)
Definition __init__ (uid : option string) (role : string)
           (reg_addr : option string) (close_options : CloseOptions)
           (n : nat)
  : result session * nat * list event :=
  (* lines 173-174: an id is generated (and overwritten on line 177)
     when no uid is given *)
  let '(n1, evs1) :=
    if truthy_opt uid then (n, [])
    else (S n, [GenerateId (generate_id n)]) in
  match verify_close_options close_options with
  | Some e => (Raise e, n1, evs1)
  | None =>
      match init_role (mk_session role uid reg_addr) n1 with
      | (Ok s, n2, evs2) =>
          let '(r, evs3) :=
            and_then (call SagaSessionInit s) _init_components in
          (r, n2, evs1 ++ evs2 ++ evs3)
      | (Raise e, n2, evs2) => (Raise e, n2, evs1 ++ evs2)
      end
  end.

End Init.

(** The ids among the events. *)
Definition is_generate (e : event) : bool :=
  match e with
  | GenerateId _ => true
  | _ => false
  end.

(** *** The managers of a session *)

Section Managers.

(** Pilot managers and task managers, with their [uid]. *)
Context {Mgr : Type}.
Variable mgr_uid : Mgr -> string.

(** [d[k] = m] and [d.get(k)] on the insertion-ordered [dict] of
    managers. *)
Fixpoint mgr_set (k : string) (m : Mgr) (d : list (string * Mgr))
  : list (string * Mgr) :=
  match d with
  | [] => [(k, m)]
  | (k', m') :: d' =>
      if String.eqb k' k then (k, m) :: d' else (k', m') :: mgr_set k m d'
  end.

Fixpoint mgr_get (k : string) (d : list (string * Mgr)) : option Mgr :=
  match d with
  | [] => None
  | (k', m) :: d' => if String.eqb k' k then Some m else mgr_get k d'
  end.

Definition _register_pmgr (pmgr : Mgr) (pmgrs : list (string * Mgr))
  : list (string * Mgr) :=
  mgr_set (mgr_uid pmgr) pmgr pmgrs.

Definition list_pilot_managers (pmgrs : list (string * Mgr)) : list string :=
  List.map fst pmgrs.

(** The argument of [get_pilot_managers]: [None], one uid, or a list. *)
Inductive uids_arg : Type :=
| ArgNone
| ArgUid (uid : string)
| ArgList (uids : list string).

(** Its result: one manager, or a list of managers. *)
Inductive managers : Type :=
| One (m : Mgr)
| Many (ms : list Mgr).

(** [[self._pmgrs[uid] for uid in pmgr_uids]], where a uid may be [None];
    the keys of the dictionary are strings. *)
Fixpoint lookup_all (pmgrs : list (string * Mgr)) (uids : list (option string))
  : result (list Mgr) :=
  match uids with
  | [] => Ok []
  | None :: _ => Raise (KeyError "None")
  | Some k :: uids' =>
      match mgr_get k pmgrs with
      | None => Raise (KeyError k)
      | Some m =>
          match lookup_all pmgrs uids' with
          | Ok ms => Ok (m :: ms)
          | Raise e => Raise e
          end
      end
  end.

Definition get_pilot_managers (pmgrs : list (string * Mgr))
           (pmgr_uids : uids_arg) : result managers :=
  let '(uids, return_scalar) :=
    match pmgr_uids with
    | ArgList l => (List.map Some l, false)
    | ArgUid u => ([Some u], true)
    | ArgNone => ([None], true)
    end in
  let found :=
    match uids with
    | [] => Ok (List.map snd pmgrs)
    | _ :: _ => lookup_all pmgrs uids
    end in
  match found with
  | Raise e => Raise e
  | Ok ms =>
      if return_scalar then
        match ms with
        | m :: _ => Ok (One m)
        | [] => Raise (IndexError "list index out of range")
        end
      else Ok (Many ms)
  end.

(** [_register_tmgr], [list_task_managers] and [get_task_managers] are the
    same code on [self._tmgrs]. *)
Definition _register_tmgr := _register_pmgr.
Definition list_task_managers := list_pilot_managers.
Definition get_task_managers := get_pilot_managers.

End Managers.

(** *** [get_resource_config] *)

(** A resource configuration: a dictionary from keys to values; the
    resource configurations of a session: per domain, per host.  The
    configuration objects are used as dictionaries, and setting the
    attribute [label] sets the key ['label']. *)
Definition rcfg : Type := list (string * Agent0.pyval).

Fixpoint dict_lookup {V : Type} (k : string) (d : list (string * V))
  : option V :=
  match d with
  | [] => None
  | (k', v) :: d' => if String.eqb k' k then Some v else dict_lookup k d'
  end.

(** [cfg[k] = v] *)
Fixpoint cfg_set (k : string) (v : Agent0.pyval) (d : rcfg) : rcfg :=
  match d with
  | [] => [(k, v)]
  | (k', v') :: d' =>
      if String.eqb k' k then (k, v) :: d' else (k', v') :: cfg_set k v d'
  end.

(** [resource.split('.', 1)], when it gives two parts. *)
Fixpoint split_dot (s : string) : option (string * string) :=
  match s with
  | EmptyString => None
  | String c s' =>
      if Ascii.eqb c "." then Some (EmptyString, s')
      else match split_dot s' with
           | Some (a, b) => Some (String c a, b)
           | None => None
           end
  end.

(** Truthiness of a value. *)
Definition py_truthy (v : Agent0.pyval) : bool :=
  match v with
  | Agent0.PNone => false
  | Agent0.PStr s => truthy s
  | Agent0.PList l => match l with [] => false | _ => true end
  | Agent0.PDict d => match d with [] => false | _ => true end
  end.

(** [v[0]] *)
Definition first_item (v : Agent0.pyval) : result Agent0.pyval :=
  match v with
  | Agent0.PList (x :: _) => Ok x
  | Agent0.PList [] => Raise (IndexError "list index out of range")
  | Agent0.PStr (String c _) => Ok (Agent0.PStr (String c EmptyString))
  | Agent0.PStr EmptyString => Raise (IndexError "string index out of range")
  | Agent0.PDict _ => Raise (KeyError "0")
  | Agent0.PNone => Raise (TypeError "'NoneType' object is not subscriptable")
  end.

(** [cfg[key] = cfg[sname][key]] for the keys of the loop, one after the
    other; the section is read from the configuration as it then is. *)
Fixpoint merge_loop (sname : string) (keys : list string) (cfg : rcfg)
  : result rcfg :=
  match keys with
  | [] => Ok cfg
  | key :: keys' =>
      match Agent0.assoc sname cfg with
      | None => Raise (KeyError sname)
      | Some section =>
          match Agent0.getitem section key with
          | Raise e => Raise e
          | Ok v => merge_loop sname keys' (cfg_set key v cfg)
          end
      end
  end.

(** [for key in resource_cfg[schema]: ...], whatever the value
    [section] of [resource_cfg[schema]] is when the loop starts. *)
Definition merge_schema (sname : string) (section : Agent0.pyval) (cfg : rcfg)
  : result rcfg :=
  match section with
  | Agent0.PDict d => merge_loop sname (List.map fst d) cfg
  | Agent0.PStr EmptyString => Ok cfg
  | Agent0.PStr (String _ _) => Raise (TypeError "string indices must be integers")
  | Agent0.PList [] => Ok cfg
  | Agent0.PList (_ :: _) =>
      Raise (TypeError "list indices must be integers or slices, not str")
  | Agent0.PNone => Raise (TypeError "'NoneType' object is not iterable")
  end.

(** Lines 1008-1018: the schema taken, and its keys merged. *)
Definition apply_schema (resource : string) (schema : Agent0.pyval)
           (resource_cfg : rcfg) : result rcfg :=
  match (if negb (py_truthy schema) then
           match Agent0.assoc "schemas" resource_cfg with
           | Some v => first_item v
           | None => Ok schema
           end
         else Ok schema) with
  | Raise e => Raise e
  | Ok schema =>
      if py_truthy schema then
        match schema with
        | Agent0.PStr sname =>
            match Agent0.assoc sname resource_cfg with
            | None =>
                Raise (RuntimeError ("schema " +:+ sname
                                       +:+ " unknown for resource " +:+ resource))
            | Some section => merge_schema sname section resource_cfg
            end
        | Agent0.PList _ => Raise (TypeError "unhashable type: 'list'")
        | Agent0.PDict _ => Raise (TypeError "unhashable type: 'dict'")
        | Agent0.PNone => Ok resource_cfg
        end
      else Ok resource_cfg
  end.

Definition get_resource_config (rcfgs : list (string * list (string * rcfg)))
           (resource : string) (schema : Agent0.pyval) : result rcfg :=
  match split_dot resource with
  | None => Raise (ValueError "not enough values to unpack (expected 2, got 1)")
  | Some (domain, host) =>
      match dict_lookup domain rcfgs with
      | None =>
          Raise (RuntimeError ("Resource domain '" +:+ domain +:+ "' is unknown."))
      | Some hosts =>
          match dict_lookup host hosts with
          | None =>
              Raise (RuntimeError ("Resource host '" +:+ host +:+ "' unknown."))
          | Some resource_cfg =>
              match apply_schema resource schema resource_cfg with
              | Raise e => Raise e
              | Ok cfg => Ok (cfg_set "label" (Agent0.PStr resource) cfg)
              end
          end
      end
  end.

(** Sample resource configurations. *)
Definition rcfg_localhost : rcfg :=
  [("schemas", Agent0.PList [Agent0.PStr "local"; Agent0.PStr "ssh"]);
   ("cores_per_node", Agent0.PStr "8");
   ("local", Agent0.PDict [("job_manager_endpoint", Agent0.PStr "fork://localhost/")]);
   ("ssh", Agent0.PDict [("job_manager_endpoint", Agent0.PStr "ssh://localhost/")])].

Definition rcfgs0 : list (string * list (string * rcfg)) :=
  [("local", [("localhost", rcfg_localhost)])].

(** Sample collaborators: every set of close options is accepted, ids
    are numbered. *)
Definition accept_all (_ : unit) : option exn := None.
Definition gen0 (n : nat) : string := "rp.session." +:+ pretty n.

(** A registry service that binds to one address, and steps none of
    which raises. *)
Definition addr0 (uid : string) : option string := Some "tcp://10.0.0.1:10002".
Definition no_raise (_ : step) (_ : session) : option exn := None.

End Session.

(* ===================================================================== *)
(** ** raptor_tasks.py                                                    *)
(* ===================================================================== *)

Module Raptor.

(** Task modes ([task_description.py]). *)
Inductive mode : Type :=
| TASK_EXECUTABLE | TASK_FUNCTION | TASK_EVAL | TASK_EXEC | TASK_PROC
| TASK_SHELL | TASK_METHOD | RAPTOR_MASTER | RAPTOR_WORKER | AGENT_SERVICE.

(** The fields of a [TaskDescription] that [submit_workers] touches. *)
Record TaskDescription : Type := mk_td {
  uid : option string;
  executable : option string;
  named_env : option string;
  environment : gmap string string;
  td_mode : mode;
  arguments : list string;
  raptor_file : option string;
  raptor_class : option string
}.

(** Descriptions are objects: the caller and the list share them.  The
    store maps object identities to their current contents. *)
Definition loc : Type := nat.

Definition set_uid (u : string) (td : TaskDescription) : TaskDescription :=
  mk_td (Some u) (executable td) (named_env td) (environment td) (td_mode td)
        (arguments td) (raptor_file td) (raptor_class td).

Definition set_executable (e : string) (td : TaskDescription)
  : TaskDescription :=
  mk_td (uid td) (Some e) (named_env td) (environment td) (td_mode td)
        (arguments td) (raptor_file td) (raptor_class td).

Definition set_named_env (n : string) (td : TaskDescription)
  : TaskDescription :=
  mk_td (uid td) (executable td) (Some n) (environment td) (td_mode td)
        (arguments td) (raptor_file td) (raptor_class td).

Definition set_env_var (k v : string) (td : TaskDescription)
  : TaskDescription :=
  mk_td (uid td) (executable td) (named_env td) (<[k := v]> (environment td))
        (td_mode td) (arguments td) (raptor_file td) (raptor_class td).

Definition set_mode (m : mode) (td : TaskDescription) : TaskDescription :=
  mk_td (uid td) (executable td) (named_env td) (environment td) m
        (arguments td) (raptor_file td) (raptor_class td).

Definition set_arguments (a : list string) (td : TaskDescription)
  : TaskDescription :=
  mk_td (uid td) (executable td) (named_env td) (environment td) (td_mode td)
        a (raptor_file td) (raptor_class td).

(** The body of [for td in descriptions], lines 41-57; [master_uid] is
    [self.uid], that is [self._uid]. *)
Definition prepare_worker (master_uid : string) (td : TaskDescription)
  : TaskDescription :=
  let raptor_file' := or_else (raptor_file td) "" in
  let raptor_class' := or_else (raptor_class td) "DefaultWorker" in
  let td := if negb (truthy_opt (uid td))
            then set_uid (master_uid +:+ ".worker") td else td in
  let td := if negb (truthy_opt (executable td))
            then set_executable "radical-pilot-raptor-worker" td else td in
  let td := if negb (truthy_opt (named_env td))
            then set_named_env "rp" td else td in
  let td := set_env_var "PYTHONUNBUFFERED" "1" td in
  let td := set_mode RAPTOR_WORKER td in
  let td := set_uid "raptor_worker.0000" td in
  set_arguments [raptor_file'; raptor_class'; master_uid] td.

(** The loop of [submit_workers] over the store. *)
Definition prepare_all (master_uid : string) (descriptions : list loc)
           (h : gmap loc TaskDescription) : gmap loc TaskDescription :=
  fold_left (fun h l => alter (prepare_worker master_uid) l h) descriptions h.

(** [submit_workers]: the store after the loop, and the list handed to
    [self._tmgr.submit_workers]. *)
Definition submit_workers (master_uid : string) (descriptions : list loc)
           (h : gmap loc TaskDescription)
  : gmap loc TaskDescription * list loc :=
  (prepare_all master_uid descriptions h, descriptions).

(** What the claim says of a worker description. *)
Definition is_worker_of (master_uid : string) (rf rc : string)
           (td : TaskDescription) : Prop :=
  td_mode td = RAPTOR_WORKER
  /\ environment td !! "PYTHONUNBUFFERED" = Some "1"
  /\ arguments td = [rf; rc; master_uid]
  /\ uid td = Some "raptor_worker.0000".

(** A description the loop has met is a worker description, with the
    arguments taken from its own [raptor_file] and [raptor_class]. *)
Definition prepared (master_uid : string) (td0 td : TaskDescription) : Prop :=
  is_worker_of master_uid (or_else (raptor_file td0) "")
               (or_else (raptor_class td0) "DefaultWorker") td
  /\ raptor_file td = raptor_file td0
  /\ raptor_class td = raptor_class td0.

Definition td0 : TaskDescription :=
  mk_td (Some "my_worker") None None ∅ TASK_EXECUTABLE [] (Some "w.py")
        (Some "MyWorker").

Definition td1 : TaskDescription :=
  mk_td None (Some "/bin/worker") None ∅ TASK_EXECUTABLE [] None None.

End Raptor.

(* ===================================================================== *)
(** ** Sample inputs                                                      *)
(* ===================================================================== *)

Module Samples.
Import Agent0.

Definition agent0 : agent :=
  mk_agent "pilot.0000" "pmgr.0000" None true None.

(** The latest state of the history, as [_unit_state_collapse] would
    pick it for a history in pipeline order. *)
Definition collapse0 (l : list state) : state :=
  List.last l AGENT_STAGING_INPUT_PENDING.

Definition unit0 : unit_doc :=
  mk_unit "unit" "task.000000" "pilot.0000" "agent_pending"
          [AGENT_STAGING_INPUT_PENDING] None None.

(** A unit of another pilot that carries the uid of [unit0]. *)
Definition unit_other : unit_doc :=
  mk_unit "unit" "task.000000" "pilot.0001" "tmgr_pending"
          [TMGR_STAGING_INPUT_PENDING] None None.

Definition agent_env : agent :=
  mk_agent "pilot.0000" "pmgr.0000" None true
           (Some [("RP_APP_IN", "tcp://10.0.0.1:5000");
                  ("RP_APP_OUT", "tcp://10.0.0.1:5001")]).

Definition mailbox0 : list pilot_doc :=
  [mk_pilot_doc "pilot.0000"
     (Some [mk_cmd "cancel_tasks" (PList [PStr "task.000000"])])].

(** A filesystem on which every query answers no and every command
    succeeds, except a move, which fails. *)
Definition fs_answer0 (q : StagingInput.fs_query) (w : unit) : bool := false.

Definition fs_exec0 (c : StagingInput.fs_cmd) (w : unit) : unit * option exn :=
  match c with
  | StagingInput.Move _ _ => (w, Some (OSError 2 "No such file or directory"))
  | _ => (w, None)
  end.

Definition Url_parse0 (s : string) : StagingInput.Url :=
  StagingInput.mk_url "" "" s.

Definition Url_str0 (u : StagingInput.Url) : string :=
  StagingInput.schema u +:+ "://" +:+ StagingInput.host u
  +:+ StagingInput.path u.

Definition complete_url0 (s : string) (c : StagingInput.context)
  : result StagingInput.Url :=
  Ok (StagingInput.mk_url "file" "localhost" s).

Definition repr0 (e : exn) : string :=
  match e with
  | OSError _ m => "OSError('" +:+ m +:+ "')"
  | _ => "Exception()"
  end.

Definition trace0 (e : exn) : list string := ["Traceback"; repr0 e].

Definition mk_staging_task (uid : string)
           (sds : option (list StagingInput.staging_directive))
  : StagingInput.task :=
  StagingInput.mk_task uid sds "/sbox/pilot.0000/task" "/sbox/pilot.0000"
                       "/sbox/session" "/sbox" "/" None None None.

(** The directive of the tarball scenario. *)
Definition sd_tar : StagingInput.staging_directive :=
  StagingInput.mk_sd StagingInput.TARBALL "sd.0000" "" (Some "pilot:///abc").

Definition sd_move : StagingInput.staging_directive :=
  StagingInput.mk_sd StagingInput.MOVE "sd.0001" "/data/in.dat"
                     (Some "/sbox/pilot.0000/task/in.dat").

Definition sd_link : StagingInput.staging_directive :=
  StagingInput.mk_sd StagingInput.LINK "sd.0002" "/data/ref.dat"
                     (Some "/sbox/pilot.0000/task/ref.dat").

Definition sd_transfer : StagingInput.staging_directive :=
  StagingInput.mk_sd StagingInput.TRANSFER "sd.0003" "srm://grid/in.dat"
                     (Some "task:///in.dat").

Definition sd_copy : StagingInput.staging_directive :=
  StagingInput.mk_sd StagingInput.COPY "sd.0004" "srm://grid/in.dat"
                     (Some "task:///in.dat").

Definition task_transfer := mk_staging_task "task.000004" (Some [sd_transfer]).

(** A completion that keeps a URL on the grid storage. *)
Definition complete_url_srm (s : string) (c : StagingInput.context)
  : result StagingInput.Url :=
  Ok (StagingInput.mk_url "srm" "grid" s).

Definition task_tar := mk_staging_task "task.000000" (Some [sd_tar]).
Definition task_move := mk_staging_task "task.000001" (Some [sd_move]).
Definition task_plain := mk_staging_task "task.000003" None.

End Samples.

(* ===================================================================== *)
(** ** Facts about the Python primitives                                  *)
(* ===================================================================== *)

Module PyFacts.

Example strip_ex : strip "  mpiexec -np 2 " = "mpiexec -np 2".
Proof. reflexivity. Qed.

(** The no-break space U+00A0 and the next line U+0085 are stripped like
    the blank. *)
Example strip_nbsp :
  strip (String (ascii_of_nat 133) "/bin/app" +:+ String (ascii_of_nat 160) "")
  = "/bin/app".
Proof. reflexivity. Qed.

Example dirname_ex : dirname "/sandbox/pilot.0000/abc" = "/sandbox/pilot.0000".
Proof. reflexivity. Qed.

Example basename_ex : basename "/sandbox/pilot.0000/abc" = "abc".
Proof. reflexivity. Qed.

Example str_int_ex : str_int 12 = "12" /\ str_int (-3) = "-3".
Proof. split; vm_compute; reflexivity. Qed.

Example lower_ex : contains "_mpt" (lower "MPIEXEC_MPT") = true.
Proof. reflexivity. Qed.

End PyFacts.

(* ===================================================================== *)
(** ** Facts about agent/agent_0.py                                       *)
(* ===================================================================== *)

Module Agent0Facts.
Import Agent0 Samples.

(** *** [finalize] *)

Example final_state_timeout : final_state (Some "timeout") = DONE.
Proof. reflexivity. Qed.

Example final_state_none : final_state None = FAILED.
Proof. reflexivity. Qed.

(** When [./agent.0.log] cannot be read, [finalize] raises on the unbound
    [log] after the final state went to [_update_db], and the tails are
    not written. *)
Example finalize_unbound_log :
  finalize agent0 false
  = ([StageOutput; HbStop; CmgrClose; LrmsStop; UpdateDb FAILED None],
     Raise (UnboundLocalError "log")).
Proof. reflexivity. Qed.

(** C5, as stated, fails: the cause ['sys.exit'] is neither ['timeout']
    nor ['cancel'], and yet the final state is not [FAILED]. *)
Lemma final_state_sys_exit_not_failed :
  ~ (forall c : option string,
        c <> Some "timeout" -> c <> Some "cancel" -> final_state c = FAILED).
Proof.
  intros H.
  specialize (H (Some "sys.exit")).
  discriminate H; discriminate.
Qed.

(** C5, amended: the final pilot state recorded by [finalize] is a total
    function of the terminal cause: ['timeout'] gives [DONE], ['cancel']
    and ['sys.exit'] give [CANCELED], every other cause (also none) gives
    [FAILED]; and that state is what [finalize] hands to [_update_db]. *)
Theorem final_state_by_cause (self : agent) (log_readable : bool) :
  let c := _final_cause self in
  In (UpdateDb (final_state c) c) (fst (finalize self log_readable))
  /\ ((c = Some "timeout" /\ final_state c = DONE)
      \/ ((c = Some "cancel" \/ c = Some "sys.exit") /\ final_state c = CANCELED)
      \/ (c <> Some "timeout" /\ c <> Some "cancel" /\ c <> Some "sys.exit"
          /\ final_state c = FAILED)).
Proof.
  intros c. split.
  - unfold finalize. fold c. cbn [fst]. rewrite !in_app_iff.
    right. right. left. left. reflexivity.
  - unfold final_state.
    destruct (decide (c = Some "timeout")) as [->|Ht]; [left; split; reflexivity|].
    destruct (decide (c = Some "cancel")) as [->|Hc].
    { right; left; split; [left|]; reflexivity. }
    destruct (decide (c = Some "sys.exit")) as [->|Hs].
    { right; left; split; [right|]; reflexivity. }
    right; right. repeat split; assumption.
Qed.

(** *** [_check_commands] *)

Lemma find_and_modify_wipes pid c d c' :
  find_and_modify pid c = (Some d, c') ->
  doc_uid d = pid /\ find_and_modify pid c' = (Some (mk_pilot_doc pid (Some [])), c').
Proof.
  revert d c'. induction c as [|x c IH]; intros d c' H; simpl in H.
  - discriminate.
  - destruct (String.eqb (doc_uid x) pid) eqn:E.
    + injection H as <- <-. apply String.eqb_eq in E. split; [assumption|].
      simpl. rewrite E, String.eqb_refl. reflexivity.
    + destruct (find_and_modify pid c) as [r c''] eqn:F.
      injection H as -> <-.
      destruct (IH _ _ eq_refl) as [Hu Hw]. split; [assumption|].
      simpl. rewrite E, Hw. reflexivity.
Qed.

(** Draining twice finds nothing the second time. *)
Lemma check_commands_drains self c :
  forall c' r, _check_commands self c = (c', r) ->
  _check_commands self c' = (c', (self, [], Ok true)).
Proof.
  intros c' r. unfold _check_commands.
  destruct (find_and_modify (_pid self) c) as [[d|] c1] eqn:F.
  - intros H. injection H as <- _.
    destruct (find_and_modify_wipes _ _ _ _ F) as [_ ->]. reflexivity.
  - intros H. injection H as <- _.
    assert (Hn : forall c c1, find_and_modify (_pid self) c = (None, c1) -> c1 = c).
    { clear. induction c as [|x c IH]; simpl; intros c1 H.
      - injection H as <-. reflexivity.
      - destruct (String.eqb (doc_uid x) (_pid self)); [discriminate|].
        destruct (find_and_modify (_pid self) c) as [r c2] eqn:F.
        injection H as -> <-. f_equal. apply IH. reflexivity. }
    rewrite (Hn _ _ F) at 1. rewrite F. rewrite (Hn _ _ F). reflexivity.
Qed.

(** C8, as stated, fails: a ['cancel_tasks'] command in the mailbox is
    drained and nothing at all is published for it. *)
Lemma cancel_tasks_verb_publishes_nothing :
  _check_commands agent0 mailbox0
  = ([mk_pilot_doc "pilot.0000" (Some [])], (agent0, [], Ok true)).
Proof. reflexivity. Qed.

(** C8, amended: the verb of the task cancellation is ['cancel_units'].
    For the commands drained from the mailbox, in their order:
    ['cancel_pilot'] publishes exactly ['terminate'] on the control
    pub/sub, sets the terminal cause to ['cancel'], stops the agent and
    ends the drain with [False] (later commands are dropped);
    ['cancel_units'] publishes a ['cancel_units'] message with the
    command's argument; a ['heartbeat'] whose [arg['pmgr']] is the owning
    pilot manager only beats that manager's heartbeat; a ['heartbeat'] of
    another manager and every other verb change nothing. *)
Theorem check_commands_dispatch (self : agent) (a : pyval)
        (rest : list cmd_spec) :
  run_commands self (mk_cmd "cancel_pilot" a :: rest)
  = (set_final_cause "cancel" self,
     [Publish CONTROL_PUBSUB "terminate" PNone; Stop], Ok false)
  /\ run_commands self (mk_cmd "cancel_units" a :: rest)
     = (let '(self', evs, r) := run_commands self rest in
        (self', Publish CONTROL_PUBSUB "cancel_units" a :: evs, r))
  /\ (getitem a "pmgr" = Ok (PStr (_pmgr self)) ->
      run_commands self (mk_cmd "heartbeat" a :: rest)
      = (let '(self', evs, r) := run_commands self rest in
         (self', HbBeat (_pmgr self) :: evs, r)))
  /\ (forall v, getitem a "pmgr" = Ok v -> eq_str v (_pmgr self) = false ->
      run_commands self (mk_cmd "heartbeat" a :: rest)
      = run_commands self rest)
  /\ (forall verb, verb <> "heartbeat" -> verb <> "cancel_pilot" ->
      verb <> "cancel_units" ->
      run_commands self (mk_cmd verb a :: rest) = run_commands self rest).
Proof.
  split; [reflexivity|]. split.
  { simpl. destruct (run_commands self rest) as [[s e] r]. reflexivity. }
  split.
  { intros Hg. simpl. unfold handle_command. simpl. rewrite Hg. simpl.
    rewrite String.eqb_refl.
    destruct (run_commands self rest) as [[s e] r]. reflexivity. }
  split.
  { intros v Hg Hne. simpl. unfold handle_command. simpl. rewrite Hg, Hne.
    unfold dispatch_other. simpl.
    destruct (run_commands self rest) as [[s e] r]. reflexivity. }
  intros verb H1 H2 H3. simpl. unfold handle_command, dispatch_other. simpl.
  apply String.eqb_neq in H1, H2, H3. rewrite H1, H2, H3.
  destruct (run_commands self rest) as [[s e] r]. reflexivity.
Qed.

(** The dispatch on a concrete drain: a heartbeat of the owner, a task
    cancellation, an unknown verb, the pilot cancellation, and a command
    that is never reached. *)
Lemma check_commands_dispatch_witness :
  run_commands agent0
    [mk_cmd "heartbeat" (PDict [("pmgr", PStr "pmgr.0000")]);
     mk_cmd "cancel_units" (PList [PStr "task.000000"]);
     mk_cmd "cancel_tasks" (PList [PStr "task.000001"]);
     mk_cmd "cancel_pilot" PNone;
     mk_cmd "cancel_units" (PList [PStr "task.000002"])]
  = (set_final_cause "cancel" agent0,
     [HbBeat "pmgr.0000";
      Publish CONTROL_PUBSUB "cancel_units" (PList [PStr "task.000000"]);
      Publish CONTROL_PUBSUB "terminate" PNone; Stop],
     Ok false).
Proof.
  pose proof (check_commands_dispatch agent0
                (PDict [("pmgr", PStr "pmgr.0000")])
                [mk_cmd "cancel_units" (PList [PStr "task.000000"]);
                 mk_cmd "cancel_tasks" (PList [PStr "task.000001"]);
                 mk_cmd "cancel_pilot" PNone;
                 mk_cmd "cancel_units" (PList [PStr "task.000002"])])
    as (_ & _ & Hb & _).
  rewrite (Hb eq_refl). reflexivity.
Defined.

(** *** [_check_units_cb] *)

Section PullCycle.

Variable collapse : list state -> state.




Lemma update_nil db : update [] db = db.
Proof.
  unfold update. induction db as [|u db IH]; [reflexivity|].
  simpl. rewrite IH. unfold in_uids. simpl. rewrite andb_false_r.
  reflexivity.
Qed.



End PullCycle.


End Agent0Facts.

(* ===================================================================== *)
(** ** Facts about agent/staging_input/default.py                         *)
(* ===================================================================== *)

Module StagingInputFacts.
Import StagingInput Samples.

Lemma advanced_app evs1 evs2 :
  advanced (evs1 ++ evs2) = advanced evs1 ++ advanced evs2.
Proof. unfold advanced. apply flat_map_app. Qed.

Lemma fs_events_app evs1 evs2 :
  fs_events (evs1 ++ evs2) = fs_events evs1 ++ fs_events evs2.
Proof. unfold fs_events. apply List.filter_app. Qed.


Lemma advanced_no_advance evs :
  List.filter is_advance evs = [] -> advanced evs = [].
Proof.
  induction evs as [|e evs IH]; [reflexivity|].
  simpl. destruct e; simpl; try exact IH. discriminate.
Qed.

Section Facts.

Context {W : Type}.
Variable fs_answer : fs_query -> W -> bool.
Variable fs_exec : fs_cmd -> W -> W * option exn.
Variable Url_parse : string -> Url.
Variable Url_str : Url -> string.
Variable complete_url : string -> context -> result Url.
Variable repr : exn -> string.
Variable get_exception_trace : exn -> list string.

Local Abbreviation M := (@M W).
Local Abbreviation handle_sd :=
  (handle_sd fs_answer fs_exec Url_str complete_url).
Local Abbreviation _handle_task :=
  (_handle_task fs_answer fs_exec Url_parse Url_str complete_url).
Local Abbreviation stage_one :=
  (stage_one fs_answer fs_exec Url_parse Url_str complete_url repr
             get_exception_trace).
Local Abbreviation _work :=
  (_work fs_answer fs_exec Url_parse Url_str complete_url repr
         get_exception_trace).
Local Abbreviation outcome :=
  (outcome fs_answer fs_exec Url_parse Url_str complete_url repr
           get_exception_trace).
Local Abbreviation mark_failed := (mark_failed repr get_exception_trace).

(** **** Events a computation never emits *)

Section Never.

(** [P] holds of no profiler event, of no query, and of no command
    other than the tar commands. *)
Variable P : event -> bool.
Hypothesis P_prof : forall n u m, P (Prof n u m) = false.
Hypothesis P_query : forall q b, P (FsQuery q b) = false.
Hypothesis P_cmd : forall c, tar_cmd c = false -> P (FsCmd c) = false.

Lemma never_ret {A} (a : A) : never (W:=W) P (ret a).
Proof. intros w. reflexivity. Qed.

Lemma never_raise {A} e : never (W:=W) P (raise (A:=A) e).
Proof. intros w. reflexivity. Qed.

Lemma never_lift {A} (r : result A) : never (W:=W) P (lift r).
Proof. intros w. reflexivity. Qed.

Lemma never_prof n u m : never (W:=W) P (prof n u m).
Proof. intros w. simpl. rewrite P_prof. reflexivity. Qed.

Lemma never_query q : never P (query fs_answer q).
Proof. intros w. simpl. rewrite P_query. reflexivity. Qed.

Lemma never_command c : tar_cmd c = false -> never P (command fs_exec c).
Proof.
  intros Hc w. unfold events_of, command.
  destruct (fs_exec c w) as [w' [e|]]; simpl; rewrite (P_cmd c Hc);
    reflexivity.
Qed.

Lemma never_assert b msg : never (W:=W) P (assert b msg).
Proof. destruct b; [apply never_ret | apply never_raise]. Qed.

Lemma never_bind {A B} (m : M A) (k : A -> M B) :
  never P m -> (forall a, never P (k a)) -> never P (bind m k).
Proof.
  intros Hm Hk w. specialize (Hm w). unfold events_of, bind in *.
  destruct (m w) as [[[a|e] w'] evs]; simpl in *; [|assumption].
  specialize (Hk a w'). unfold events_of in Hk.
  destruct (k a w') as [[r w''] evs']. simpl in *.
  rewrite List.filter_app, Hm, Hk. reflexivity.
Qed.

Lemma never_catch {A} (m : M A) (h : exn -> M A) :
  never P m -> (forall e, never P (h e)) -> never P (catch m h).
Proof.
  intros Hm Hh w. specialize (Hm w). unfold events_of, catch in *.
  destruct (m w) as [[[a|e] w'] evs]; simpl in *; [assumption|].
  specialize (Hh e w'). unfold events_of in Hh.
  destruct (h e w') as [[r w''] evs']. simpl in *.
  rewrite List.filter_app, Hm, Hh. reflexivity.
Qed.

Lemma never_for_each {A} (f : A -> M unit) l :
  (forall x, never P (f x)) -> never P (for_each f l).
Proof.
  intros Hf. induction l as [|x l IH]; simpl.
  - apply never_ret.
  - apply never_bind; [apply Hf | intros _; exact IH].
Qed.

Ltac never_step :=
  first [ apply never_bind; [|intros ?]
        | apply never_catch; [|intros ?]
        | apply never_ret | apply never_raise | apply never_lift
        | apply never_prof | apply never_query | apply never_assert
        | apply never_command; reflexivity
        | match goal with
          | |- never _ (if ?b then _ else _) => destruct b
          | |- never _ (match ?x with _ => _ end) => destruct x
          end ].

Lemma never_default_target src tgt :
  never P (default_target fs_answer src tgt).
Proof. unfold default_target. repeat never_step. Qed.

(** The three local actions issue no tar command. *)
Lemma never_enact_local u did a src tgt :
  local_action a = true ->
  never P (enact fs_answer fs_exec Url_str u did a src tgt).
Proof.
  unfold enact. destruct a; try discriminate; intros _; repeat never_step.
Qed.

(** Neither does the handling of any directive: whatever is not a
    local action is skipped before anything is enacted. *)
Lemma never_handle_sd u sb c1 c2 sd : never P (handle_sd u sb c1 c2 sd).
Proof.
  unfold StagingInput.handle_sd.
  destruct (local_action (sd_action sd)) eqn:Ea; simpl.
  - repeat first [ apply never_default_target
                 | apply never_enact_local; exact Ea
                 | never_step ].
  - repeat never_step.
Qed.

End Never.

(** **** [_handle_task] *)

Lemma handle_sd_quiet u sb c1 c2 sd w :
  advanced (events_of (handle_sd u sb c1 c2 sd) w) = [].
Proof.
  apply advanced_no_advance.
  apply (never_handle_sd is_advance); reflexivity.
Qed.

(** The task is advanced by [_handle_task] when, and only when, all its
    directives went through. *)
Lemma handle_task_advanced t acts w :
  advanced (events_of (_handle_task t acts) w)
  = match result_of (_handle_task t acts) w with
    | Ok _ => [(t, AGENT_SCHEDULING_PENDING)]
    | Raise _ => []
    end.
Proof.
  unfold StagingInput._handle_task.
  match goal with |- context [bind ?l _] => set (loop := l) end.
  assert (Hq : advanced (events_of loop w) = []).
  { apply advanced_no_advance. subst loop.
    apply (never_for_each is_advance). intros sd.
    apply (never_handle_sd is_advance); reflexivity. }
  unfold events_of, result_of, bind in *.
  destruct (loop w) as [[[[]|e] w'] evs]; simpl in *.
  - rewrite advanced_app, Hq. reflexivity.
  - assumption.
Qed.

Lemma handle_task_no_tar t acts w :
  List.filter is_tar_event (events_of (_handle_task t acts) w) = [].
Proof.
  revert w. unfold StagingInput._handle_task.
  apply (never_bind is_tar_event).
  - apply (never_for_each is_tar_event). intros sd.
    apply (never_handle_sd is_tar_event); try reflexivity.
    intros c Hc. exact Hc.
  - intros _ w. reflexivity.
Qed.

(** **** The loop over the tasks that need staging *)

Lemma stage_one_spec t acts w :
  result_of (stage_one (t, acts)) w = Ok tt
  /\ world_after (stage_one (t, acts)) w
     = world_after (_handle_task t acts) w
  /\ advanced (events_of (stage_one (t, acts)) w) = [outcome t acts w].
Proof.
  pose proof (handle_task_advanced t acts w) as H.
  unfold StagingInput.stage_one, StagingInput.outcome, catch, result_of,
    world_after, events_of in *. simpl.
  destruct (_handle_task t acts w) as [[[[]|e] w'] evs]; simpl in *.
  - auto.
  - rewrite advanced_app, H. auto.
Qed.

Lemma stage_loop_cons x l w :
  result_of (for_each stage_one (x :: l)) w
  = result_of (for_each stage_one l) (world_after (stage_one x) w)
  /\ world_after (for_each stage_one (x :: l)) w
     = world_after (for_each stage_one l) (world_after (stage_one x) w)
  /\ events_of (for_each stage_one (x :: l)) w
     = events_of (stage_one x) w
       ++ events_of (for_each stage_one l) (world_after (stage_one x) w).
Proof.
  destruct x as [t acts].
  destruct (stage_one_spec t acts w) as (Hr & _ & _).
  simpl for_each. unfold result_of, world_after, events_of, bind in *.
  destruct (stage_one (t, acts) w) as [[r w'] evs]. simpl in *. subst r.
  destruct (for_each stage_one l w') as [[r w''] evs']. auto.
Qed.

Lemma stage_loop_ok l w : result_of (for_each stage_one l) w = Ok tt.
Proof.
  revert w. induction l as [|x l IH]; intros w; [reflexivity|].
  destruct (stage_loop_cons x l w) as (-> & _ & _). apply IH.
Qed.



Lemma stage_loop_no_tar l w :
  List.filter is_tar_event (events_of (for_each stage_one l) w) = [].
Proof.
  revert w. apply (never_for_each is_tar_event). intros [t acts] w.
  pose proof (handle_task_no_tar t acts w) as H.
  unfold StagingInput.stage_one, catch, events_of in *. simpl.
  destruct (_handle_task t acts w) as [[[[]|e] w'] evs]; simpl in *.
  - assumption.
  - rewrite List.filter_app, H. reflexivity.
Qed.

(** **** [_work] *)

Lemma split_tasks_filter tasks :
  split_tasks tasks
  = (List.filter (fun t => negb (needs_staging t)) tasks,
     List.map (fun t => (t, actionables_of t))
              (List.filter needs_staging tasks)).
Proof.
  induction tasks as [|t tasks IH]; [reflexivity|].
  simpl. rewrite IH. unfold needs_staging.
  destruct (actionables_of t) eqn:Ea; simpl; rewrite ?Ea; reflexivity.
Qed.


Lemma advanced_bulk ns :
  advanced (bulk_events ns)
  = List.map (fun t => (t, AGENT_SCHEDULING_PENDING)) ns.
Proof. destruct ns; simpl; rewrite ?app_nil_r; reflexivity. Qed.

Lemma work_unfold tasks w :
  result_of (_work tasks) w = Ok tt
  /\ world_after (_work tasks) w
     = world_after (for_each stage_one (snd (split_tasks tasks))) w
  /\ events_of (_work tasks) w
     = bulk_events (fst (split_tasks tasks))
       ++ events_of (for_each stage_one (snd (split_tasks tasks))) w.
Proof.
  pose proof (stage_loop_ok (snd (split_tasks tasks)) w) as Hok.
  unfold StagingInput._work.
  destruct (split_tasks tasks) as [ns st]. simpl in *.
  unfold result_of, world_after, events_of, bind in *.
  destruct ns as [|t0 ns]; simpl;
    destruct (for_each stage_one st w) as [[r w'] evs]; simpl in *; auto.
Qed.




Lemma filter_idem {A} (f : A -> bool) l :
  List.filter f (List.filter f l) = List.filter f l.
Proof.
  induction l as [|x l IH]; [reflexivity|].
  simpl. destruct (f x) eqn:E; simpl; rewrite ?E, IH; reflexivity.
Qed.

Lemma filter_disjoint {A} (f g : A -> bool) l :
  (forall x, f x = true -> g x = false) ->
  List.filter g (List.filter f l) = [].
Proof.
  intros H. induction l as [|x l IH]; [reflexivity|].
  simpl. destruct (f x) eqn:E; simpl; rewrite ?(H x E); exact IH.
Qed.

(** A task has actionable directives exactly when one of its input staging
    directives has an action among [LINK], [COPY], [MOVE] and [TARBALL]. *)
Lemma needs_staging_by_action (t : task) :
  existsb (fun sd => match sd_action sd with
                     | LINK | COPY | MOVE | TARBALL => true
                     | TRANSFER => false
                     end) (default [] (input_staging t))
  = needs_staging t.
Proof.
  unfold needs_staging, actionables_of.
  induction (default [] (input_staging t)) as [|sd l IH]; [reflexivity|].
  simpl. unfold is_actionable at 1.
  destruct (sd_action sd); simpl; try reflexivity. exact IH.
Qed.

(** C1: the code does not do what the claim says.  Handling a [TARBALL]
    directive only profiles its start and its skip: no archive is
    opened or extracted, the filesystem is left as it was, and the task
    goes on to scheduling; and whatever the batch, [_work] issues no tar
    command at all. *)
Theorem tarball_directive_is_skipped
        (t : task) (did src : string) (tgt : option string) (w : W) :
  _handle_task t [mk_sd TARBALL did src tgt] w
  = (Ok tt, w,
     [Prof "staging_in_start" (uid t) did;
      Prof "staging_in_skip" (uid t) did;
      Advance [t] AGENT_SCHEDULING_PENDING true true])
  /\ forall tasks,
      List.filter is_tar_event (events_of (_work tasks) w) = [].
Proof.
  split; [reflexivity|].
  intros tasks. destruct (work_unfold tasks w) as (_ & _ & ->).
  rewrite List.filter_app, stage_loop_no_tar.
  destruct (fst (split_tasks tasks)); reflexivity.
Qed.


(** C4: the tasks of a batch that have no [LINK], [COPY], [MOVE] or
    [TARBALL] directive are advanced to [AGENT_SCHEDULING_PENDING] by
    one bulk call, ahead of everything else; what [_work] does beyond
    that bulk, on the filesystem and to the other tasks, is what it does
    on the batch without them; and on a batch of such tasks alone the
    bulk is all there is: no filesystem call, the filesystem
    unchanged. *)
Theorem no_staging_tasks_bulk (tasks : list task) (w : W) :
  let in_set (a : action) :=
    match a with
    | LINK | COPY | MOVE | TARBALL => true
    | TRANSFER => false
    end in
  let has_directive (t : task) :=
    existsb (fun sd => in_set (sd_action sd)) (default [] (input_staging t)) in
  let ns := List.filter (fun t => negb (has_directive t)) tasks in
  let st := List.filter has_directive tasks in
  let bulk :=
    match ns with
    | [] => []
    | _ :: _ => [Advance ns AGENT_SCHEDULING_PENDING true true]
    end in
  events_of (_work tasks) w = bulk ++ events_of (_work st) w
  /\ world_after (_work tasks) w = world_after (_work st) w
  /\ fs_events (events_of (_work tasks) w)
     = fs_events (events_of (_work st) w)
  /\ advanced bulk
     = List.map (fun t => (t, AGENT_SCHEDULING_PENDING)) ns
  /\ (length bulk <= 1)%nat
  /\ _work ns w = (Ok tt, w, bulk)
  /\ fs_events (events_of (_work ns) w) = [].
Proof.
  intros in_set has_directive ns st bulk.
  assert (Hhas : forall t, has_directive t = needs_staging t).
  { intros t. subst has_directive in_set. apply needs_staging_by_action. }
  assert (Ens : ns = List.filter (fun t => negb (needs_staging t)) tasks).
  { subst ns. apply List.filter_ext. intros t. rewrite Hhas. reflexivity. }
  assert (Est : st = List.filter needs_staging tasks).
  { subst st. apply List.filter_ext. exact Hhas. }
  change bulk with (bulk_events ns).
  clearbody ns st. subst ns st. clear bulk Hhas.
  set (ns := List.filter (fun t => negb (needs_staging t)) tasks).
  set (st := List.filter needs_staging tasks).
  assert (Hst : split_tasks st
                = ([], List.map (fun t => (t, actionables_of t)) st)).
  { rewrite split_tasks_filter. subst st. rewrite filter_idem.
    rewrite filter_disjoint; [reflexivity|].
    intros x ->. reflexivity. }
  assert (Hns : split_tasks ns = (ns, [])).
  { rewrite split_tasks_filter. subst ns. rewrite filter_idem.
    rewrite filter_disjoint; [reflexivity|].
    intros x Hx. destruct (needs_staging x); [discriminate|reflexivity]. }
  assert (Hev : events_of (_work tasks) w
                = bulk_events ns ++ events_of (_work st) w).
  { destruct (work_unfold tasks w) as (_ & _ & ->).
    destruct (work_unfold st w) as (_ & _ & ->).
    rewrite Hst, split_tasks_filter. reflexivity. }
  assert (Hbulk : fs_events (bulk_events ns) = []).
  { destruct ns; reflexivity. }
  assert (Hwork : _work ns w = (Ok tt, w, bulk_events ns)).
  { unfold StagingInput._work. rewrite Hns.
    destruct ns; reflexivity. }
  split; [exact Hev|]. split.
  { destruct (work_unfold tasks w) as (_ & -> & _).
    destruct (work_unfold st w) as (_ & -> & _).
    rewrite Hst, split_tasks_filter. reflexivity. }
  split; [rewrite Hev, fs_events_app, Hbulk; reflexivity|].
  split; [apply advanced_bulk|].
  split; [destruct ns; simpl; lia|].
  split; [exact Hwork|].
  unfold events_of. rewrite Hwork. exact Hbulk.
Qed.

End Facts.

(** The tarball scenario of the specification on the sample filesystem:
    the archive is not touched. *)
Example tarball_scenario :
  _work fs_answer0 fs_exec0 Url_parse0 Url_str0 complete_url0 repr0 trace0
        [task_tar] tt
  = (Ok tt, tt,
     [Prof "staging_in_start" "task.000000" "sd.0000";
      Prof "staging_in_skip" "task.000000" "sd.0000";
      Advance [task_tar] AGENT_SCHEDULING_PENDING true true]).
Proof. reflexivity. Qed.


End StagingInputFacts.

(* ===================================================================== *)
(** ** Facts about agent/launch_method/mpiexec.py                         *)
(* ===================================================================== *)

Module MPIExecFacts.
Import MPIExec.

(** *** Strings *)

Lemma append_cons (x : ascii) (a b : string) :
  String x a +:+ b = String x (a +:+ b).
Proof. reflexivity. Qed.

Lemma append_nil_l (b : string) : "" +:+ b = b.
Proof. reflexivity. Qed.

Lemma append_assoc (a b c : string) : (a +:+ b) +:+ c = a +:+ (b +:+ c).
Proof.
  induction a as [|x a IH]; [reflexivity|].
  rewrite !append_cons, IH. reflexivity.
Qed.

Lemma append_nil_r (a : string) : a +:+ "" = a.
Proof.
  induction a as [|x a IH]; [reflexivity|].
  rewrite append_cons, IH. reflexivity.
Qed.

Lemma lstrip_app a m :
  starts_solid m = true -> lstrip (a +:+ m) = lstrip a +:+ m.
Proof.
  intros Hm. induction a as [|x a IH].
  - rewrite !append_nil_l. destruct m as [|c m]; [discriminate|].
    simpl in *. destruct (is_space c); [discriminate|reflexivity].
  - rewrite append_cons. simpl.
    destruct (is_space x); [exact IH|reflexivity].
Qed.

Lemma rstrip_app m b :
  ends_solid m = true -> rstrip (m +:+ b) = m +:+ rstrip b.
Proof.
  induction m as [|c m IH]; [discriminate|]. intros Hm.
  rewrite !append_cons.
  destruct m as [|c' m].
  - rewrite !append_nil_l. simpl in *. destruct (rstrip b); [|reflexivity].
    destruct (is_space c); [discriminate|reflexivity].
  - change (ends_solid (String c (String c' m))) with
      (ends_solid (String c' m)) in Hm.
    specialize (IH Hm).
    change (rstrip (String c (String c' m +:+ b))) with
      (match rstrip (String c' m +:+ b) with
       | EmptyString => if is_space c then EmptyString else String c EmptyString
       | r => String c r
       end).
    rewrite IH, append_cons. reflexivity.
Qed.

Lemma ends_solid_app a m : ends_solid m = true -> ends_solid (a +:+ m) = true.
Proof.
  intros Hm. induction a as [|x a IH]; [exact Hm|].
  rewrite append_cons. simpl. destruct (a +:+ m) eqn:E; [|exact IH].
  destruct a; [|discriminate].
  rewrite append_nil_l in E. subst m. discriminate.
Qed.

(** [strip] leaves a solid middle part alone. *)
Lemma strip_middle a m b :
  starts_solid m = true -> ends_solid m = true ->
  strip (a +:+ m +:+ b) = lstrip a +:+ m +:+ rstrip b.
Proof.
  intros Hs He. unfold strip.
  rewrite lstrip_app.
  - rewrite <- append_assoc, rstrip_app, append_assoc; [reflexivity|].
    apply ends_solid_app, He.
  - destruct m; [discriminate|exact Hs].
Qed.

Lemma occurs_in_middle a m b : occurs_in m (a +:+ m +:+ b).
Proof. exists a, b. reflexivity. Qed.

Lemma occurs_in_prefix a m b c : occurs_in m (a +:+ (m +:+ b) +:+ c).
Proof. exists a, (b +:+ c). rewrite append_assoc. reflexivity. Qed.

Section Facts.

Variable which : list string -> option string.
Variable get_hostname : string.
Variable _get_mpi_info : string -> result (option string * option string).
Variable sh_callout : string -> string.
Variable set_iter : list string -> list string.

Local Abbreviation has_rf := (has_rf sh_callout).
Local Abbreviation placement_options :=
  (placement_options sh_callout set_iter).
Local Abbreviation get_launch_cmds := (get_launch_cmds sh_callout set_iter).
Local Abbreviation _init_from_scratch :=
  (_init_from_scratch which get_hostname _get_mpi_info).

(** *** The rank file *)

Lemma rank_file_loop_spec rs n acc :
  forallb (fun r => match core_map r with [] => false | _ => true end) rs
  = true ->
  rank_file_loop n rs acc
  = Ok (acc +:+ concat_str
                  (imap (fun i r => rank_line (n + i) (node_name r)
                                              (first_cores r)) rs)).
Proof.
  revert n acc. induction rs as [|r rs IH]; intros n acc Hall.
  - simpl. rewrite append_nil_r. reflexivity.
  - simpl in Hall. apply andb_prop in Hall as [Hr Hall].
    simpl rank_file_loop. rewrite imap_cons. simpl concat_str.
    destruct (core_map r) as [|cores cm] eqn:Ec; [discriminate|].
    rewrite (IH (S n) _ Hall), append_assoc.
    replace (first_cores r) with cores
      by (unfold first_cores; rewrite Ec; reflexivity).
    replace (n + 0)%nat with n by lia.
    do 2 f_equal. f_equal. f_equal. apply imap_ext. intros i x _. simpl.
    f_equal. lia.
Qed.

(** *** The command line *)

Lemma launch_cmd_shape self po exec_path :
  starts_solid po = true -> ends_solid po = true ->
  strip (_command self +:+ " " +:+ with_omplace self po +:+ " " +:+ exec_path)
  = lstrip (_command self +:+ " ") +:+ po +:+ cmd_tail self exec_path.
Proof.
  intros Hs He. unfold with_omplace, cmd_tail.
  destruct (truthy (_omplace self)).
  - rewrite <- (strip_middle _ po _ Hs He).
    rewrite !append_assoc. reflexivity.
  - rewrite <- (strip_middle _ po _ Hs He).
    rewrite !append_assoc. reflexivity.
Qed.

Lemma placement_options_rf self rs uid sbox :
  has_rf self = true ->
  forallb (fun r => match core_map r with [] => false | _ => true end) rs
  = true ->
  placement_options self rs uid sbox
  = Ok (("-np " +:+ str_int (Z.of_nat (length rs)) +:+ " ")
          +:+ "-H " +:+ join "," (set_iter (List.map node_name rs)) +:+ " "
          +:+ "-rf " +:+ (sbox +:+ "/" +:+ uid +:+ ".rf"),
        [WriteFile (sbox +:+ "/" +:+ uid +:+ ".rf")
           (concat_str (imap (fun i r => rank_line i (node_name r)
                                                   (first_cores r)) rs))]).
Proof.
  intros Hrf Hall. unfold MPIExec.placement_options, _get_rank_file.
  rewrite Hrf, (rank_file_loop_spec _ 0 "" Hall). reflexivity.
Qed.

Lemma placement_options_hf self r0 rs uid sbox :
  has_rf self = false ->
  core_map r0 <> [] ->
  placement_options self (r0 :: rs) uid sbox
  = Ok (("-np " +:+ str_int (Z.of_nat (length (r0 :: rs))) +:+ " ")
          +:+ "--hostfile " +:+ (sbox +:+ "/" +:+ uid +:+ ".hf") +:+ " "
          +:+ "--depth=" +:+ str_int (Z.of_nat (length (first_cores r0)))
          +:+ " --cpu-bind depth",
        [WriteFile (sbox +:+ "/" +:+ uid +:+ ".hf")
           (join nl (List.map fst (host_slots (r0 :: rs))) +:+ nl)]).
Proof.
  intros Hrf Hr0. unfold MPIExec.placement_options, first_cores.
  rewrite Hrf. destruct (core_map r0); [congruence|reflexivity].
Qed.

(** C6, amended: for a placed task the launch command carries [-np] with
    the number of ranks and one way of placing them, chosen by what the
    probe [<command> --help |& grep -- "-rf"] prints.  When it prints
    something: the hosts and a rank file, the only file written, which
    lists for the rank at each position [i] the line
    [rank i=<node> slots=<cores>] with the rank's node name and the core
    indices of its first core map entry.  When it prints nothing: a host
    file, the only file written, and [--depth] with the number of core
    indices in the first core map entry of the first rank. *)
Theorem launch_cmd_placement
        (self : mpiexec) (t : task) (exec_path : string) (rs : list rank) :
  ranks t = Some rs ->
  placed t = true ->
  let probe :=
    sh_callout (_command self +:+ " --help |& grep -- "
                  +:+ dq +:+ "-rf" +:+ dq) in
  let supports_rf :=
    match probe with EmptyString => false | String _ _ => true end in
  let np := "-np " +:+ str_int (Z.of_nat (length rs)) in
  let rf_name := task_sandbox_path t +:+ "/" +:+ uid t +:+ ".rf" in
  let hf_name := task_sandbox_path t +:+ "/" +:+ uid t +:+ ".hf" in
  let depth := match rs with
               | [] => 0%nat
               | r0 :: _ => length (first_cores r0)
               end in
  let rank_file :=
    concat_str (imap (fun i r => rank_line i (node_name r) (first_cores r))
                     rs) in
  let placement :=
    if supports_rf
    then np +:+ " -H " +:+ join "," (set_iter (List.map node_name rs))
            +:+ " -rf " +:+ rf_name
    else np +:+ " --hostfile " +:+ hf_name
            +:+ " --depth=" +:+ str_int (Z.of_nat depth)
            +:+ " --cpu-bind depth" in
  let files :=
    if supports_rf
    then [WriteFile rf_name rank_file]
    else [WriteFile hf_name
            (join nl (List.map fst (host_slots rs)) +:+ nl)] in
  let cmd := lstrip (_command self +:+ " ") +:+ placement
             +:+ cmd_tail self exec_path in
  get_launch_cmds self t exec_path = Ok (cmd, files)
  /\ occurs_in np cmd
  /\ occurs_in placement cmd.
Proof.
  intros Hranks Hplaced probe supports_rf.
  change supports_rf with (has_rf self). clear supports_rf probe.
  intros np rf_name hf_name depth rank_file placement files cmd.
  unfold placed in Hplaced. rewrite Hranks in Hplaced.
  destruct rs as [|r0 rs']; [discriminate|].
  assert (Hget : get_launch_cmds self t exec_path = Ok (cmd, files)).
  { unfold MPIExec.get_launch_cmds. rewrite Hranks.
    subst cmd files placement.
    destruct (has_rf self) eqn:Hrf.
    - rewrite (placement_options_rf _ _ _ _ Hrf Hplaced).
      unfold bind, fst, snd.
      rewrite launch_cmd_shape.
      + subst np rf_name rank_file. rewrite !append_assoc. reflexivity.
      + reflexivity.
      + rewrite <- !append_assoc. apply ends_solid_app. reflexivity.
    - assert (Hr0 : core_map r0 <> []).
      { simpl in Hplaced. apply andb_prop in Hplaced as [Hr0 _].
        destruct (core_map r0); [discriminate|discriminate]. }
      rewrite (placement_options_hf _ _ _ _ _ Hrf Hr0).
      unfold bind, fst, snd.
      rewrite launch_cmd_shape.
      + subst np hf_name depth. rewrite !append_assoc. reflexivity.
      + reflexivity.
      + rewrite <- !append_assoc. apply ends_solid_app. reflexivity. }
  split; [exact Hget|]. split.
  - subst cmd placement. destruct (has_rf self); apply occurs_in_prefix.
  - apply occurs_in_middle.
Qed.

(** *** [_init_from_scratch] and [_init_from_info] *)

Lemma init_from_scratch_command self env0 env_sh0 info :
  _init_from_scratch self env0 env_sh0 = Ok info ->
  truthy (command info) = true
  /\ Some (command info) = which mpiexec_names
  /\ env info = env0 /\ env_sh info = env_sh0
  /\ (omplace info = "" \/ omplace info = "omplace").
Proof.
  unfold MPIExec._init_from_scratch.
  destruct (which mpiexec_names) as [c|] eqn:Hw; simpl; [|discriminate].
  destruct (truthy c) eqn:Hc; simpl; [|discriminate].
  destruct (if contains "_ccmrun" (lower (name self))
            then which_asserted which "ccmrun" else Ok "") as [cc|];
    simpl; [|discriminate].
  destruct (if contains "_dplace" (lower (name self))
            then which_asserted which "dplace" else Ok "") as [dp|];
    simpl; [|discriminate].
  destruct (_get_mpi_info c) as [[v f]|]; simpl; [|discriminate].
  intros H. injection H as <-. simpl.
  repeat split; try assumption.
  destruct (contains "cheyenne" get_hostname); [right|left]; reflexivity.
Qed.

(** C7: the [lm_info] that [_init_from_scratch] returns is accepted by
    [_init_from_info], which restores every field stored in it
    unchanged; and two instances set up from that [lm_info], the one
    that probed and any other, have the same launcher environment, the
    same launch commands and the same rank command. *)
Theorem init_from_info_restores
        (self : mpiexec) (env0 : list (string * string)) (env_sh0 : string)
        (info : lm_info) (obj : mpiexec) :
  _init_from_scratch self env0 env_sh0 = Ok info ->
  exists obj',
    _init_from_info info obj = Ok obj'
    /\ (_env obj' = env info /\ _env_sh obj' = env_sh info
        /\ _command obj' = command info /\ _mpt obj' = mpt info
        /\ _rsh obj' = rsh info /\ _ccmrun obj' = ccmrun info
        /\ _dplace obj' = dplace info /\ _omplace obj' = omplace info
        /\ _mpi_version obj' = mpi_version info
        /\ _mpi_flavor obj' = mpi_flavor info)
    /\ (_env obj' = env0 /\ _env_sh obj' = env_sh0
        /\ Some (_command obj') = which mpiexec_names)
    /\ forall self', _init_from_info info self = Ok self' ->
         get_launcher_env obj' = get_launcher_env self'
         /\ get_rank_cmd obj' = get_rank_cmd self'
         /\ forall t exec_path,
             get_launch_cmds obj' t exec_path
             = get_launch_cmds self' t exec_path.
Proof.
  intros Hscratch.
  destruct (init_from_scratch_command _ _ _ _ Hscratch)
    as (Hc & Hw & He & Hsh & Hom).
  unfold _init_from_info. rewrite Hc. simpl.
  eexists. split; [reflexivity|]. simpl.
  assert (Ho : (if negb (truthy (omplace info)) then "" else "omplace")
               = omplace info).
  { destruct Hom as [-> | ->]; reflexivity. }
  split; [rewrite Ho; repeat split; reflexivity|].
  split; [repeat split; assumption|].
  intros self' H. injection H as <-.
  repeat split.
Qed.

End Facts.

(** C6, as stated, fails: the only rank of the task has the core indices
    0, 1, 2 and 3, in two core map entries, and the rank file written for
    it lists the first entry alone. *)
Lemma rank_file_lists_first_entry_only :
  ~ (forall (t : task) (rs : list rank) (cmd fname content : string),
        ranks t = Some rs -> placed t = true ->
        get_launch_cmds sh_callout0 set_iter0 lm0 t "/bin/app"
        = Ok (cmd, [WriteFile fname content]) ->
        content = rank_file_of_claim rs).
Proof.
  intros H.
  specialize (H task_two_maps [mk_rank "node1" [[0; 1]; [2; 3]]]
                "/usr/bin/mpiexec -np 1 -H node1 -rf /sbox/task.000001/task.000001.rf /bin/app"
                "/sbox/task.000001/task.000001.rf"
                ("rank 0=node1 slots=0,1" +:+ nl)
                eq_refl eq_refl eq_refl).
  vm_compute in H. discriminate H.
Qed.

(** Both modes on the sample task: a backend whose help mentions [-rf],
    and one whose help does not. *)
Lemma launch_cmd_placement_witness :
  get_launch_cmds sh_callout0 set_iter0 lm0 task0 "/bin/app"
  = Ok ("/usr/bin/mpiexec -np 2 -H node1,node2 -rf /sbox/task.000000/task.000000.rf /bin/app",
        [WriteFile "/sbox/task.000000/task.000000.rf"
           ("rank 0=node1 slots=0,1" +:+ nl +:+ "rank 1=node2 slots=4,5" +:+ nl)])
  /\ get_launch_cmds sh_callout1 set_iter0 lm0 task0 "/bin/app"
     = Ok ("/usr/bin/mpiexec -np 2 --hostfile /sbox/task.000000/task.000000.hf --depth=2 --cpu-bind depth /bin/app",
           [WriteFile "/sbox/task.000000/task.000000.hf"
              ("node1" +:+ nl +:+ "node2" +:+ nl)]).
Proof.
  split.
  - exact (proj1 (launch_cmd_placement sh_callout0 set_iter0 lm0 task0
                    "/bin/app" _ eq_refl eq_refl)).
  - exact (proj1 (launch_cmd_placement sh_callout1 set_iter0 lm0 task0
                    "/bin/app" _ eq_refl eq_refl)).
Defined.

(** Probing on the sample host and setting up a second instance. *)
Lemma init_from_info_restores_witness :
  exists obj',
    _init_from_info
      (mk_info [("PATH", "/usr/bin")] "env/lm_mpiexec.sh" "/usr/bin/mpiexec"
               false false "" "" "" (Some "4.1.5") (Some "OMPI"))
      fresh0 = Ok obj'
    /\ _command obj' = "/usr/bin/mpiexec"
    /\ _env_sh obj' = "env/lm_mpiexec.sh".
Proof.
  destruct (init_from_info_restores which0 "node1" mpi_info0 sh_callout0
              set_iter0 fresh0 [("PATH", "/usr/bin")] "env/lm_mpiexec.sh"
              _ fresh0 eq_refl)
    as (obj' & Hinit & Hfields & _).
  exists obj'. split; [exact Hinit|].
  destruct Hfields as (_ & Hsh & Hc & _). split; assumption.
Defined.

End MPIExecFacts.

(* ===================================================================== *)
(** ** Facts about session.py                                             *)
(* ===================================================================== *)

Module SessionFacts.
Import Session.

(** An [agent_n] session called with the empty uid, when no step raises:
    the role check lets it through, and the base class is initialised
    with that uid. *)
Example empty_uid_is_accepted :
  __init__ accept_all gen0 addr0 no_raise (Some "") _AGENT_N
           (Some "tcp://10.0.0.1:10001") tt 0
  = (Ok (mk_session _AGENT_N (Some "") (Some "tcp://10.0.0.1:10001")), 1%nat,
     [GenerateId "rp.session.0"; Call SagaSessionInit (Some "");
      Call StartComponents (Some "")]).
Proof. vm_compute. reflexivity. Qed.

Section Facts.

Context {CloseOptions : Type}.
Variable verify_close_options : CloseOptions -> option exn.
Variable generate_id : nat -> string.
Variable service_addr : string -> option string.
Variable raises : step -> session -> option exn.

Local Abbreviation call := (call raises).
Local Abbreviation registry := (registry service_addr).
Local Abbreviation _init_agent_0 := (_init_agent_0 service_addr raises).
Local Abbreviation _init_primary := (_init_primary service_addr raises).
Local Abbreviation _init_components := (_init_components raises).
Local Abbreviation init_role := (init_role generate_id service_addr raises).
Local Abbreviation __init__ :=
  (__init__ verify_close_options generate_id service_addr raises).

(** None of the steps changes the uid or the role of the session. *)
Lemma call_keeps st s s' evs :
  call st s = (Ok s', evs) -> s' = s /\ evs = [Call st (_uid s)].
Proof.
  unfold Session.call. destruct (raises st s); intros H; inversion H; auto.
Qed.

Lemma registry_keeps s s' evs :
  registry s = (Ok s', evs) ->
  _uid s' = _uid s /\ _role s' = _role s
  /\ truthy_opt (_reg_addr s) = false
  /\ _reg_addr s' = service_addr (str_opt (_uid s) +:+ ".reg")
  /\ truthy_opt (_reg_addr s') = true.
Proof.
  unfold Session.registry, setup_registry, _start_registry, _init_registry.
  destruct (truthy_opt (_reg_addr s)) eqn:Hr; [intros H; inversion H|].
  cbn [_reg_addr negb].
  destruct (truthy_opt (service_addr (str_opt (_uid s) +:+ ".reg"))) eqn:Ha;
    cbn [negb]; intros H; inversion H; subst. simpl. auto.
Qed.



Lemma init_primary_keeps s s' evs :
  _init_primary s = (Ok s', evs) -> _uid s' = _uid s /\ _role s' = _role s.
Proof.
  unfold Session._init_primary, and_then.
  destruct (call ReadCfg s) as [[s1|e] evs1] eqn:H1; [|intros H; inversion H].
  destruct (call_keeps _ _ _ _ H1) as [-> _].
  destruct (registry s) as [[s2|e] evs2] eqn:H2; [|intros H; inversion H].
  destruct (registry_keeps _ _ _ H2) as (Hu & Hr & _).
  destruct (call RegPutSid s2) as [[s3|e] evs3] eqn:H3;
    [|intros H; inversion H].
  destruct (call_keeps _ _ _ _ H3) as [-> _].
  destruct (call InitProxy s2) as [[s4|e] evs4] eqn:H4;
    intros H; inversion H.
  subst. destruct (call_keeps _ _ _ _ H4) as [-> _]. auto.
Qed.







End Facts.


End SessionFacts.

(* ===================================================================== *)
(** ** Facts about raptor_tasks.py                                        *)
(* ===================================================================== *)

Module RaptorFacts.
Import Raptor.

Lemma prepare_worker_is_worker master_uid td :
  is_worker_of master_uid (or_else (raptor_file td) "")
               (or_else (raptor_class td) "DefaultWorker")
               (prepare_worker master_uid td).
Proof.
  unfold is_worker_of, prepare_worker. simpl.
  repeat split.
  destruct (negb (truthy_opt (named_env _))), (negb (truthy_opt (executable _))),
    (negb (truthy_opt (uid td))); simpl; apply lookup_insert_eq.
Qed.

Lemma prepare_worker_keeps_raptor master_uid td :
  raptor_file (prepare_worker master_uid td) = raptor_file td
  /\ raptor_class (prepare_worker master_uid td) = raptor_class td.
Proof.
  unfold prepare_worker. simpl.
  destruct (negb (truthy_opt (named_env _))), (negb (truthy_opt (executable _))),
    (negb (truthy_opt (uid td))); simpl; split; reflexivity.
Qed.

Lemma prepare_worker_prepared master_uid td0 td :
  raptor_file td = raptor_file td0 -> raptor_class td = raptor_class td0 ->
  prepared master_uid td0 (prepare_worker master_uid td).
Proof.
  intros Hf Hc.
  destruct (prepare_worker_keeps_raptor master_uid td) as [Hf' Hc'].
  split; [|split; congruence].
  rewrite <- Hf, <- Hc. apply prepare_worker_is_worker.
Qed.

Lemma prepare_all_keeps master_uid descriptions h l td0 td :
  h !! l = Some td ->
  raptor_file td = raptor_file td0 -> raptor_class td = raptor_class td0 ->
  exists td', prepare_all master_uid descriptions h !! l = Some td'
              /\ raptor_file td' = raptor_file td0
              /\ raptor_class td' = raptor_class td0
              /\ (prepared master_uid td0 td -> prepared master_uid td0 td').
Proof.
  revert h td. induction descriptions as [|x ds IH]; intros h td Hl Hf Hc.
  - exists td. simpl. auto.
  - simpl. destruct (decide (x = l)) as [->|Hne].
    + destruct (prepare_worker_keeps_raptor master_uid td) as [Hf' Hc'].
      destruct (IH (alter (prepare_worker master_uid) l h)
                   (prepare_worker master_uid td)) as (td' & H1 & H2 & H3 & H4).
      * rewrite lookup_alter_eq, Hl. reflexivity.
      * congruence.
      * congruence.
      * exists td'. split; [exact H1|]. split; [exact H2|].
        split; [exact H3|].
        intros _. apply H4. apply prepare_worker_prepared; assumption.
    + destruct (IH (alter (prepare_worker master_uid) x h) td)
        as (td' & H1 & H2 & H3 & H4); try assumption.
      * rewrite lookup_alter_ne by assumption. exact Hl.
      * exists td'. auto.
Qed.

Lemma prepare_all_prepares master_uid descriptions h l td0 :
  In l descriptions -> h !! l = Some td0 ->
  exists td', prepare_all master_uid descriptions h !! l = Some td'
              /\ prepared master_uid td0 td'.
Proof.
  revert h. induction descriptions as [|x ds IH]; intros h Hin Hl; [destruct Hin|].
  simpl. destruct (decide (x = l)) as [->|Hne].
  - destruct (prepare_worker_keeps_raptor master_uid td0) as [Hf Hc].
    destruct (prepare_all_keeps master_uid ds
                (alter (prepare_worker master_uid) l h) l td0
                (prepare_worker master_uid td0))
      as (td' & H1 & _ & _ & H4); try assumption.
    + rewrite lookup_alter_eq, Hl. reflexivity.
    + exists td'. split; [exact H1|].
      apply H4. apply prepare_worker_prepared; reflexivity.
  - destruct Hin as [Hx | Hin]; [congruence|].
    apply IH; [exact Hin|].
    rewrite lookup_alter_ne by assumption. exact Hl.
Qed.

(** C10: after [submit_workers], every description of the submitted list
    has mode [RAPTOR_WORKER], [PYTHONUNBUFFERED] set to ['1'], the
    arguments [[raptor_file, raptor_class, master uid]] (its own raptor
    file or [''], its own raptor class or ['DefaultWorker']) and the uid
    ['raptor_worker.0000'], whatever uid it came with; so all the
    descriptions of the batch carry the same uid, and the list handed to
    the task manager is the list that was given. *)
Theorem submit_workers_prepares
        (master_uid : string) (descriptions : list loc)
        (h : gmap loc TaskDescription) (l : loc) (td : TaskDescription) :
  In l descriptions ->
  h !! l = Some td ->
  let h' := fst (submit_workers master_uid descriptions h) in
  (exists td',
      h' !! l = Some td'
      /\ td_mode td' = RAPTOR_WORKER
      /\ environment td' !! "PYTHONUNBUFFERED" = Some "1"
      /\ arguments td' = [or_else (raptor_file td) "";
                          or_else (raptor_class td) "DefaultWorker";
                          master_uid]
      /\ uid td' = Some "raptor_worker.0000")
  /\ (forall l1 l2 td1 td2,
         In l1 descriptions -> In l2 descriptions ->
         is_Some (h !! l1) -> is_Some (h !! l2) ->
         h' !! l1 = Some td1 -> h' !! l2 = Some td2 ->
         uid td1 = uid td2)
  /\ snd (submit_workers master_uid descriptions h) = descriptions.
Proof.
  intros Hin Hl h'. split; [|split; [|reflexivity]].
  - destruct (prepare_all_prepares master_uid descriptions h l td Hin Hl)
      as (td' & H1 & (Hm & He & Ha & Hu) & _).
    exists td'. auto.
  - intros l1 l2 td1 td2 Hin1 Hin2 [t1 Ht1] [t2 Ht2] H1 H2.
    destruct (prepare_all_prepares master_uid descriptions h l1 t1 Hin1 Ht1)
      as (td1' & H1' & (_ & _ & _ & Hu1) & _).
    destruct (prepare_all_prepares master_uid descriptions h l2 t2 Hin2 Ht2)
      as (td2' & H2' & (_ & _ & _ & Hu2) & _).
    subst h'. unfold submit_workers in H1, H2. simpl in H1, H2.
    congruence.
Qed.

(** Two descriptions, one of them listed twice, one with a uid of its
    own. *)
Lemma submit_workers_prepares_witness :
  exists td',
    fst (submit_workers "master.0000" [0; 1; 0]%nat
           (<[0%nat := td0]> (<[1%nat := td1]> ∅))) !! 0%nat = Some td'
    /\ td_mode td' = RAPTOR_WORKER
    /\ environment td' !! "PYTHONUNBUFFERED" = Some "1"
    /\ arguments td' = ["w.py"; "MyWorker"; "master.0000"]
    /\ uid td' = Some "raptor_worker.0000".
Proof.
  exact (proj1 (submit_workers_prepares "master.0000" [0; 1; 0]%nat
                  (<[0%nat := td0]> (<[1%nat := td1]> ∅)) 0%nat td0
                  (or_introl eq_refl) eq_refl)).
Defined.

End RaptorFacts.


(* ===================================================================== *)
(** ** More about agent/agent_0.py                                        *)
(* ===================================================================== *)

Module Agent0Extra.
Import Agent0 Samples.

(** *** The command drain *)

Lemma run_commands_pid self specs :
  _pid (fst (fst (run_commands self specs))) = _pid self.
Proof.
  revert self. induction specs as [|spec specs IH]; intros self; [reflexivity|].
  simpl. unfold handle_command, dispatch_other.
  destruct (String.eqb (cmd spec) "heartbeat").
  - destruct (getitem (arg spec) "pmgr") as [v|e]; [|reflexivity].
    destruct (eq_str v (_pmgr self)).
    + specialize (IH self). destruct (run_commands self specs) as [[s e] r].
      exact IH.
    + destruct (String.eqb (cmd spec) "cancel_pilot"); [reflexivity|].
      destruct (String.eqb (cmd spec) "cancel_units");
        specialize (IH self); destruct (run_commands self specs) as [[s e] r];
          exact IH.
  - destruct (String.eqb (cmd spec) "cancel_pilot"); [reflexivity|].
    destruct (String.eqb (cmd spec) "cancel_units");
      specialize (IH self); destruct (run_commands self specs) as [[s e] r];
        exact IH.
Qed.

Lemma find_and_modify_none pid c c1 :
  find_and_modify pid c = (None, c1) ->
  c1 = c /\ Forall (fun d => doc_uid d <> pid) c.
Proof.
  revert c1. induction c as [|x c IH]; simpl; intros c1 H.
  - injection H as <-. split; [reflexivity|constructor].
  - destruct (String.eqb (doc_uid x) pid) eqn:E; [discriminate|].
    destruct (find_and_modify pid c) as [r c2] eqn:F.
    injection H as -> <-. destruct (IH _ eq_refl) as [-> Hall].
    split; [reflexivity|]. constructor; [|exact Hall].
    apply String.eqb_neq. exact E.
Qed.

Lemma find_and_modify_some pid c d c1 :
  find_and_modify pid c = (Some d, c1) ->
  exists pre post,
    c = pre ++ d :: post /\ c1 = pre ++ wiped pid :: post
    /\ doc_uid d = pid /\ Forall (fun x => doc_uid x <> pid) pre.
Proof.
  revert c1. induction c as [|x c IH]; simpl; intros c1 H; [discriminate|].
  destruct (String.eqb (doc_uid x) pid) eqn:E.
  - injection H as <- <-. apply String.eqb_eq in E.
    exists [], c. rewrite E. repeat split; constructor.
  - destruct (find_and_modify pid c) as [r c2] eqn:F.
    injection H as -> <-.
    destruct (IH _ eq_refl) as (pre & post & -> & -> & Hu & Hpre).
    exists (x :: pre), post. repeat split; try assumption.
    constructor; [|exact Hpre]. apply String.eqb_neq. exact E.
Qed.

(** X1: a drain leaves nothing to drain.  Whatever the mailbox held and
    whatever the drain did with it (also when it raised), draining the
    mailbox it leaves behind returns [True], publishes nothing and changes
    neither the agent nor the mailbox. *)
Theorem drain_leaves_nothing (self : agent) (c : list pilot_doc) :
  let c' := fst (_check_commands self c) in
  let self' := fst (fst (snd (_check_commands self c))) in
  _check_commands self' c' = (c', (self', [], Ok true)).
Proof.
  intros c' self'.
  assert (Hpid : _pid self' = _pid self).
  { subst self'. unfold _check_commands.
    destruct (find_and_modify (_pid self) c) as [[d|] c1]; simpl;
      [apply run_commands_pid | reflexivity]. }
  subst c'. unfold _check_commands at 2 3.
  destruct (find_and_modify (_pid self) c) as [[d|] c1] eqn:F; simpl.
  - destruct (find_and_modify_some _ _ _ _ F) as (pre & post & _ & -> & _ & Hpre).
    unfold _check_commands. rewrite Hpid.
    assert (Hf : find_and_modify (_pid self) (pre ++ wiped (_pid self) :: post)
                 = (Some (wiped (_pid self)), pre ++ wiped (_pid self) :: post)).
    { clear -Hpre. induction Hpre as [|x pre Hx Hpre IH]; simpl.
      - rewrite String.eqb_refl. reflexivity.
      - apply String.eqb_neq in Hx. rewrite Hx, IH. reflexivity. }
    rewrite Hf. reflexivity.
  - destruct (find_and_modify_none _ _ _ F) as [-> _].
    unfold _check_commands. rewrite Hpid, F. reflexivity.
Qed.

(** X2: a drain touches one document at most.  Either no document has the
    pilot's uid, and then the mailbox is unchanged, nothing happens and the
    result is [True]; or the first document with that uid has its command
    list replaced by the empty list, and every other document, also a later
    one with the same uid, is left as it was. *)
Theorem drain_touches_first_match (self : agent) (c : list pilot_doc) :
  (Forall (fun d => doc_uid d <> _pid self) c
   /\ _check_commands self c = (c, (self, [], Ok true)))
  \/ (exists pre d post,
        c = pre ++ d :: post
        /\ doc_uid d = _pid self
        /\ Forall (fun x => doc_uid x <> _pid self) pre
        /\ _check_commands self c
           = (pre ++ wiped (_pid self) :: post,
              run_commands self (default [] (doc_cmd d)))).
Proof.
  unfold _check_commands.
  destruct (find_and_modify (_pid self) c) as [[d|] c1] eqn:F.
  - right. destruct (find_and_modify_some _ _ _ _ F)
      as (pre & post & -> & -> & Hu & Hpre).
    exists pre, d, post. auto.
  - left. destruct (find_and_modify_none _ _ _ F) as [-> Hall]. auto.
Qed.

(** X3: what the result of a drain tells.  [False] is returned exactly when
    a ['cancel_pilot'] was carried out: the cause is then ['cancel'] and the
    trace ends with the ['terminate'] message and the stop, which occur
    nowhere before.  With [True], or when the drain raises, the agent is
    unchanged and the trace holds neither a ['terminate'] nor a stop. *)
Theorem drain_result (self : agent) (specs : list cmd_spec) :
  let self' := fst (fst (run_commands self specs)) in
  let evs := snd (fst (run_commands self specs)) in
  match snd (run_commands self specs) with
  | Ok false =>
      self' = set_final_cause "cancel" self
      /\ exists evs0,
          evs = evs0 ++ [Publish CONTROL_PUBSUB "terminate" PNone; Stop]
          /\ List.filter is_shutdown evs0 = []
  | Ok true | Raise _ =>
      self' = self /\ List.filter is_shutdown evs = []
  end.
Proof.
  change (drain_spec self (run_commands self specs)).
  revert self. induction specs as [|spec specs IH]; intros self.
  - unfold drain_spec. simpl. auto.
  - assert (Hcont : forall ev,
               is_shutdown ev = false ->
               drain_spec self (let '(s, e, r) := run_commands self specs in
                                (s, ev :: e, r))).
    { intros ev Hev. specialize (IH self). unfold drain_spec in *.
      destruct (run_commands self specs) as [[s e] r]. simpl in *.
      destruct r as [[|]|x].
      - destruct IH as [-> IH]. split; [reflexivity|]. rewrite Hev. exact IH.
      - destruct IH as [-> (evs0 & -> & H0)]. split; [reflexivity|].
        exists (ev :: evs0). split; [reflexivity|]. simpl. rewrite Hev. exact H0.
      - destruct IH as [-> IH]. split; [reflexivity|]. rewrite Hev. exact IH. }
    assert (Hcont0 : drain_spec self (let '(s, e, r) := run_commands self specs in
                                      (s, e, r))).
    { specialize (IH self).
      destruct (run_commands self specs) as [[s e] r]. exact IH. }
    simpl run_commands. unfold handle_command, dispatch_other.
    destruct (String.eqb (cmd spec) "heartbeat") eqn:Eh.
    + destruct (getitem (arg spec) "pmgr") as [v|x];
        [|unfold drain_spec; simpl; auto].
      destruct (eq_str v (_pmgr self)).
      * apply (Hcont (HbBeat (_pmgr self))). reflexivity.
      * apply String.eqb_eq in Eh. rewrite Eh. simpl. exact Hcont0.
    + destruct (String.eqb (cmd spec) "cancel_pilot").
      * unfold drain_spec. simpl. split; [reflexivity|].
        exists []. split; reflexivity.
      * destruct (String.eqb (cmd spec) "cancel_units").
        -- apply (Hcont (Publish CONTROL_PUBSUB "cancel_units" (arg spec))).
           reflexivity.
        -- exact Hcont0.
Qed.

Lemma run_commands_agent (self : agent) (specs : list cmd_spec) :
  fst (fst (run_commands self specs))
  = match snd (run_commands self specs) with
    | Ok false => set_final_cause "cancel" self
    | Ok true | Raise _ => self
    end.
Proof.
  revert self. induction specs as [|spec specs IH]; intros self;
    [reflexivity|].
  assert (Hcont : forall ev,
             let r := (let '(s, e, r) := run_commands self specs in
                       (s, ev ++ e, r)) in
             fst (fst r) = match snd r with
                           | Ok false => set_final_cause "cancel" self
                           | Ok true | Raise _ => self
                           end).
  { intros ev. specialize (IH self).
    destruct (run_commands self specs) as [[s e] r]. exact IH. }
  simpl run_commands. unfold handle_command, dispatch_other.
  destruct (String.eqb (cmd spec) "heartbeat") eqn:Eh.
  - destruct (getitem (arg spec) "pmgr") as [v|x]; [|reflexivity].
    destruct (eq_str v (_pmgr self)).
    + apply (Hcont [HbBeat (_pmgr self)]).
    + apply String.eqb_eq in Eh. rewrite Eh. simpl. apply (Hcont []).
  - destruct (String.eqb (cmd spec) "cancel_pilot"); [reflexivity|].
    destruct (String.eqb (cmd spec) "cancel_units").
    + apply (Hcont [Publish CONTROL_PUBSUB "cancel_units" (arg spec)]).
    + apply (Hcont []).
Qed.

Lemma run_commands_app (self : agent) (before l : list cmd_spec) :
  snd (run_commands self before) = Ok true ->
  run_commands self (before ++ l)
  = (let '(s, e, r) := run_commands self l in
     (s, snd (fst (run_commands self before)) ++ e, r)).
Proof.
  induction before as [|spec before IH].
  - intros _. simpl. destruct (run_commands self l) as [[s e] r]. reflexivity.
  - simpl. unfold handle_command, dispatch_other.
    assert (Hcont : forall ev,
               snd (let '(s, e, r) := run_commands self before in
                    (s, ev ++ e, r)) = Ok true ->
               (let '(s, e, r) := run_commands self (before ++ l) in
                (s, ev ++ e, r))
               = (let '(s, e, r) := run_commands self l in
                  (s, snd (fst (let '(s0, e0, r0) := run_commands self before in
                                (s0, ev ++ e0, r0))) ++ e, r))).
    { intros ev Hok.
      destruct (run_commands self before) as [[s0 e0] r0] eqn:Hb.
      simpl in Hok. rewrite (IH Hok). simpl.
      destruct (run_commands self l) as [[s1 e1] r1].
      rewrite app_assoc. reflexivity. }
    destruct (String.eqb (cmd spec) "heartbeat") eqn:Eh.
    + destruct (getitem (arg spec) "pmgr") as [v|x]; [|discriminate].
      destruct (eq_str v (_pmgr self)).
      * apply (Hcont [HbBeat (_pmgr self)]).
      * apply String.eqb_eq in Eh. rewrite Eh. simpl. apply (Hcont []).
    + destruct (String.eqb (cmd spec) "cancel_pilot"); [discriminate|].
      destruct (String.eqb (cmd spec) "cancel_units").
      * apply (Hcont [Publish CONTROL_PUBSUB "cancel_units" (arg spec)]).
      * apply (Hcont []).
Qed.

Lemma find_and_modify_first pid pre d post :
  Forall (fun x => doc_uid x <> pid) pre ->
  doc_uid d = pid ->
  find_and_modify pid (pre ++ d :: post)
  = (Some d, pre ++ wiped pid :: post).
Proof.
  intros Hpre Hd. induction Hpre as [|x pre Hx Hpre IH]; simpl.
  - rewrite Hd, String.eqb_refl. reflexivity.
  - apply String.eqb_neq in Hx. rewrite Hx, IH. reflexivity.
Qed.

(** X4: a heartbeat whose argument has no ['pmgr'] entry (a dictionary
    without that key, or no dictionary at all) makes the drain raise at
    that command, wherever the pilot's document stands in the mailbox and
    whatever commands went through before it in the list.  The command
    list was wiped before the loop started, so the commands after the
    heartbeat are neither carried out (the trace is that of the commands
    before it) nor left in the mailbox: the next drain finds none. *)
Theorem malformed_heartbeat_loses_commands
        (self : agent) (a : pyval) (e : exn)
        (before rest : list cmd_spec) (pre post : list pilot_doc) :
  getitem a "pmgr" = Raise e ->
  Forall (fun d => doc_uid d <> _pid self) pre ->
  snd (run_commands self before) = Ok true ->
  let c := pre ++ mk_pilot_doc (_pid self)
                    (Some (before ++ mk_cmd "heartbeat" a :: rest))
               :: post in
  let c' := pre ++ wiped (_pid self) :: post in
  _check_commands self c
  = (c', (self, snd (fst (run_commands self before)), Raise e))
  /\ _check_commands self c' = (c', (self, [], Ok true))
  /\ ((forall d, a <> PDict d)
      \/ (exists d, a = PDict d /\ assoc "pmgr" d = None
                    /\ e = KeyError "pmgr")).
Proof.
  intros Hg Hpre Hok c c'. subst c c'.
  split; [|split].
  - unfold _check_commands.
    rewrite (find_and_modify_first (_pid self) pre
               (mk_pilot_doc (_pid self)
                  (Some (before ++ mk_cmd "heartbeat" a :: rest)))
               post Hpre eq_refl).
    change (default [] (doc_cmd _))
      with (before ++ mk_cmd "heartbeat" a :: rest).
    rewrite (run_commands_app _ _ _ Hok).
    pose proof (run_commands_agent self before) as Hself.
    rewrite Hok in Hself.
    simpl run_commands. unfold handle_command. simpl. rewrite Hg.
    rewrite app_nil_r.
    destruct (run_commands self before) as [[s0 e0] r0]. simpl in *.
    subst r0 s0. reflexivity.
  - unfold _check_commands.
    rewrite (find_and_modify_first (_pid self) pre (wiped (_pid self)) post
               Hpre eq_refl).
    reflexivity.
  - destruct a as [| s | l | d].
    + left. intros d. discriminate.
    + left. intros d. discriminate.
    + left. intros d. discriminate.
    + right. exists d. simpl in Hg. destruct (assoc "pmgr" d); [discriminate|].
      injection Hg as <-. auto.
Qed.

Lemma malformed_heartbeat_loses_commands_witness :
  _check_commands agent0
    [mk_pilot_doc "pilot.0001" (Some [mk_cmd "cancel_pilot" PNone]);
     mk_pilot_doc "pilot.0000"
       (Some [mk_cmd "cancel_units" (PList [PStr "unit.000007"]);
              mk_cmd "heartbeat" PNone; mk_cmd "cancel_pilot" PNone])]
  = ([mk_pilot_doc "pilot.0001" (Some [mk_cmd "cancel_pilot" PNone]);
      wiped "pilot.0000"],
     (agent0,
      [Publish CONTROL_PUBSUB "cancel_units" (PList [PStr "unit.000007"])],
      Raise (TypeError "'NoneType' object is not subscriptable"))).
Proof.
  assert (Hpre : Forall (fun d => doc_uid d <> _pid agent0)
                   [mk_pilot_doc "pilot.0001"
                      (Some [mk_cmd "cancel_pilot" PNone])]).
  { constructor; [discriminate|constructor]. }
  pose proof (malformed_heartbeat_loses_commands agent0 PNone
                (TypeError "'NoneType' object is not subscriptable")
                [mk_cmd "cancel_units" (PList [PStr "unit.000007"])]
                [mk_cmd "cancel_pilot" PNone]
                [mk_pilot_doc "pilot.0001"
                   (Some [mk_cmd "cancel_pilot" PNone])]
                [] eq_refl Hpre eq_refl) as [H _].
  exact H.
Defined.

(** *** [_agent_command_cb] *)

(** X5: when the command callback returns [False], a terminal cause is set
    that [finalize] does not turn into [FAILED].  Either the drain carried
    out a ['cancel_pilot']: the runtime is then not checked, the cause is
    ['cancel'] and the final state [CANCELED], also when the runtime has
    run out; or the drain returned [True] and the runtime has run out: the
    cause is ['timeout'], the final state [DONE], the agent is stopped, and
    no ['terminate'] is published for it.  When it returns [True] or
    raises, the agent is unchanged. *)
Theorem command_cb_sets_cause
        (self : agent) (c : list pilot_doc) (runtime_set expired : bool) :
  let drain := snd (_check_commands self c) in
  let r := snd (_agent_command_cb self c runtime_set expired) in
  let self' := fst (fst r) in
  fst (_agent_command_cb self c runtime_set expired)
  = fst (_check_commands self c)
  /\ match snd r with
     | Ok false =>
         (snd drain = Ok false /\ r = drain
          /\ _final_cause self' = Some "cancel"
          /\ final_state (_final_cause self') = CANCELED)
         \/ (snd drain = Ok true /\ runtime_set = true /\ expired = true
             /\ self' = set_final_cause "timeout" self
             /\ snd (fst r) = snd (fst drain) ++ [Stop]
             /\ List.filter is_publish (snd (fst r))
                = List.filter is_publish (snd (fst drain))
             /\ final_state (_final_cause self') = DONE)
     | Ok true =>
         runtime_set && expired = false /\ r = drain /\ self' = self
     | Raise _ => r = drain /\ self' = self
     end.
Proof.
  intros drain r self'. subst drain r self'.
  unfold _agent_command_cb.
  assert (Hd : _check_commands self c
               = (fst (_check_commands self c),
                  run_commands self
                    (match find_and_modify (_pid self) c with
                     | (Some d, _) => default [] (doc_cmd d)
                     | (None, _) => []
                     end))).
  { unfold _check_commands.
    destruct (find_and_modify (_pid self) c) as [[d|] c1]; reflexivity. }
  rewrite Hd. simpl fst. simpl snd.
  match goal with |- context [run_commands self ?l] => set (specs := l) end.
  pose proof (run_commands_agent self specs) as Hr.
  destruct (run_commands self specs) as [[s e] [[|]|x]]; simpl in *.
  - subst s. unfold _check_state.
    destruct runtime_set, expired; simpl; split; try reflexivity.
    + right. repeat split; try reflexivity.
      rewrite List.filter_app. simpl. rewrite app_nil_r. reflexivity.
    + rewrite app_nil_r. auto.
    + rewrite app_nil_r. auto.
    + rewrite app_nil_r. auto.
  - subst s. split; [reflexivity|]. left.
    repeat split; reflexivity.
  - subst s. auto.
Qed.

(** *** [_check_units_cb] *)

Section PullCycle.

Variable collapse : list state -> state.

Lemma lookup_map_list {A B} (f : A -> B) (l : list A) (i : nat) :
  List.map f l !! i = f <$> (l !! i).
Proof. revert i. induction l as [|x l IH]; intros [|i]; simpl; auto. Qed.

Lemma cycle_mailbox self db :
  fst (fst (_check_units_cb collapse self db))
  = update (List.map u_uid (find (_pid self) db)) db.
Proof.
  unfold _check_units_cb.
  destruct (Nat.eqb (length (find (_pid self) db)) 0) eqn:E; simpl.
  - destruct (find (_pid self) db); [|discriminate]. simpl.
    symmetry. apply Agent0Facts.update_nil.
  - reflexivity.
Qed.


(** X6: the update of a pull cycle selects by type and uid alone.  A record
    is switched to control ['agent'] exactly when it is a unit whose uid is
    among the uids read, in place and whatever its pilot and its control
    were; every other record is left as it was.  So a unit of another pilot
    that shares its uid with a pulled unit is switched as well, although it
    is not pushed. *)
Theorem pull_update_by_uid
        (self : agent) (db : list unit_doc) (i : nat) (v : unit_doc) :
  db !! i = Some v ->
  let db1 := fst (fst (_check_units_cb collapse self db)) in
  let pulled := List.map u_uid (find (_pid self) db) in
  length db1 = length db
  /\ (u_type v = "unit" -> In (u_uid v) pulled ->
      db1 !! i = Some (set_control "agent" v))
  /\ (u_type v <> "unit" \/ ~ In (u_uid v) pulled -> db1 !! i = Some v).
Proof.
  intros Hi db1 pulled. subst db1. rewrite cycle_mailbox. fold pulled.
  unfold update. split; [apply length_map|].
  rewrite lookup_map_list, Hi. simpl. unfold in_uids. split.
  - intros Ht Hin. rewrite Ht. simpl.
    assert (existsb (String.eqb (u_uid v)) pulled = true) as ->; [|reflexivity].
    apply existsb_exists. exists (u_uid v). split; [exact Hin|].
    apply String.eqb_refl.
  - intros [Ht | Hin].
    + apply String.eqb_neq in Ht. rewrite Ht. reflexivity.
    + destruct (existsb (String.eqb (u_uid v)) pulled) eqn:E.
      * exfalso. apply Hin. apply existsb_exists in E as (x & Hx & Heq).
        apply String.eqb_eq in Heq. rewrite Heq. exact Hx.
      * rewrite andb_false_r. reflexivity.
Qed.


(** **** The environment of a pushed unit *)

Lemma env_get_set_eq k v d : env_get k (dict_set k v d) = Some v.
Proof.
  induction d as [|[k' v'] d IH]; simpl.
  - rewrite String.eqb_refl. reflexivity.
  - destruct (String.eqb k' k) eqn:E; simpl.
    + rewrite String.eqb_refl. reflexivity.
    + rewrite E. exact IH.
Qed.

Lemma env_get_set_ne k k0 v d :
  k0 <> k -> env_get k (dict_set k0 v d) = env_get k d.
Proof.
  intros Hne. induction d as [|[k' v'] d IH]; simpl.
  - apply String.eqb_neq in Hne. rewrite Hne. reflexivity.
  - destruct (String.eqb k' k0) eqn:E; simpl.
    + apply String.eqb_eq in E. subst k'.
      apply String.eqb_neq in Hne. rewrite Hne. reflexivity.
    + destruct (String.eqb k' k); [reflexivity|exact IH].
Qed.

Lemma env_get_update_other k env d :
  ~ In k (List.map fst env) -> env_get k (dict_update env d) = env_get k d.
Proof.
  unfold dict_update. revert d.
  induction env as [|[k0 v0] env IH]; intros d Hk; [reflexivity|].
  simpl. rewrite IH.
  - apply env_get_set_ne. intros ->. apply Hk. left. reflexivity.
  - intros Hin. apply Hk. right. exact Hin.
Qed.

Lemma env_get_update_in k v env d :
  List.NoDup (List.map fst env) -> In (k, v) env ->
  env_get k (dict_update env d) = Some v.
Proof.
  unfold dict_update. revert d.
  induction env as [|[k0 v0] env IH]; intros d Hnd Hin; [destruct Hin|].
  simpl in Hnd. apply NoDup_cons_iff in Hnd as [Hk0 Hnd].
  simpl. destruct Hin as [Heq | Hin].
  - injection Heq as -> ->.
    pose proof (env_get_update_other k env (dict_set k v d)) as H.
    unfold dict_update in H. rewrite H.
    + apply env_get_set_eq.
    + exact Hk0.
  - apply IH; [exact Hnd | exact Hin].
Qed.

(** X8: the environment a pushed unit gets.  When the agent has a
    [unit_environment] (a dictionary, so its keys are distinct), every
    entry of it is found in the unit's environment with the agent's value,
    also where the unit had set the key itself, and every other key keeps
    what the unit had for it. *)
Theorem pushed_unit_environment
        (self : agent) (u : unit_doc) (env : list (string * string)) :
  unit_environment self = Some env ->
  List.NoDup (List.map fst env) ->
  exists d,
    u_environment (prepare_unit collapse self u) = Some d
    /\ (forall k v, In (k, v) env -> env_get k d = Some v)
    /\ (forall k, ~ In k (List.map fst env) ->
          env_get k d = env_get k (default [] (u_environment u))).
Proof.
  intros Henv Hnd. unfold prepare_unit, unit_env. simpl. rewrite Henv.
  eexists. split; [reflexivity|].
  assert (Hd : match u_environment u with
               | Some (x :: d') => x :: d'
               | _ => []
               end = default [] (u_environment u)).
  { destruct (u_environment u) as [[|x d']|]; reflexivity. }
  rewrite Hd. split.
  - intros k v Hin. apply env_get_update_in; assumption.
  - intros k Hk. apply env_get_update_other. exact Hk.
Qed.

End PullCycle.

Lemma pull_update_by_uid_witness :
  fst (fst (_check_units_cb collapse0 agent0 [unit0; unit_other])) !! 1%nat
  = Some (set_control "agent" unit_other).
Proof.
  exact (proj1 (proj2 (pull_update_by_uid collapse0 agent0 [unit0; unit_other]
                         1%nat unit_other eq_refl))
               eq_refl (or_introl eq_refl)).
Defined.

Lemma pushed_unit_environment_witness :
  exists d,
    u_environment (prepare_unit collapse0 agent_env unit0) = Some d
    /\ (forall k v,
          In (k, v) [("RP_APP_IN", "tcp://10.0.0.1:5000");
                     ("RP_APP_OUT", "tcp://10.0.0.1:5001")] ->
          env_get k d = Some v)
    /\ (forall k,
          ~ In k ["RP_APP_IN"; "RP_APP_OUT"] ->
          env_get k d = env_get k []).
Proof.
  apply (pushed_unit_environment collapse0 agent_env unit0 _ eq_refl).
  repeat constructor; simpl; intros H;
    repeat (destruct H as [H | H]; [discriminate H|]); exact H.
Defined.

End Agent0Extra.


(* ===================================================================== *)
(** ** More about agent/staging_input/default.py                          *)
(* ===================================================================== *)

Module StagingInputExtra.
Import StagingInput Samples StagingInputFacts.

Section Facts.

Context {W : Type}.
Variable fs_answer : fs_query -> W -> bool.
Variable fs_exec : fs_cmd -> W -> W * option exn.
Variable Url_parse : string -> Url.
Variable Url_str : Url -> string.
Variable complete_url : string -> context -> result Url.
Variable repr : exn -> string.
Variable get_exception_trace : exn -> list string.

Local Abbreviation M := (@M W).
Local Abbreviation handle_sd :=
  (handle_sd fs_answer fs_exec Url_str complete_url).
Local Abbreviation _handle_task :=
  (_handle_task fs_answer fs_exec Url_parse Url_str complete_url).
Local Abbreviation _work :=
  (_work fs_answer fs_exec Url_parse Url_str complete_url repr
         get_exception_trace).
Local Abbreviation task_context := (task_context Url_parse Url_str).
Local Abbreviation sandbox_url := (sandbox_url Url_parse).

(** The handler of one directive of the task [t]. *)
Local Abbreviation handler t :=
  (handle_sd (uid t) (sandbox_url t) (task_context t) (task_context t)).

Lemma handle_task_unfold t acts :
  _handle_task t acts
  = bind (for_each (handler t) acts)
         (fun _ => advance [t] AGENT_SCHEDULING_PENDING).
Proof. reflexivity. Qed.

(** *** Transfers *)

(** X9: a [TRANSFER] directive that reaches the agent is no error.  A
    batch of tasks whose directives are all transfers (or that have none)
    is advanced to [AGENT_SCHEDULING_PENDING] in one bulk, [_work] does
    not raise, and the filesystem is neither asked nor changed; and a
    transfer handed to the directive handler is skipped like any action
    that is not local, so that the ['unsupported transfer'] error is never
    raised. *)
Theorem transfers_are_not_an_error (tasks : list task) (w : W) :
  forallb only_transfers tasks = true ->
  _work tasks w = (Ok tt, w, bulk_events tasks)
  /\ forall u sb c1 c2 did src tgt w',
      handle_sd u sb c1 c2 (mk_sd TRANSFER did src tgt) w'
      = (Ok tt, w',
         [Prof "staging_in_start" u did; Prof "staging_in_skip" u did]).
Proof.
  intros Hall. split; [|reflexivity].
  assert (Hsplit : split_tasks tasks = (tasks, [])).
  { induction tasks as [|t tasks IH]; [reflexivity|].
    simpl in Hall. apply andb_prop in Hall as [Ht Hall].
    simpl. rewrite (IH Hall).
    assert (Ha : actionables_of t = []).
    { unfold actionables_of. unfold only_transfers in Ht.
      induction (default [] (input_staging t)) as [|sd l IHl]; [reflexivity|].
      simpl in Ht. apply andb_prop in Ht as [Hsd Ht].
      apply bool_decide_eq_true in Hsd.
      simpl. unfold is_actionable at 1. rewrite Hsd. simpl. apply IHl, Ht. }
    rewrite Ha. reflexivity. }
  unfold StagingInput._work. rewrite Hsplit.
  destruct tasks; reflexivity.
Qed.

(** *** Failing directives *)

Lemma for_each_app {A} (f : A -> M unit) l1 l2 w :
  for_each f (l1 ++ l2) w
  = bind (for_each f l1) (fun _ => for_each f l2) w.
Proof.
  revert w. induction l1 as [|x l1 IH]; intros w.
  - simpl. unfold bind, ret.
    destruct (for_each f l2 w) as [[r w'] evs]. reflexivity.
  - change (bind (f x) (fun _ => for_each f (l1 ++ l2)) w
            = bind (bind (f x) (fun _ => for_each f l1))
                   (fun _ => for_each f l2) w).
    unfold bind. destruct (f x w) as [[[[]|e] w1] evs1]; [|reflexivity].
    rewrite IH. unfold bind.
    destruct (for_each f l1 w1) as [[[[]|e] w2] evs2]; [|reflexivity].
    destruct (for_each f l2 w2) as [[r w3] evs3].
    rewrite app_assoc. reflexivity.
Qed.

(** X10: the directives after a failing one are not attempted, and what
    the earlier ones did stays done.  When the directives [pre] go through
    and the next one raises [e], [_handle_task] raises [e] with the trace
    of [pre] followed by that of the failing directive, in the filesystem
    state that directive left, without advancing the task and without a
    single event for the directives that follow. *)
Theorem failing_directive_ends_staging
        (t : task) (pre post : list staging_directive)
        (sd : staging_directive) (w : W) (e : exn) :
  result_of (for_each (handler t) pre) w = Ok tt ->
  result_of (handler t sd) (world_after (for_each (handler t) pre) w) = Raise e ->
  let w1 := world_after (for_each (handler t) pre) w in
  _handle_task t (pre ++ sd :: post) w
  = (Raise e, world_after (handler t sd) w1,
     events_of (for_each (handler t) pre) w ++ events_of (handler t sd) w1)
  /\ _handle_task t (pre ++ sd :: post) w = _handle_task t (pre ++ [sd]) w
  /\ advanced (events_of (_handle_task t (pre ++ sd :: post)) w) = [].
Proof.
  intros Hpre Hsd w1.
  assert (Hgen : forall post',
             _handle_task t (pre ++ sd :: post') w
             = (Raise e, world_after (handler t sd) w1,
                events_of (for_each (handler t) pre) w
                ++ events_of (handler t sd) w1)).
  { intros post'. rewrite handle_task_unfold. unfold bind at 1.
    rewrite for_each_app. subst w1.
    unfold result_of, world_after, events_of, bind in *.
    destruct (for_each (handler t) pre w) as [[r0 w0] evs0]. simpl in *.
    subst r0. simpl for_each. unfold bind.
    destruct (handler t sd w0) as [[r1 w1'] evs1]. simpl in *. subst r1.
    reflexivity. }
  split; [apply Hgen|]. split; [rewrite (Hgen post), (Hgen []); reflexivity|].
  pose proof (handle_task_advanced fs_answer fs_exec Url_parse Url_str
                complete_url t (pre ++ sd :: post) w) as Ha.
  rewrite Ha. unfold result_of. rewrite (Hgen post). reflexivity.
Qed.

(** *** What comes before the first command *)

Lemma default_target_pure src tgt w :
  exists tgt' evs,
    default_target fs_answer src tgt w = (Ok tgt', w, evs)
    /\ List.filter is_fs_cmd evs = [].
Proof.
  unfold default_target.
  destruct (String.eqb (strip (default "" tgt)) "").
  - eexists _, _. split; reflexivity.
  - unfold bind, query, ret.
    destruct (fs_answer (PathExists (strip (default "" tgt))) w).
    + destruct (fs_answer (IsDir (strip (default "" tgt))) w);
        eexists _, _; split; reflexivity.
    + eexists _, _. split; reflexivity.
Qed.

(** X11: no command is run on the filesystem before both URLs of a
    directive are completed and found to be [file://] URLs.  For a [COPY],
    [LINK] or [MOVE] directive whose source or target does not complete to
    a [file://] URL (the completion raises, or yields another schema), the
    handler raises, and up to there it has only asked whether the target
    exists: the filesystem is unchanged and no command was issued. *)
Theorem no_command_before_urls_checked
        (u : string) (sb : Url) (c1 c2 : context)
        (sd : staging_directive) (w : W) :
  local_action (sd_action sd) = true ->
  (forall tgt' s t',
      result_of (default_target fs_answer (sd_source sd) (sd_target sd)) w
      = Ok tgt' ->
      complete_url (sd_source sd) c1 = Ok s ->
      complete_url tgt' c2 = Ok t' ->
      ~ (schema s = "file" /\ schema t' = "file")) ->
  exists e,
    result_of (handle_sd u sb c1 c2 sd) w = Raise e
    /\ world_after (handle_sd u sb c1 c2 sd) w = w
    /\ List.filter is_fs_cmd (events_of (handle_sd u sb c1 c2 sd) w) = [].
Proof.
  intros Hlocal Hbad.
  destruct (default_target_pure (sd_source sd) (sd_target sd) w)
    as (tgt' & evs & Hdt & Hevs).
  specialize (Hbad tgt'). unfold result_of in Hbad. rewrite Hdt in Hbad.
  simpl in Hbad.
  assert (H : exists e evs',
             handle_sd u sb c1 c2 sd w = (Raise e, w, evs')
             /\ List.filter is_fs_cmd evs' = []).
  { unfold StagingInput.handle_sd. rewrite Hlocal. simpl negb. cbv iota.
    unfold bind, prof, emit, lift. rewrite Hdt.
    destruct (complete_url (sd_source sd) c1) as [s|e1] eqn:Hs.
    2:{ exists e1. eexists. split; [reflexivity|].
        simpl. rewrite app_nil_r. exact Hevs. }
    destruct (complete_url tgt' c2) as [t'|e2] eqn:Ht.
    2:{ exists e2. eexists. split; [reflexivity|].
        simpl. rewrite !app_nil_r. exact Hevs. }
    unfold assert.
    destruct (String.eqb (schema t') "file") eqn:Et.
    2:{ eexists. eexists. split; [reflexivity|].
        simpl. rewrite !app_nil_r. exact Hevs. }
    destruct (String.eqb (schema s) "file") eqn:Es.
    - exfalso. apply (Hbad s t' eq_refl eq_refl eq_refl).
      apply String.eqb_eq in Et, Es. auto.
    - eexists. eexists. split; [reflexivity|].
      simpl. rewrite !app_nil_r. exact Hevs. }
  destruct H as (e & evs' & H & Hf). exists e.
  unfold result_of, world_after, events_of. rewrite H. auto.
Qed.

(** *** The sandbox directory *)

Lemma rstrip_slash_end h : ends_with_slash (rstrip_slash h) = false.
Proof.
  induction h as [|c h IH]; [reflexivity|].
  simpl. destruct (rstrip_slash h) as [|c' r] eqn:E.
  - destruct (Ascii.eqb c "/") eqn:Ec; simpl; [reflexivity|exact Ec].
  - exact IH.
Qed.

(** [os.path.dirname] gives a path without a slash at its end, unless the
    path is made of slashes alone. *)
Lemma dirname_no_trailing_slash p q :
  ends_with_slash q = true -> all_slashes q = false -> dirname p <> q.
Proof.
  intros He Ha Hd. unfold dirname in Hd.
  destruct (truthy (head_slash p) && negb (all_slashes (head_slash p)))
    eqn:E.
  - subst q. rewrite rstrip_slash_end in He. discriminate.
  - subst q. destruct (head_slash p); [discriminate|].
    simpl truthy in E. rewrite Ha in E. discriminate.
Qed.

(** X12: the test that spares the task sandbox a [rec_makedir] compares
    path strings, and a sandbox path that ends with a slash never passes
    it.  For a task whose sandbox path ends with a slash (and is not the
    root), every [COPY], [LINK] or [MOVE] directive whose URLs complete to
    [file://] URLs has the [rec_makedir] of its target directory as its
    first command on the filesystem, also when that directory is the
    sandbox itself. *)
Theorem sandbox_guard_misses_trailing_slash
        (u : string) (sb : Url) (c1 c2 : context)
        (sd : staging_directive) (w : W) (tgt0 : string) (s t' : Url) :
  local_action (sd_action sd) = true ->
  ends_with_slash (path sb) = true ->
  all_slashes (path sb) = false ->
  result_of (default_target fs_answer (sd_source sd) (sd_target sd)) w
  = Ok tgt0 ->
  complete_url (sd_source sd) c1 = Ok s -> schema s = "file" ->
  complete_url tgt0 c2 = Ok t' -> schema t' = "file" ->
  exists before after,
    events_of (handle_sd u sb c1 c2 sd) w
    = before ++ FsCmd (RecMakedir (dirname (path t'))) :: after
    /\ List.filter is_fs_cmd before = [].
Proof.
  intros Hlocal Hend Hall Htgt Hs Hss Ht Hts.
  destruct (default_target_pure (sd_source sd) (sd_target sd) w)
    as (tgt' & evs & Hdt & Hevs).
  unfold result_of in Htgt. rewrite Hdt in Htgt. simpl in Htgt.
  injection Htgt as ->.
  assert (Hne : String.eqb (dirname (path t')) (path sb) = false).
  { apply String.eqb_neq. apply dirname_no_trailing_slash; assumption. }
  assert (Hnt : bool_decide (sd_action sd = TRANSFER) = false).
  { destruct (sd_action sd); try reflexivity. discriminate Hlocal. }
  unfold events_of, StagingInput.handle_sd.
  rewrite Hlocal, Hnt. simpl negb. cbv iota.
  unfold bind, prof, emit, lift, assert, ret, command.
  rewrite Hdt, Hs, Ht, Hts, Hss, Hne.
  change (String.eqb "file" "file") with true. cbn [negb]. cbv beta iota.
  destruct (fs_exec (RecMakedir (dirname (path t'))) w) as [w1 [e|]].
  - exists (Prof "staging_in_start" u (sd_uid sd) :: evs), [].
    split; [|exact Hevs].
    simpl. reflexivity.
  - destruct (enact fs_answer fs_exec Url_str u (sd_uid sd) (sd_action sd)
                    s t' w1) as [[[[]|e] w2] evs2].
    + exists (Prof "staging_in_start" u (sd_uid sd) :: evs),
             (evs2 ++ [Prof "staging_in_stop" u (sd_uid sd)]).
      split; [|exact Hevs]. simpl. reflexivity.
    + exists (Prof "staging_in_start" u (sd_uid sd) :: evs), evs2.
      split; [|exact Hevs]. simpl. reflexivity.
Qed.

End Facts.

Lemma transfers_are_not_an_error_witness :
  _work fs_answer0 fs_exec0 Url_parse0 Url_str0 complete_url0 repr0 trace0
        [task_transfer; task_plain] tt
  = (Ok tt, tt,
     [Advance [task_transfer; task_plain] AGENT_SCHEDULING_PENDING true true]).
Proof.
  exact (proj1 (transfers_are_not_an_error fs_answer0 fs_exec0 Url_parse0
                  Url_str0 complete_url0 repr0 trace0
                  [task_transfer; task_plain] tt eq_refl)).
Defined.

(** On the sample filesystem the move fails; the link listed after it is
    not attempted. *)
Lemma failing_directive_ends_staging_witness :
  _handle_task fs_answer0 fs_exec0 Url_parse0 Url_str0 complete_url0
               task_move ([] ++ sd_move :: [sd_link]) tt
  = _handle_task fs_answer0 fs_exec0 Url_parse0 Url_str0 complete_url0
                 task_move ([] ++ [sd_move]) tt.
Proof.
  exact (proj1 (proj2 (failing_directive_ends_staging fs_answer0 fs_exec0
                         Url_parse0 Url_str0 complete_url0 task_move []
                         [sd_link] sd_move tt
                         (OSError 2 "No such file or directory")
                         eq_refl eq_refl))).
Defined.

(** A copy from grid storage, whose URLs do not complete to [file://]. *)
Lemma no_command_before_urls_checked_witness :
  exists e,
    result_of (handle_sd fs_answer0 fs_exec0 Url_str0 complete_url_srm
                 "task.000005" (mk_url "file" "localhost" "/sbox/task")
                 (mk_ctx "" "" "" "" "" "") (mk_ctx "" "" "" "" "" "")
                 sd_copy) tt = Raise e
    /\ world_after (handle_sd fs_answer0 fs_exec0 Url_str0 complete_url_srm
                      "task.000005" (mk_url "file" "localhost" "/sbox/task")
                      (mk_ctx "" "" "" "" "" "") (mk_ctx "" "" "" "" "" "")
                      sd_copy) tt = tt
    /\ List.filter is_fs_cmd
         (events_of (handle_sd fs_answer0 fs_exec0 Url_str0 complete_url_srm
                       "task.000005" (mk_url "file" "localhost" "/sbox/task")
                       (mk_ctx "" "" "" "" "" "") (mk_ctx "" "" "" "" "" "")
                       sd_copy) tt) = [].
Proof.
  apply (no_command_before_urls_checked fs_answer0 fs_exec0 Url_str0
           complete_url_srm "task.000005"
           (mk_url "file" "localhost" "/sbox/task")
           (mk_ctx "" "" "" "" "" "") (mk_ctx "" "" "" "" "" "") sd_copy tt
           eq_refl).
  intros tgt' s t' _ Hs _ [Hfile _].
  injection Hs as <-. discriminate Hfile.
Defined.

(** A move into a sub-directory of the sandbox creates that directory, not
    the sandbox. *)
(** A link into a sandbox whose path ends with a slash, as the session
    builds the sandbox paths: the sandbox directory is created. *)
Lemma sandbox_guard_misses_trailing_slash_witness :
  exists before after,
    events_of
      (handle_sd fs_answer0 fs_exec0 Url_str0 complete_url0 "task.000006"
         (mk_url "file" "localhost" "/sbox/pilot.0000/task.000006/")
         (mk_ctx "" "" "" "" "" "") (mk_ctx "" "" "" "" "" "")
         (mk_sd LINK "sd.0005" "/data/ref.dat"
                (Some "/sbox/pilot.0000/task.000006/ref.dat"))) tt
    = before ++ FsCmd (RecMakedir "/sbox/pilot.0000/task.000006") :: after
    /\ List.filter is_fs_cmd before = [].
Proof.
  exact (sandbox_guard_misses_trailing_slash fs_answer0 fs_exec0 Url_str0
           complete_url0 "task.000006"
           (mk_url "file" "localhost" "/sbox/pilot.0000/task.000006/")
           (mk_ctx "" "" "" "" "" "") (mk_ctx "" "" "" "" "" "")
           (mk_sd LINK "sd.0005" "/data/ref.dat"
                  (Some "/sbox/pilot.0000/task.000006/ref.dat")) tt
           "/sbox/pilot.0000/task.000006/ref.dat"
           (mk_url "file" "localhost" "/data/ref.dat")
           (mk_url "file" "localhost" "/sbox/pilot.0000/task.000006/ref.dat")
           eq_refl eq_refl eq_refl eq_refl eq_refl eq_refl eq_refl eq_refl).
Defined.

End StagingInputExtra.


(* ===================================================================== *)
(** ** More about agent/launch_method/mpiexec.py                          *)
(* ===================================================================== *)

Module MPIExecExtra.
Import MPIExec MPIExecFacts.

(** *** Strings *)

Lemma lstrip_solid a : lstrip a = "" \/ starts_solid (lstrip a) = true.
Proof.
  induction a as [|c a IH]; [left; reflexivity|].
  simpl. destruct (is_space c) eqn:E; [exact IH|].
  right. simpl. rewrite E. reflexivity.
Qed.

Lemma rstrip_solid b : rstrip b = "" \/ ends_solid (rstrip b) = true.
Proof.
  induction b as [|c b IH]; [left; reflexivity|].
  simpl. destruct (rstrip b) as [|c' r] eqn:E.
  - destruct (is_space c) eqn:Ec; [left; reflexivity|].
    right. simpl. rewrite Ec. reflexivity.
  - right. destruct IH as [IH|IH]; [discriminate|].
    change (ends_solid (String c (String c' r))) with
      (ends_solid (String c' r)). exact IH.
Qed.

Lemma starts_solid_app a m :
  starts_solid a = true -> starts_solid (a +:+ m) = true.
Proof. destruct a; [discriminate|]. intros H. exact H. Qed.

Lemma stripped_shape a m b :
  starts_solid m = true -> ends_solid m = true ->
  starts_solid (lstrip a +:+ m +:+ rstrip b) = true
  /\ ends_solid (lstrip a +:+ m +:+ rstrip b) = true.
Proof.
  intros Hs He. split.
  - destruct (lstrip_solid a) as [-> | Ha].
    + rewrite append_nil_l. apply starts_solid_app, Hs.
    + apply starts_solid_app, Ha.
  - destruct (rstrip_solid b) as [-> | Hb].
    + rewrite append_nil_r. apply ends_solid_app, He.
    + apply ends_solid_app, ends_solid_app, Hb.
Qed.

Section Facts.

Variable which : list string -> option string.
Variable get_hostname : string.
Variable _get_mpi_info : string -> result (option string * option string).
Variable sh_callout : string -> string.
Variable set_iter : list string -> list string.

Local Abbreviation has_rf := (has_rf sh_callout).
Local Abbreviation placement_options :=
  (placement_options sh_callout set_iter).
Local Abbreviation get_launch_cmds := (get_launch_cmds sh_callout set_iter).
Local Abbreviation _init_from_scratch :=
  (_init_from_scratch which get_hostname _get_mpi_info).

(** *** When a launch command is built *)

Lemma rank_file_loop_fails rs n acc :
  forallb (fun r => match core_map r with [] => false | _ => true end) rs
  = false ->
  rank_file_loop n rs acc = Raise (IndexError "list index out of range").
Proof.
  revert n acc. induction rs as [|r rs IH]; intros n acc H; [discriminate|].
  simpl in *. destruct (core_map r); [reflexivity|].
  simpl in H. apply IH, H.
Qed.

Lemma placement_options_solid self rs uid sbox po files :
  placement_options self rs uid sbox = Ok (po, files) ->
  starts_solid po = true /\ ends_solid po = true /\ length files = 1%nat.
Proof.
  unfold MPIExec.placement_options.
  destruct (has_rf self).
  - unfold _get_rank_file.
    destruct (rank_file_loop 0 rs "") as [rf|e]; simpl; [|discriminate].
    intros H. injection H as <- <-. split; [reflexivity|].
    split; [|reflexivity].
    rewrite <- !append_assoc. apply ends_solid_app. reflexivity.
  - destruct rs as [|r0 rs]; [discriminate|].
    destruct (core_map r0); [discriminate|].
    intros H. injection H as <- <-. split; [reflexivity|].
    split; [|reflexivity].
    rewrite <- !append_assoc. apply ends_solid_app. reflexivity.
Qed.

(** X13: when [get_launch_cmds] builds a command.  With the [-rf] option
    it succeeds exactly for the tasks with at least one rank all of whose
    ranks have a core map entry; without, exactly for the tasks whose
    first rank has one (later ranks may come without).  A task with no
    ranks is refused with an [AssertionError], every other failure is the
    [IndexError] of a missing core map entry. *)
Theorem launch_cmds_success
        (self : mpiexec) (t : task) (exec_path : string) :
  is_ok (get_launch_cmds self t exec_path)
  = (if has_rf self then placed t else first_rank_has_cores t)
  /\ (ranks t = None \/ ranks t = Some [] ->
      get_launch_cmds self t exec_path
      = Raise (AssertionError "task.slots.ranks not defined"))
  /\ (forall e, get_launch_cmds self t exec_path = Raise e ->
        (e = AssertionError "task.slots.ranks not defined"
         /\ (ranks t = None \/ ranks t = Some []))
        \/ e = IndexError "list index out of range").
Proof.
  unfold MPIExec.get_launch_cmds, placed, first_rank_has_cores.
  destruct (ranks t) as [[|r0 rs]|] eqn:Hr.
  - split; [destruct (has_rf self); reflexivity|].
    split; [reflexivity|]. intros e H. injection H as <-. left. auto.
  - unfold MPIExec.placement_options.
    destruct (has_rf self) eqn:Hrf.
    + destruct (forallb (fun r => match core_map r with [] => false | _ => true end)
                        (r0 :: rs)) eqn:Hall.
      * unfold _get_rank_file.
        rewrite (rank_file_loop_spec (r0 :: rs) 0 "" Hall). simpl.
        split; [reflexivity|]. split; [intros [H|H]; discriminate|].
        intros e H. discriminate.
      * unfold _get_rank_file.
        rewrite (rank_file_loop_fails (r0 :: rs) 0 "" Hall). simpl.
        split; [reflexivity|]. split; [intros [H|H]; discriminate|].
        intros e H. injection H as <-. right. reflexivity.
    + destruct (core_map r0) as [|cores cm]; simpl.
      * split; [reflexivity|]. split; [intros [H|H]; discriminate|].
        intros e H. injection H as <-. right. reflexivity.
      * split; [reflexivity|]. split; [intros [H|H]; discriminate|].
        intros e H. discriminate.
  - split; [destruct (has_rf self); reflexivity|].
    split; [reflexivity|]. intros e H. injection H as <-. left. auto.
Qed.

(** X14: a launch command has no white space at either end, whatever the
    instance holds and also when the path of the executable is empty or
    blank; and exactly one file was written for it. *)
Theorem launch_cmd_is_stripped
        (self : mpiexec) (t : task) (exec_path : string)
        (cmd : string) (files : list event) :
  get_launch_cmds self t exec_path = Ok (cmd, files) ->
  starts_solid cmd = true /\ ends_solid cmd = true /\ length files = 1%nat.
Proof.
  unfold MPIExec.get_launch_cmds.
  destruct (ranks t) as [[|r0 rs]|]; try discriminate.
  destruct (placement_options self (r0 :: rs) (uid t) (task_sandbox_path t))
    as [[po fs]|e] eqn:Hpo; simpl; [|discriminate].
  intros H. injection H as <- <-.
  destruct (placement_options_solid _ _ _ _ _ _ Hpo) as (Hs & He & Hl).
  rewrite (launch_cmd_shape self po exec_path Hs He).
  unfold cmd_tail.
  destruct (stripped_shape (_command self +:+ " ") po
              ((if truthy (_omplace self) then " " +:+ _omplace self else "")
               +:+ " " +:+ exec_path) Hs He) as [H1 H2].
  auto.
Qed.

(** *** The host file *)

Lemma slots_get_add_eq k n d :
  slots_get k (dict_add k n d)
  = Some (match slots_get k d with Some v => v + n | None => n end).
Proof.
  induction d as [|[k' v] d IH]; simpl.
  - rewrite String.eqb_refl. reflexivity.
  - destruct (String.eqb k' k) eqn:E; simpl; rewrite E; [reflexivity|exact IH].
Qed.

Lemma slots_get_add_ne k k0 n d :
  k0 <> k -> slots_get k (dict_add k0 n d) = slots_get k d.
Proof.
  intros Hne. induction d as [|[k' v] d IH]; simpl.
  - apply String.eqb_neq in Hne. rewrite Hne. reflexivity.
  - destruct (String.eqb k' k0) eqn:E; simpl.
    + apply String.eqb_eq in E. subst k'.
      apply String.eqb_neq in Hne. rewrite Hne. reflexivity.
    + destruct (String.eqb k' k); [reflexivity|exact IH].
Qed.

Lemma dict_add_keys k n d :
  List.map fst (dict_add k n d)
  = if existsb (String.eqb k) (List.map fst d)
    then List.map fst d else List.map fst d ++ [k].
Proof.
  induction d as [|[k' v] d IH]; [reflexivity|].
  simpl. rewrite (String.eqb_sym k k').
  destruct (String.eqb k' k) eqn:E; simpl; [reflexivity|].
  rewrite IH. destruct (existsb (String.eqb k) (List.map fst d)); reflexivity.
Qed.

Lemma dict_add_nodup k n d :
  List.NoDup (List.map fst d) -> List.NoDup (List.map fst (dict_add k n d)).
Proof.
  intros Hd. rewrite dict_add_keys.
  destruct (existsb (String.eqb k) (List.map fst d)) eqn:E; [exact Hd|].
  apply List.NoDup_app; [exact Hd | repeat constructor; intros [] |].
  intros x Hx [Hk | []]. subst x.
  assert (existsb (String.eqb k) (List.map fst d) = true); [|congruence].
  apply existsb_exists. exists k. split; [exact Hx|apply String.eqb_refl].
Qed.

Lemma host_slots_fold rs d host :
  slots_get host
    (fold_left (fun d r => dict_add (node_name r)
                                    (Z.of_nat (length (core_map r))) d) rs d)
  = match slots_get host d with
    | Some v => Some (v + slots_on host rs)
    | None => if existsb (fun r => String.eqb (node_name r) host) rs
              then Some (slots_on host rs) else None
    end.
Proof.
  revert d. induction rs as [|r rs IH]; intros d.
  - simpl. destruct (slots_get host d); [rewrite Z.add_0_r|]; reflexivity.
  - simpl. rewrite IH.
    destruct (String.eqb (node_name r) host) eqn:E.
    + apply String.eqb_eq in E. rewrite E, slots_get_add_eq. simpl.
      destruct (slots_get host d); f_equal; lia.
    + apply String.eqb_neq in E. rewrite (slots_get_add_ne _ _ _ _ E). simpl.
      reflexivity.
Qed.

Lemma host_slots_nodup_fold rs d :
  List.NoDup (List.map fst d) ->
  List.NoDup
    (List.map fst
       (fold_left (fun d r => dict_add (node_name r)
                                       (Z.of_nat (length (core_map r))) d)
                  rs d)).
Proof.
  revert d. induction rs as [|r rs IH]; intros d Hd; [exact Hd|].
  simpl. apply IH, dict_add_nodup, Hd.
Qed.

(** X15: the host dictionary behind the host file.  Every node that a rank
    is placed on is listed once, no other node is listed, and the slot
    count kept for a node is the number of core map entries of all the
    ranks placed on it. *)
Theorem host_slots_spec (rs : list rank) (host : string) :
  List.NoDup (List.map fst (host_slots rs))
  /\ slots_get host (host_slots rs)
     = (if existsb (fun r => String.eqb (node_name r) host) rs
        then Some (slots_on host rs) else None)
  /\ (In host (List.map fst (host_slots rs))
      <-> In host (List.map node_name rs)).
Proof.
  assert (Hget : slots_get host (host_slots rs)
                 = (if existsb (fun r => String.eqb (node_name r) host) rs
                    then Some (slots_on host rs) else None)).
  { unfold host_slots. rewrite host_slots_fold. reflexivity. }
  split; [apply host_slots_nodup_fold; constructor|].
  split; [exact Hget|].
  assert (Hkey : forall d, In host (List.map fst d) <-> slots_get host d <> None).
  { induction d as [|[k v] d IH]; simpl.
    - split; [intros []|congruence].
    - destruct (String.eqb k host) eqn:E.
      + apply String.eqb_eq in E. split; [discriminate|auto].
      + apply String.eqb_neq in E. rewrite <- IH. split.
        * intros [H|H]; [contradiction|exact H].
        * auto. }
  rewrite Hkey, Hget.
  destruct (existsb (fun r => String.eqb (node_name r) host) rs) eqn:E.
  - split; [intros _|discriminate].
    apply existsb_exists in E as (r & Hr & Heq). apply String.eqb_eq in Heq.
    rewrite <- Heq. apply in_map, Hr.
  - split; [congruence|]. intros Hin. exfalso.
    apply in_map_iff in Hin as (r & Heq & Hr).
    assert (existsb (fun r => String.eqb (node_name r) host) rs = true);
      [|congruence].
    apply existsb_exists. exists r. split; [exact Hr|].
    rewrite Heq. apply String.eqb_refl.
Qed.

(** *** Probing *)

(** X16: what [_init_from_scratch] returns.  Without an [mpiexec] on the
    path it raises [ValueError], whatever the name and the host.  When it
    returns an [lm_info], the command in it is not empty; the [ccmrun] and
    [dplace] paths are set exactly when the lower-cased name of the launch
    method asks for them, and are then the paths found; [rsh] follows the
    name; on a host whose name contains ['cheyenne'], [mpt] is set and
    [omplace] is ['omplace'], elsewhere [mpt] follows the name and
    [omplace] is empty. *)
Theorem init_from_scratch_outcome
        (self : mpiexec) (env0 : list (string * string)) (env_sh0 : string) :
  let lname := lower (name self) in
  let cheyenne := contains "cheyenne" get_hostname in
  (truthy_opt (which mpiexec_names) = false ->
   _init_from_scratch self env0 env_sh0
   = Raise (ValueError "mpiexec not found - cannot start MPI tasks"))
  /\ forall info,
      _init_from_scratch self env0 env_sh0 = Ok info ->
      truthy (command info) = true
      /\ truthy (ccmrun info) = contains "_ccmrun" lname
      /\ (contains "_ccmrun" lname = true -> which ["ccmrun"] = Some (ccmrun info))
      /\ truthy (dplace info) = contains "_dplace" lname
      /\ (contains "_dplace" lname = true -> which ["dplace"] = Some (dplace info))
      /\ rsh info = contains "_rsh" lname
      /\ mpt info = (contains "_mpt" lname || cheyenne)
      /\ omplace info = (if cheyenne then "omplace" else "").
Proof.
  intros lname cheyenne. unfold MPIExec._init_from_scratch. fold lname.
  split; [intros ->; reflexivity|].
  intros info.
  destruct (which mpiexec_names) as [c|]; simpl; [|discriminate].
  destruct (truthy c) eqn:Hc; simpl; [|discriminate].
  unfold which_asserted.
  assert (Hw : forall exe (b : bool) p,
             (if b then match which [exe] with
                        | Some p => if truthy p then Ok p
                                    else Raise (AssertionError "")
                        | None => Raise (AssertionError "")
                        end
              else Ok "") = Ok p ->
             truthy p = b /\ (b = true -> which [exe] = Some p)).
  { intros exe [|] p.
    - destruct (which [exe]) as [q|]; [|discriminate].
      destruct (truthy q) eqn:Hq; [|discriminate].
      intros H. injection H as <-. auto.
    - intros H. injection H as <-. split; [reflexivity|discriminate]. }
  destruct (if contains "_ccmrun" lname then _ else _) as [cc|] eqn:Hcc;
    simpl; [|discriminate].
  destruct (if contains "_dplace" lname then _ else _) as [dp|] eqn:Hdp;
    simpl; [|discriminate].
  destruct (_get_mpi_info c) as [[v f]|]; simpl; [|discriminate].
  intros H. injection H as <-. simpl.
  destruct (Hw _ _ _ Hcc) as [Hc1 Hc2]. destruct (Hw _ _ _ Hdp) as [Hd1 Hd2].
  fold cheyenne.
  repeat split; try assumption.
  destruct (contains "_mpt" lname), cheyenne; reflexivity.
Qed.

End Facts.

Lemma launch_cmd_is_stripped_witness :
  starts_solid "/usr/bin/mpiexec -np 2 -H node1,node2 -rf /sbox/task.000000/task.000000.rf"
  = true
  /\ ends_solid "/usr/bin/mpiexec -np 2 -H node1,node2 -rf /sbox/task.000000/task.000000.rf"
     = true
  /\ length [WriteFile "/sbox/task.000000/task.000000.rf"
               ("rank 0=node1 slots=0,1" +:+ nl +:+ "rank 1=node2 slots=4,5" +:+ nl)]
     = 1%nat.
Proof.
  apply (launch_cmd_is_stripped sh_callout0 set_iter0 lm0 task0 "   ").
  vm_compute. reflexivity.
Defined.

End MPIExecExtra.


(* ===================================================================== *)
(** ** More about session.py                                              *)
(* ===================================================================== *)

Module SessionExtra.
Import Session.

Section Ctor.

Context {CloseOptions : Type}.
Variable verify_close_options : CloseOptions -> option exn.
Variable generate_id : nat -> string.
Variable service_addr : string -> option string.
Variable raises : step -> session -> option exn.

Local Abbreviation __init__ :=
  (__init__ verify_close_options generate_id service_addr raises).

(** X17: the ids the constructor generates and the uid it works with.
    With a non-empty uid no id is generated and that uid is the one used.
    Without one, an id is generated first in every role and dropped; only
    a primary session generates a second one and uses that, every other
    role goes on without a uid.  This holds of every run, also of one that
    raises: every step the constructor calls sees that uid, and a session
    that got through has it and was handed with it to the base class.
    When the role check refuses the session nothing is called at all;
    otherwise the first call after the ids is [_read_cfg] for a primary
    session, the start of the registry for an [agent_0] session (unless
    it was handed a registry address) and the base class for the
    others. *)
Theorem ctor_ids_and_uid
        (uid : option string) (role : string) (reg_addr : option string)
        (opts : CloseOptions) (n : nat) :
  verify_close_options opts = None ->
  let r := __init__ uid role reg_addr opts n in
  let ids :=
    if truthy_opt uid then []
    else if String.eqb role _PRIMARY then [generate_id n; generate_id (S n)]
    else [generate_id n] in
  let effective :=
    if truthy_opt uid then uid
    else if String.eqb role _PRIMARY then Some (generate_id (S n))
    else uid in
  let refused :=
    truthy_opt uid && negb (String.eqb role _PRIMARY)
    && (String.eqb role _AGENT_0 || String.eqb role _AGENT_N
        || String.eqb role _DEFAULT) in
  let first_call :=
    if refused then None
    else if String.eqb role _PRIMARY then Some (Call ReadCfg effective)
    else if String.eqb role _AGENT_0 then
      if truthy_opt reg_addr then None
      else Some (Registry (RegistryStart (str_opt uid +:+ ".reg")))
    else Some (Call SagaSessionInit uid) in
  snd (fst r) = (n + length ids)%nat
  /\ List.filter is_generate (snd r) = List.map GenerateId ids
  /\ (forall st u, In (Call st u) (snd r) -> u = effective)
  /\ (forall s, fst (fst r) = Ok s ->
        _uid s = effective /\ _role s = role
        /\ In (Call SagaSessionInit effective) (snd r))
  /\ match first_call with
     | Some ev => exists evs, snd r = List.map GenerateId ids ++ ev :: evs
     | None => snd r = List.map GenerateId ids
     end.
Proof.
  intros Hv r ids effective refused first_call.
  subst r ids effective refused first_call.
  unfold Session.__init__, init_role, _init_primary, _init_agent_0,
    _init_secondary, _init_components, registry, setup_registry,
    _start_registry, _init_registry, and_then, call.
  rewrite Hv. cbn [_uid _role _reg_addr].
  destruct (truthy_opt uid) eqn:Hu;
    destruct (String.eqb role _PRIMARY) eqn:Ep;
    destruct (String.eqb role _AGENT_0) eqn:E0;
    destruct (String.eqb role _AGENT_N) eqn:En;
    destruct (String.eqb role _DEFAULT) eqn:Ed;
    cbn [negb orb andb _uid _role _reg_addr];
    repeat (match goal with
            | |- context [raises ?a ?b] => destruct (raises a b) eqn:?
            | |- context [truthy_opt ?x] => destruct (truthy_opt x) eqn:?
            end;
            cbn [negb orb andb fst snd _uid _role _reg_addr];
            rewrite ?Ep, ?E0, ?En, ?Ed;
            cbn [negb orb andb fst snd _uid _role _reg_addr]);
    cbn -[Nat.add];
    (split; [lia|]);
    (split; [reflexivity|]);
    (split; [intros st u Hin; cbn in Hin;
             repeat (destruct Hin as [Hin|Hin];
                     [try discriminate Hin; inversion Hin; reflexivity|]);
             contradiction|]);
    (split; [intros s Hs; try discriminate Hs; inversion Hs; subst;
             cbn; repeat split; auto 10|]);
    first [reflexivity | eexists; reflexivity].
Qed.

End Ctor.

(** A primary session called without a uid. *)
Lemma ctor_ids_and_uid_witness :
  snd (fst (__init__ accept_all gen0 addr0 no_raise None _PRIMARY None tt 7))
  = 9%nat
  /\ List.filter is_generate
       (snd (__init__ accept_all gen0 addr0 no_raise None _PRIMARY None tt 7))
     = [GenerateId (gen0 7); GenerateId (gen0 8)].
Proof.
  pose proof (ctor_ids_and_uid accept_all gen0 addr0 no_raise None _PRIMARY
                None tt 7%nat eq_refl) as (H1 & H2 & _).
  split; [exact H1|exact H2].
Defined.

(** *** The registry service *)

(** X18: setting up the registry of a primary or [agent_0] session.  A
    session that was handed a registry address fails with [ValueError]
    before any service is started; otherwise the service is started first
    and the client second, the client connects to the address of the
    service just started, which becomes the registry address of the
    session, and the only failure left is a service without address. *)
Theorem setup_registry_outcome (service_addr : option string) (s : session) :
  (truthy_opt (_reg_addr s) = true ->
   setup_registry service_addr s
   = (Raise (ValueError "cannot start registry when providing `reg_addr`"), []))
  /\ (truthy_opt (_reg_addr s) = false -> truthy_opt service_addr = true ->
      setup_registry service_addr s
      = (Ok (mk_session (_role s) (_uid s) service_addr),
         [RegistryStart (str_opt (_uid s) +:+ ".reg");
          RegistryClient (str_opt service_addr)]))
  /\ (truthy_opt (_reg_addr s) = false -> truthy_opt service_addr = false ->
      setup_registry service_addr s
      = (Raise (ValueError "session needs a registry address"),
         [RegistryStart (str_opt (_uid s) +:+ ".reg")])).
Proof.
  unfold setup_registry, _start_registry, _init_registry.
  split; [intros ->; reflexivity|].
  split; intros -> Hs; simpl; rewrite Hs; reflexivity.
Qed.

(** *** The managers of a session *)

Section Managers.

Context {Mgr : Type}.
Variable mgr_uid : Mgr -> string.

Local Abbreviation _register_pmgr := (_register_pmgr mgr_uid).

Lemma mgr_get_set_eq k (m : Mgr) d : mgr_get k (mgr_set k m d) = Some m.
Proof.
  induction d as [|[k' m'] d IH]; simpl.
  - rewrite String.eqb_refl. reflexivity.
  - destruct (String.eqb k' k) eqn:E; simpl.
    + rewrite String.eqb_refl. reflexivity.
    + rewrite E. exact IH.
Qed.

Lemma mgr_get_set_ne k k0 (m : Mgr) d :
  k0 <> k -> mgr_get k (mgr_set k0 m d) = mgr_get k d.
Proof.
  intros Hne. induction d as [|[k' m'] d IH]; simpl.
  - apply String.eqb_neq in Hne. rewrite Hne. reflexivity.
  - destruct (String.eqb k' k0) eqn:E; simpl.
    + apply String.eqb_eq in E. subst k'.
      apply String.eqb_neq in Hne. rewrite Hne. reflexivity.
    + destruct (String.eqb k' k); [reflexivity|exact IH].
Qed.

Lemma mgr_set_keys k (m : Mgr) d :
  List.map fst (mgr_set k m d)
  = if existsb (String.eqb k) (List.map fst d)
    then List.map fst d else List.map fst d ++ [k].
Proof.
  induction d as [|[k' m'] d IH]; [reflexivity|].
  simpl. rewrite (String.eqb_sym k k').
  destruct (String.eqb k' k) eqn:E; simpl.
  - apply String.eqb_eq in E. subst k'. reflexivity.
  - rewrite IH. destruct (existsb (String.eqb k) (List.map fst d)); reflexivity.
Qed.

Lemma get_one (pmgrs : list (string * Mgr)) (k : string) :
  get_pilot_managers pmgrs (ArgUid k)
  = match mgr_get k pmgrs with
    | Some m => Ok (One m)
    | None => Raise (KeyError k)
    end.
Proof.
  unfold get_pilot_managers. simpl. destruct (mgr_get k pmgrs); reflexivity.
Qed.

(** X19: registering a manager and asking for it.  After
    [_register_pmgr], asking for the uid of the manager returns that
    manager, and asking for any other uid returns what it returned before.
    The list of uids keeps its order: a uid that was registered already
    stays where it was (the manager is replaced), a new one goes to the
    end. *)
Theorem register_then_get (pmgr : Mgr) (pmgrs : list (string * Mgr)) :
  get_pilot_managers (_register_pmgr pmgr pmgrs) (ArgUid (mgr_uid pmgr))
  = Ok (One pmgr)
  /\ (forall k, k <> mgr_uid pmgr ->
        get_pilot_managers (_register_pmgr pmgr pmgrs) (ArgUid k)
        = get_pilot_managers pmgrs (ArgUid k))
  /\ list_pilot_managers (_register_pmgr pmgr pmgrs)
     = (if existsb (String.eqb (mgr_uid pmgr)) (list_pilot_managers pmgrs)
        then list_pilot_managers pmgrs
        else list_pilot_managers pmgrs ++ [mgr_uid pmgr]).
Proof.
  unfold Session._register_pmgr. split; [|split].
  - rewrite get_one, mgr_get_set_eq. reflexivity.
  - intros k Hk. rewrite !get_one, mgr_get_set_ne; [reflexivity|].
    intros Heq. apply Hk. symmetry. exact Heq.
  - apply mgr_set_keys.
Qed.

Lemma lookup_all_spec (pmgrs : list (string * Mgr)) (l : list string) :
  match lookup_all pmgrs (List.map Some l) with
  | Ok ms =>
      List.map Some ms = List.map (fun k => mgr_get k pmgrs) l
  | Raise e =>
      exists pre k post,
        l = pre ++ k :: post /\ e = KeyError k /\ mgr_get k pmgrs = None
        /\ Forall (fun k' => mgr_get k' pmgrs <> None) pre
  end.
Proof.
  induction l as [|k l IH]; [reflexivity|].
  simpl. destruct (mgr_get k pmgrs) as [m|] eqn:E.
  - destruct (lookup_all pmgrs (List.map Some l)) as [ms|e].
    + simpl. rewrite IH. reflexivity.
    + destruct IH as (pre & k' & post & -> & -> & Hn & Hpre).
      exists (k :: pre), k', post. repeat split; try assumption.
      constructor; [congruence|exact Hpre].
  - exists [], k, l. repeat split; try assumption. constructor.
Qed.

(** X20: what [get_pilot_managers] returns for its three kinds of
    argument.  Called without uids ([None], the default) it raises
    [KeyError]: [None] is wrapped into a list and looked up like a uid.
    Only the empty list gives all managers, in the order of their
    registration.  A list of uids gives the managers for these uids, one
    for one and in the order asked, or the [KeyError] of the first uid
    that is not registered. *)
Theorem get_pilot_managers_cases (pmgrs : list (string * Mgr)) :
  get_pilot_managers pmgrs ArgNone = Raise (KeyError "None")
  /\ get_pilot_managers pmgrs (ArgList []) = Ok (Many (List.map snd pmgrs))
  /\ forall l, l <> [] ->
      match get_pilot_managers pmgrs (ArgList l) with
      | Ok (Many ms) =>
          List.map Some ms = List.map (fun k => mgr_get k pmgrs) l
      | Ok (One _) => False
      | Raise e =>
          exists pre k post,
            l = pre ++ k :: post /\ e = KeyError k /\ mgr_get k pmgrs = None
            /\ Forall (fun k' => mgr_get k' pmgrs <> None) pre
      end.
Proof.
  split; [reflexivity|]. split; [reflexivity|].
  intros l Hl. pose proof (lookup_all_spec pmgrs l) as H.
  unfold get_pilot_managers.
  destruct l as [|k l]; [congruence|].
  change (List.map Some (k :: l)) with (Some k :: List.map Some l) in *.
  cbv iota beta.
  destruct (lookup_all pmgrs (Some k :: List.map Some l)) as [ms|e]; exact H.
Qed.

End Managers.

(** *** [get_resource_config] *)

Lemma contains_dot_cons c s :
  contains "." (String c s) = (Ascii.eqb c "." || contains "." s).
Proof.
  change (contains "." (String c s))
    with ((if Ascii.eqb "." c then true else false) || contains "." s).
  rewrite (Ascii.eqb_sym "." c). destruct (Ascii.eqb c "."); reflexivity.
Qed.

Lemma split_dot_none s : split_dot s = None <-> contains "." s = false.
Proof.
  induction s as [|c s IH]; [split; intros _; reflexivity|].
  rewrite contains_dot_cons. cbn [split_dot].
  destruct (Ascii.eqb c ".") eqn:E.
  - split; discriminate.
  - cbn [orb]. destruct (split_dot s) as [[a b]|].
    + split; [discriminate|]. intros H. apply IH in H. discriminate.
    + split; [intros _; apply IH; reflexivity | reflexivity].
Qed.

Lemma split_dot_some s a b :
  split_dot s = Some (a, b) ->
  s = a +:+ "." +:+ b /\ contains "." a = false.
Proof.
  revert a. induction s as [|c s IH]; intros a H; [discriminate|].
  simpl in H. destruct (Ascii.eqb c ".") eqn:E.
  - injection H as <- <-. apply Ascii.eqb_eq in E. subst c. split; reflexivity.
  - destruct (split_dot s) as [[a' b']|]; [|discriminate].
    injection H as <- <-. destruct (IH a' eq_refl) as [-> Hc].
    split; [reflexivity|]. rewrite contains_dot_cons, E. exact Hc.
Qed.

(** X21: how [get_resource_config] finds the resource.  The label is
    split at its first dot into domain and host (so a host may itself
    contain dots); a label without a dot raises [ValueError], a domain that
    is not configured raises [RuntimeError], and so does a host that is
    not configured in its domain, whatever schema is asked for. *)
Theorem resource_label_lookup
        (rcfgs : list (string * list (string * rcfg)))
        (resource : string) (schema : Agent0.pyval) :
  (contains "." resource = false ->
   get_resource_config rcfgs resource schema
   = Raise (ValueError "not enough values to unpack (expected 2, got 1)"))
  /\ (contains "." resource = true ->
      exists domain host,
        resource = domain +:+ "." +:+ host
        /\ contains "." domain = false
        /\ (dict_lookup domain rcfgs = None ->
            get_resource_config rcfgs resource schema
            = Raise (RuntimeError ("Resource domain '" +:+ domain
                                     +:+ "' is unknown.")))
        /\ (forall hosts,
              dict_lookup domain rcfgs = Some hosts ->
              dict_lookup host hosts = None ->
              get_resource_config rcfgs resource schema
              = Raise (RuntimeError ("Resource host '" +:+ host
                                       +:+ "' unknown.")))
        /\ (forall hosts cfg,
              dict_lookup domain rcfgs = Some hosts ->
              dict_lookup host hosts = Some cfg ->
              get_resource_config rcfgs resource schema
              = match apply_schema resource schema cfg with
                | Ok cfg' => Ok (cfg_set "label" (Agent0.PStr resource) cfg')
                | Raise e => Raise e
                end)).
Proof.
  unfold get_resource_config. split.
  - intros H. apply split_dot_none in H. rewrite H. reflexivity.
  - intros H. destruct (split_dot resource) as [[domain host]|] eqn:E.
    + destruct (split_dot_some _ _ _ E) as [Hr Hd].
      exists domain, host. split; [exact Hr|]. split; [exact Hd|].
      split; [intros ->; reflexivity|].
      split; [intros hosts -> ->; reflexivity|].
      intros hosts cfg -> ->. reflexivity.
    + apply split_dot_none in E. congruence.
Qed.

Lemma assoc_set_eq k v (d : rcfg) : Agent0.assoc k (cfg_set k v d) = Some v.
Proof.
  induction d as [|[k' v'] d IH]; simpl.
  - rewrite String.eqb_refl. reflexivity.
  - destruct (String.eqb k' k) eqn:E; simpl.
    + rewrite String.eqb_refl. reflexivity.
    + rewrite E. exact IH.
Qed.

Lemma assoc_set_ne k k0 v (d : rcfg) :
  k0 <> k -> Agent0.assoc k (cfg_set k0 v d) = Agent0.assoc k d.
Proof.
  intros Hne. induction d as [|[k' v'] d IH]; simpl.
  - apply String.eqb_neq in Hne. rewrite Hne. reflexivity.
  - destruct (String.eqb k' k0) eqn:E; simpl.
    + apply String.eqb_eq in E. subst k'.
      apply String.eqb_neq in Hne. rewrite Hne. reflexivity.
    + destruct (String.eqb k' k); [reflexivity|exact IH].
Qed.

Lemma assoc_in_keys k (d : rcfg) :
  In k (List.map fst d) -> Agent0.assoc k d <> None.
Proof.
  induction d as [|[k' v'] d IH]; simpl; [intros []|].
  intros [-> | Hin].
  - rewrite String.eqb_refl. discriminate.
  - destruct (String.eqb k' k); [discriminate|apply IH, Hin].
Qed.

Lemma assoc_not_in_keys k (d : rcfg) :
  ~ In k (List.map fst d) -> Agent0.assoc k d = None.
Proof.
  induction d as [|[k' v'] d IH]; simpl; [reflexivity|].
  intros Hn. destruct (String.eqb k' k) eqn:E.
  - apply String.eqb_eq in E. exfalso. apply Hn. left. exact E.
  - apply IH. intros Hin. apply Hn. right. exact Hin.
Qed.

Lemma merge_loop_spec sname (d : rcfg) ks (cfg : rcfg) :
  Agent0.assoc sname cfg = Some (Agent0.PDict d) ->
  ~ In sname ks ->
  (forall key, In key ks -> In key (List.map fst d)) ->
  exists cfg',
    merge_loop sname ks cfg = Ok cfg'
    /\ forall k,
        Agent0.assoc k cfg'
        = if existsb (String.eqb k) ks
          then Agent0.assoc k d else Agent0.assoc k cfg.
Proof.
  revert cfg. induction ks as [|key ks IH]; intros cfg Hs Hn Hks.
  - exists cfg. split; reflexivity.
  - simpl. rewrite Hs. simpl.
    destruct (Agent0.assoc key d) as [v|] eqn:Ev.
    2:{ exfalso. apply (assoc_in_keys key d); [apply Hks; left; reflexivity|].
        exact Ev. }
    assert (Hkey : key <> sname) by (intros ->; apply Hn; left; reflexivity).
    destruct (IH (cfg_set key v cfg)) as (cfg' & Hm & Hget).
    + rewrite assoc_set_ne; assumption.
    + intros Hin. apply Hn. right. exact Hin.
    + intros k Hk. apply Hks. right. exact Hk.
    + exists cfg'. split; [exact Hm|]. intros k. rewrite Hget.
      destruct (String.eqb k key) eqn:E; simpl.
      * apply String.eqb_eq in E. subst k.
        destruct (existsb (String.eqb key) ks); [reflexivity|].
        rewrite assoc_set_eq. symmetry. exact Ev.
      * apply String.eqb_neq in E.
        destruct (existsb (String.eqb k) ks); [reflexivity|].
        apply assoc_set_ne. intros ->. apply E. reflexivity.
Qed.

(** X22: what the schema does to the configuration returned.  When the
    schema asked for is configured as a dictionary (which does not list its
    own name as a key), the configuration is returned with every key of
    that dictionary set to the value the dictionary gives it, every other
    key as configured, and the label set to the resource asked for. *)
Theorem schema_keys_override
        (rcfgs : list (string * list (string * rcfg)))
        (resource domain host sname : string)
        (hosts : list (string * rcfg)) (cfg section : rcfg) :
  split_dot resource = Some (domain, host) ->
  dict_lookup domain rcfgs = Some hosts ->
  dict_lookup host hosts = Some cfg ->
  truthy sname = true ->
  Agent0.assoc sname cfg = Some (Agent0.PDict section) ->
  Agent0.assoc sname section = None ->
  exists cfg',
    get_resource_config rcfgs resource (Agent0.PStr sname) = Ok cfg'
    /\ Agent0.assoc "label" cfg' = Some (Agent0.PStr resource)
    /\ forall k, k <> "label" ->
         Agent0.assoc k cfg'
         = match Agent0.assoc k section with
           | Some v => Some v
           | None => Agent0.assoc k cfg
           end.
Proof.
  intros Hsplit Hd Hh Ht Hs Hself.
  unfold get_resource_config, apply_schema. rewrite Hsplit, Hd, Hh.
  simpl. rewrite Ht. simpl. rewrite Ht, Hs. simpl.
  destruct (merge_loop_spec sname section (List.map fst section) cfg Hs)
    as (cfg1 & Hm & Hget).
  - intros Hin. apply (assoc_in_keys sname section Hin). exact Hself.
  - auto.
  - rewrite Hm. eexists. split; [reflexivity|].
    split; [apply assoc_set_eq|].
    intros k Hk. rewrite assoc_set_ne by congruence. rewrite Hget.
    destruct (existsb (String.eqb k) (List.map fst section)) eqn:E.
    + apply existsb_exists in E as (x & Hx & Heq). apply String.eqb_eq in Heq.
      subst x. pose proof (assoc_in_keys k section Hx) as Hne.
      destruct (Agent0.assoc k section); [reflexivity|congruence].
    + rewrite (assoc_not_in_keys k section); [reflexivity|].
      intros Hin.
      assert (existsb (String.eqb k) (List.map fst section) = true);
        [|congruence].
      apply existsb_exists. exists k. split; [exact Hin|apply String.eqb_refl].
Qed.

(** X23: the schema taken when none is asked for.  Without a schema
    ([None] or the empty string) a resource is configured as with the
    first entry of its [schemas] list; when it has no [schemas] entry, only
    the label is set; and when its [schemas] list is empty, the call
    raises [IndexError]. *)
Theorem default_schema_is_first
        (rcfgs : list (string * list (string * rcfg)))
        (resource domain host : string)
        (hosts : list (string * rcfg)) (cfg : rcfg) (schema : Agent0.pyval) :
  split_dot resource = Some (domain, host) ->
  dict_lookup domain rcfgs = Some hosts ->
  dict_lookup host hosts = Some cfg ->
  schema = Agent0.PNone \/ schema = Agent0.PStr "" ->
  (forall s0 rest,
      Agent0.assoc "schemas" cfg
      = Some (Agent0.PList (Agent0.PStr s0 :: rest)) ->
      get_resource_config rcfgs resource schema
      = get_resource_config rcfgs resource (Agent0.PStr s0))
  /\ (Agent0.assoc "schemas" cfg = None ->
      get_resource_config rcfgs resource schema
      = Ok (cfg_set "label" (Agent0.PStr resource) cfg))
  /\ (Agent0.assoc "schemas" cfg = Some (Agent0.PList []) ->
      get_resource_config rcfgs resource schema
      = Raise (IndexError "list index out of range")).
Proof.
  intros Hsplit Hd Hh Hschema.
  unfold get_resource_config, apply_schema. rewrite Hsplit, Hd, Hh.
  assert (Hf : py_truthy schema = false)
    by (destruct Hschema as [-> | ->]; reflexivity).
  rewrite Hf. simpl negb. cbv iota.
  split; [|split].
  - intros s0 rest Hs. rewrite Hs. simpl first_item. cbv iota.
    destruct (truthy s0) eqn:Ht.
    + simpl py_truthy. rewrite Ht. simpl negb. cbv iota.
      simpl py_truthy. rewrite Ht. reflexivity.
    + simpl py_truthy. rewrite Ht. simpl negb. cbv iota.
      simpl. rewrite Ht. reflexivity.
  - intros Hs. rewrite Hs, Hf. reflexivity.
  - intros Hs. rewrite Hs. reflexivity.
Qed.

Lemma schema_keys_override_witness :
  exists cfg',
    get_resource_config rcfgs0 "local.localhost" (Agent0.PStr "ssh") = Ok cfg'
    /\ Agent0.assoc "label" cfg' = Some (Agent0.PStr "local.localhost")
    /\ forall k, k <> "label" ->
         Agent0.assoc k cfg'
         = match Agent0.assoc k
                   [("job_manager_endpoint", Agent0.PStr "ssh://localhost/")] with
           | Some v => Some v
           | None => Agent0.assoc k rcfg_localhost
           end.
Proof.
  exact (schema_keys_override rcfgs0 "local.localhost" "local" "localhost" "ssh"
           [("localhost", rcfg_localhost)] rcfg_localhost
           [("job_manager_endpoint", Agent0.PStr "ssh://localhost/")]
           eq_refl eq_refl eq_refl eq_refl eq_refl eq_refl).
Defined.

Lemma default_schema_is_first_witness :
  get_resource_config rcfgs0 "local.localhost" Agent0.PNone
  = get_resource_config rcfgs0 "local.localhost" (Agent0.PStr "local").
Proof.
  exact (proj1 (default_schema_is_first rcfgs0 "local.localhost" "local"
                  "localhost" [("localhost", rcfg_localhost)] rcfg_localhost
                  Agent0.PNone eq_refl eq_refl eq_refl (or_introl eq_refl))
               "local" [Agent0.PStr "ssh"] eq_refl).
Defined.

End SessionExtra.


(* ===================================================================== *)
(** ** More about raptor_tasks.py                                         *)
(* ===================================================================== *)

Module RaptorExtra.
Import Raptor.

Lemma prepare_worker_mk master_uid u e ne env m a rf rc :
  prepare_worker master_uid (mk_td u e ne env m a rf rc)
  = mk_td (Some "raptor_worker.0000")
          (if truthy_opt e then e else Some "radical-pilot-raptor-worker")
          (if truthy_opt ne then ne else Some "rp")
          (<["PYTHONUNBUFFERED" := "1"]> env) RAPTOR_WORKER
          [or_else rf ""; or_else rc "DefaultWorker"; master_uid] rf rc.
Proof.
  unfold prepare_worker. cbv zeta. cbn [uid].
  destruct (truthy_opt u); cbn [negb set_uid executable];
    destruct (truthy_opt e); cbn [negb set_uid set_executable named_env];
    destruct (truthy_opt ne); reflexivity.
Qed.

Lemma prepare_worker_idem master_uid td :
  prepare_worker master_uid (prepare_worker master_uid td)
  = prepare_worker master_uid td.
Proof.
  destruct td as [u e ne env m a rf rc]. rewrite !prepare_worker_mk.
  assert (He : truthy_opt (if truthy_opt e then e
                           else Some "radical-pilot-raptor-worker") = true)
    by (destruct (truthy_opt e) eqn:E; [exact E|reflexivity]).
  assert (Hne : truthy_opt (if truthy_opt ne then ne else Some "rp") = true)
    by (destruct (truthy_opt ne) eqn:E; [exact E|reflexivity]).
  rewrite He, Hne, insert_insert_eq. reflexivity.
Qed.

Lemma prepare_all_lookup master_uid descriptions
      (h : gmap loc TaskDescription) (l : loc) :
  prepare_all master_uid descriptions h !! l
  = if existsb (Nat.eqb l) descriptions
    then prepare_worker master_uid <$> (h !! l)
    else h !! l.
Proof.
  unfold prepare_all. revert h.
  induction descriptions as [|x ds IH]; intros h; [reflexivity|].
  simpl. rewrite IH.
  destruct (Nat.eqb l x) eqn:E.
  - apply Nat.eqb_eq in E. subst x. simpl. rewrite lookup_alter_eq.
    destruct (existsb (Nat.eqb l) ds); [|reflexivity].
    destruct (h !! l) as [td|]; simpl; [|reflexivity].
    rewrite prepare_worker_idem. reflexivity.
  - apply Nat.eqb_neq in E. simpl.
    rewrite lookup_alter_ne by (intros ->; apply E; reflexivity).
    reflexivity.
Qed.

(** X24: [submit_workers] changes the descriptions it is given and nothing
    else.  A description that is not in the list is left as it was, no
    description is added to or removed from the store, and a description
    that is listed ends up as one run of the loop body leaves it, however
    often it is listed. *)
Theorem submit_workers_frame
        (master_uid : string) (descriptions : list loc)
        (h : gmap loc TaskDescription) (l : loc) :
  let h' := fst (submit_workers master_uid descriptions h) in
  (~ In l descriptions -> h' !! l = h !! l)
  /\ (In l descriptions -> h' !! l = prepare_worker master_uid <$> (h !! l))
  /\ (is_Some (h' !! l) <-> is_Some (h !! l)).
Proof.
  intros h'. subst h'. unfold submit_workers. simpl.
  rewrite prepare_all_lookup.
  destruct (existsb (Nat.eqb l) descriptions) eqn:E.
  - apply existsb_exists in E as (x & Hx & Heq). apply Nat.eqb_eq in Heq.
    subst x. split; [contradiction|]. split; [reflexivity|].
    rewrite fmap_is_Some. reflexivity.
  - assert (Hn : ~ In l descriptions).
    { intros Hin.
      assert (existsb (Nat.eqb l) descriptions = true); [|congruence].
      apply existsb_exists. exists l. split; [exact Hin|apply Nat.eqb_refl]. }
    split; [reflexivity|]. split; [contradiction|reflexivity].
Qed.

(** X25: submitting the same worker descriptions a second time, under the
    same master, changes nothing: the store after the second call is the
    store after the first. *)
Theorem submit_workers_twice
        (master_uid : string) (descriptions : list loc)
        (h : gmap loc TaskDescription) :
  let h1 := fst (submit_workers master_uid descriptions h) in
  fst (submit_workers master_uid descriptions h1) = h1.
Proof.
  intros h1. subst h1. unfold submit_workers. simpl.
  apply map_eq. intros l. rewrite !prepare_all_lookup.
  destruct (existsb (Nat.eqb l) descriptions); [|reflexivity].
  destruct (h !! l) as [td|]; simpl; [|reflexivity].
  rewrite prepare_worker_idem. reflexivity.
Qed.

(** X26: what [submit_workers] keeps of a description.  The executable and
    the named environment of the caller are kept when they are set and not
    empty, and are ['radical-pilot-raptor-worker'] and ['rp'] otherwise;
    every environment variable other than [PYTHONUNBUFFERED] keeps its
    value; the raptor file and class are not changed. *)
Theorem submit_workers_keeps
        (master_uid : string) (descriptions : list loc)
        (h : gmap loc TaskDescription) (l : loc) (td : TaskDescription) :
  In l descriptions ->
  h !! l = Some td ->
  exists td',
    fst (submit_workers master_uid descriptions h) !! l = Some td'
    /\ executable td'
       = (if truthy_opt (executable td) then executable td
          else Some "radical-pilot-raptor-worker")
    /\ named_env td'
       = (if truthy_opt (named_env td) then named_env td else Some "rp")
    /\ (forall k, k <> "PYTHONUNBUFFERED" ->
          environment td' !! k = environment td !! k)
    /\ raptor_file td' = raptor_file td
    /\ raptor_class td' = raptor_class td.
Proof.
  intros Hin Hl. unfold submit_workers. cbn [fst].
  rewrite prepare_all_lookup, Hl.
  assert (E : existsb (Nat.eqb l) descriptions = true).
  { apply existsb_exists. exists l. split; [exact Hin|apply Nat.eqb_refl]. }
  rewrite E. destruct td as [u e ne env m a rf rc].
  cbn [fmap option_fmap option_map]. rewrite prepare_worker_mk.
  eexists. split; [reflexivity|]. cbn [executable named_env environment
                                         raptor_file raptor_class].
  split; [reflexivity|]. split; [reflexivity|].
  split; [|split; reflexivity].
  intros k Hk. apply lookup_insert_ne. congruence.
Qed.

Lemma submit_workers_keeps_witness :
  exists td',
    fst (submit_workers "master.0000" [1; 0]%nat
           (<[0%nat := td0]> (<[1%nat := td1]> ∅))) !! 1%nat = Some td'
    /\ executable td' = Some "/bin/worker"
    /\ named_env td' = Some "rp"
    /\ (forall k, k <> "PYTHONUNBUFFERED" ->
          environment td' !! k = environment td1 !! k)
    /\ raptor_file td' = None
    /\ raptor_class td' = None.
Proof.
  exact (submit_workers_keeps "master.0000" [1; 0]%nat
           (<[0%nat := td0]> (<[1%nat := td1]> ∅)) 1%nat td1
           (or_introl eq_refl) eq_refl).
Defined.

End RaptorExtra.
